(** * dynamodbattribute: encoder and decoder of DynamoDB attribute values

    A shallow embedding of the encoder ([Encoder.Encode] and the methods it
    calls) and of decode.go ([Decoder.Decode] and the methods it calls) of
    package [dynamodbattribute].  The Go code walks native values through
    package [reflect]; here a native value is a tree ([value]) that carries
    the run-time type information the code asks [reflect] for, and a wire
    value is the record [AttributeValue] with the ten fields of
    [dynamodb.AttributeValue].

    Conventions.
    - Integers are [Z]; the width of a numeric kind is written out
      ([intBits], [uintBits]) and range checks are explicit.  [int], [uint]
      and [uintptr] are 64 bits wide.
    - Floating point is an interface, [FloatOps]: the float64 values with
      their parsing and formatting.  The theorems hold for every instance;
      the statements at concrete inputs use [Binary64], the IEEE 754
      binary64 numbers with strconv's conversions.
    - Pointers are owning boxes: [VPtr t (Some x)] is a non-nil pointer to a
      cell holding [x].  The heap is tree shaped (no aliasing, no cycles).
    - Go maps are association lists and are ranged over in list order.
    - A run-time panic of the Go program (nil dereference, a [reflect] call
      on a value of the wrong kind) is the outcome [Panic]; a call that
      returns an error returns no value here, the target of a failed
      [Decode] being unspecified.
    - The modelled types have empty method sets ([NumMethod] is 0), so the
      [Marshaler] and [Unmarshaler] hooks are never found; named types are
      the predeclared ones only.
    - [encode] and [decode] recurse on fuel; the fuel is spent one unit per
      call, so a value nested [n] containers deep needs fuel [n + 1]. *)

From Stdlib Require Import ZArith List String Ascii Bool Lia.
From Stdlib Require Import Decimal DecimalString DecimalZ DecimalN DecimalPos DecimalFacts.
Import ListNotations.
Local Open Scope string_scope.
Local Open Scope Z_scope.
Set Warnings "-register-all".

(** ** Outcomes *)

Inductive NumErrKind := ErrSyntax | ErrRange.

Inductive IntKind := KInt | KInt8 | KInt16 | KInt32 | KInt64.
Inductive UintKind := KUint | KUint8 | KUint16 | KUint32 | KUint64 | KUintptr.

(** The options of a struct tag that the two files read ([tag] itself is
    declared in tag.go). *)
Record tag := mkTag {
  OmitEmpty : bool;
  OmitEmptyElem : bool;
  AsString : bool;
  AsBinSet : bool;
  AsNumSet : bool;
  AsStrSet : bool
}.

(** [tag{}] *)
Definition tag0 : tag := mkTag false false false false false false.

(** A resolved struct field, as [unionStructFields] returns it (field.go):
    the wire name and the tag options. *)
Record field := mkField { Name : string; ftag : tag }.

(** [reflect.Type] for the modelled universe. *)
Inductive rtype :=
| TBool
| TInt (k : IntKind)
| TUint (k : UintKind)
| TFloat32
| TFloat64
| TString
| TSlice (e : rtype)
| TArray (n : nat) (e : rtype)
| TMap (k e : rtype)
| TStruct (fs : list (field * rtype))
| TPtr (e : rtype)
| TInterface
| TChan
| TFunc
| TUnsafePointer.

Inductive error :=
| InvalidUnmarshalError
| UnmarshalTypeError (what : string) (t : rtype)
| InvalidMarshalError (msg : string)
| unsupportedMarshalTypeError (t : rtype)
| NumError (fn : string) (k : NumErrKind).

Inductive outcome (A : Type) :=
| Ok (a : A)
| Err (e : error)
| Panic (msg : string)
| OutOfFuel.
Arguments Ok {A} a.
Arguments Err {A} e.
Arguments Panic {A} msg.
Arguments OutOfFuel {A}.

Definition bind {A B} (m : outcome A) (k : A -> outcome B) : outcome B :=
  match m with
  | Ok a => k a
  | Err e => Err e
  | Panic s => Panic s
  | OutOfFuel => OutOfFuel
  end.

Notation "x <- m ;; k" := (bind m (fun x => k))
  (at level 61, m at next level, right associativity).

(** ** strconv *)

Definition digitVal (c : ascii) : option Z :=
  let n := Z.of_N (N_of_ascii c) in
  if (48 <=? n) && (n <=? 57) then Some (n - 48) else None.

Definition maxUint64 : Z := 2 ^ 64 - 1.

(** The digit loop of [strconv.ParseUint(s, 10, 64)]: a character that is
    not a decimal digit is a syntax error, a value above [maxUint64] a range
    error, whichever the scan meets first. *)
Fixpoint parseUintLoop (s : string) (n : Z) : Z + NumErrKind :=
  match s with
  | EmptyString => inl n
  | String c s' =>
      match digitVal c with
      | None => inr ErrSyntax
      | Some d =>
          if maxUint64 <? n * 10 + d then inr ErrRange
          else parseUintLoop s' (n * 10 + d)
      end
  end.

Definition ParseUint (s : string) : Z + NumErrKind :=
  match s with
  | EmptyString => inr ErrSyntax
  | _ => parseUintLoop s 0
  end.

(** [strconv.ParseInt(s, 10, 64)] *)
Definition ParseInt (s : string) : Z + NumErrKind :=
  match s with
  | EmptyString => inr ErrSyntax
  | String c s' =>
      let neg := Ascii.eqb c "-" in
      let rest := if Ascii.eqb c "+" || neg then s' else s in
      match ParseUint rest with
      | inr k => inr k
      | inl un =>
          if negb neg && (2 ^ 63 <=? un) then inr ErrRange
          else if neg && (2 ^ 63 <? un) then inr ErrRange
          else inl (if neg then - un else un)
      end
  end.

(** [strconv.FormatUint(u, 10)] and [strconv.FormatInt(i, 10)] *)
Definition FormatUint (u : Z) : string := NilZero.string_of_uint (N.to_uint (Z.to_N u)).
Definition FormatInt (i : Z) : string := NilZero.string_of_int (Z.to_int i).

(** Floating point is an interface: the float64 values with their parsing
    and formatting.  [Binary64] below interprets it. *)
Class FloatOps := {
  float64 : Type;
  ParseFloat : string -> float64 + NumErrKind;   (* strconv.ParseFloat(s, 64) *)
  FormatFloat : float64 -> string;               (* strconv.FormatFloat(f, 'f', -1, 64) *)
  floatIsZero : float64 -> bool;                 (* f == 0 *)
  floatZero : float64;
  overflowFloat32 : float64 -> bool;             (* reflect's overflowFloat32 *)
  toFloat32 : float64 -> float64                 (* float64(float32(f)) *)
}.

(** ** The instance: IEEE 754 binary64 with strconv's conversions

    [Binary64] interprets the interface: the values are the binary64
    numbers, [ParseFloat] accepts what [strconv.ParseFloat(s, 64)] accepts
    (decimal and hexadecimal mantissas, exponents, digit separators, the
    infinities and NaN, as of Go 1.13) and returns the nearest binary64,
    ties to even, and [FormatFloat] prints the shortest decimal that reads
    back as the number, in the format [%f].  All arithmetic is exact, on
    integers. *)

(** A float64: a signed zero, a signed infinity, a NaN, or the finite
    non-zero number [(-1)^neg * m * 2^e] with [m] odd. *)
Inductive binary64 :=
| F_zero (neg : bool)
| F_inf (neg : bool)
| F_nan
| F_finite (neg : bool) (m : positive) (e : Z).

(** The positive rational [p / q] rounded to the nearest number of a binary
    format with [prec] bits of precision whose least unit in the last place
    is [2^emin], ties to even: [Some (M, ex)] is [M * 2^ex] ([M] is 0 when
    the value rounds to zero), [None] a result of [2^emax] or more. *)
Definition roundBinary (prec emin emax p q : Z) : option (Z * Z) :=
  let l := Z.log2 p - Z.log2 q in
  let scaled := fun ex => if 0 <=? ex then (p, q * 2 ^ ex) else (p * 2 ^ (- ex), q) in
  let e1 := Z.max (l - prec + 1) emin in
  let ex := if (emin <? e1) && (fst (scaled e1) / snd (scaled e1) <? 2 ^ (prec - 1))
            then e1 - 1 else e1 in
  let num := fst (scaled ex) in
  let den := snd (scaled ex) in
  let Q := num / den in
  let r := num mod den in
  let M := if 2 * r <? den then Q
           else if den <? 2 * r then Q + 1
           else if Z.even Q then Q else Q + 1 in
  if M =? 0 then Some (0, 0)
  else if emax <=? Z.log2 M + ex then None
  else Some (M, ex).

Fixpoint oddPart (m : positive) (e : Z) : positive * Z :=
  match m with
  | xO m' => oddPart m' (e + 1)
  | _ => (m, e)
  end.

Definition mkFinite (neg : bool) (M ex : Z) : binary64 :=
  match M with
  | Zpos m => let (m', e') := oddPart m ex in F_finite neg m' e'
  | _ => F_zero neg
  end.

(** [neg], [p / q] to the nearest float64; the flag is the range error. *)
Definition toBinary64 (neg : bool) (p q : Z) : binary64 * bool :=
  if p =? 0 then (F_zero neg, false)
  else match roundBinary 53 (-1074) 1024 p q with
       | Some (M, ex) => (mkFinite neg M ex, false)
       | None => (F_inf neg, true)
       end.

(** *** [strconv.ParseFloat(s, 64)] *)

(** [lower(c)]: [c | ('x' - 'X')] *)
Definition lower (c : ascii) : ascii :=
  match c with Ascii b0 b1 b2 b3 b4 _ b6 b7 => Ascii b0 b1 b2 b3 b4 true b6 b7 end.

Definition hexLetterVal (c : ascii) : option Z :=
  let n := Z.of_N (N_of_ascii (lower c)) in
  if (97 <=? n) && (n <=? 102) then Some (n - 97 + 10) else None.

Fixpoint commonPrefixLenIgnoreCase (s prefix : string) : nat :=
  match s, prefix with
  | String c s', String p prefix' =>
      let n := Z.of_N (N_of_ascii c) in
      let c' := if (65 <=? n) && (n <=? 90) then lower c else c in
      if Ascii.eqb c' p then S (commonPrefixLenIgnoreCase s' prefix') else O
  | _, _ => O
  end.

(** [special]: the value and the number of bytes read *)
Definition special (s : string) : option (binary64 * nat) :=
  let inf := fun (neg : bool) (nsign : nat) (r : string) =>
    let n := commonPrefixLenIgnoreCase r "infinity" in
    let n := if Nat.ltb 3 n && Nat.ltb n 8 then 3%nat else n in
    if Nat.eqb n 3 || Nat.eqb n 8 then Some (F_inf neg, (nsign + n)%nat) else None in
  match s with
  | EmptyString => None
  | String c s' =>
      if Ascii.eqb c "+" || Ascii.eqb c "-" then inf (Ascii.eqb c "-") 1%nat s'
      else if Ascii.eqb c "i" || Ascii.eqb c "I" then inf false O s
      else if Ascii.eqb c "n" || Ascii.eqb c "N" then
        if Nat.eqb (commonPrefixLenIgnoreCase s "nan") 3 then Some (F_nan, 3%nat) else None
      else None
  end.

(** The digit loop of [readFloat]: the mantissa [mant] of the [nd] digits
    after the leading zeros, the position [dp] of the point among them, and
    what is left of the input.  The mantissa is kept in full; the code keeps
    19 digits (16 in base 16) and a truncation flag, and reads the digits
    again where they matter, so that the result is the correctly rounded
    value of all digits. *)
Record mantissa := mkMantissa {
  mant : Z; nd : Z; dp : Z; sawdot : bool; sawdigits : bool
}.

Fixpoint readDigits (hex : bool) (s : string) (st : mantissa) : mantissa * string :=
  match s with
  | EmptyString => (st, s)
  | String c s' =>
      if Ascii.eqb c "_" then readDigits hex s' st
      else if Ascii.eqb c "." then
        if sawdot st then (st, s)
        else readDigits hex s' (mkMantissa (mant st) (nd st) (nd st) true (sawdigits st))
      else
        match digitVal c with
        | Some d =>
            if (d =? 0) && (nd st =? 0) then
              readDigits hex s' (mkMantissa (mant st) (nd st) (dp st - 1) (sawdot st) true)
            else
              readDigits hex s'
                (mkMantissa (mant st * (if hex then 16 else 10) + d) (nd st + 1) (dp st)
                            (sawdot st) true)
        | None =>
            match hexLetterVal c with
            | Some d =>
                if hex then
                  readDigits hex s'
                    (mkMantissa (mant st * 16 + d) (nd st + 1) (dp st) (sawdot st) true)
                else (st, s)
            | None => (st, s)
            end
        end
  end.

Fixpoint readExpDigits (s : string) (e : Z) : option Z :=
  match s with
  | EmptyString => Some e
  | String c s' =>
      if Ascii.eqb c "_" then readExpDigits s' e
      else match digitVal c with
           | Some d => readExpDigits s' (if e <? 10000 then e * 10 + d else e)
           | None => None
           end
  end.

(** The exponent after the exponent character, to the end of the input *)
Definition readExponent (s : string) : option Z :=
  match s with
  | EmptyString => None
  | String c s' =>
      let r := if Ascii.eqb c "+" || Ascii.eqb c "-" then s' else s in
      match r with
      | EmptyString => None
      | String c1 _ =>
          match digitVal c1, readExpDigits r 0 with
          | Some _, Some e => Some (if Ascii.eqb c "-" then - e else e)
          | _, _ => None
          end
      end
  end.

Definition isDigit (c : ascii) : bool :=
  match digitVal c with Some _ => true | None => false end.
Definition isHexLetter (c : ascii) : bool :=
  match hexLetterVal c with Some _ => true | None => false end.

(** [underscoreOK]: [saw] is 0 at the beginning, 1 after a digit, 2 after
    an underscore, 3 after anything else. *)
Fixpoint underscoreLoop (hex : bool) (s : string) (saw : nat) : bool :=
  match s with
  | EmptyString => negb (Nat.eqb saw 2)
  | String c s' =>
      if isDigit c || (hex && isHexLetter c) then underscoreLoop hex s' 1
      else if Ascii.eqb c "_" then
        if Nat.eqb saw 1 then underscoreLoop hex s' 2 else false
      else if Nat.eqb saw 2 then false
      else underscoreLoop hex s' 3
  end.

Definition dropSign (s : string) : string :=
  match s with
  | String c s' => if Ascii.eqb c "+" || Ascii.eqb c "-" then s' else s
  | EmptyString => s
  end.

Definition underscoreOK (s : string) : bool :=
  match dropSign s with
  | String c0 (String c1 r) =>
      if Ascii.eqb c0 "0"
         && (Ascii.eqb (lower c1) "b" || Ascii.eqb (lower c1) "o" || Ascii.eqb (lower c1) "x")
      then underscoreLoop (Ascii.eqb (lower c1) "x") r 1
      else underscoreLoop false (dropSign s) 0
  | r => underscoreLoop false r 0
  end.

Fixpoint hasUnderscore (s : string) : bool :=
  match s with
  | EmptyString => false
  | String c s' => Ascii.eqb c "_" || hasUnderscore s'
  end.

(** [readFloat] on the whole input: the sign, the base, the mantissa and
    the exponent of the base (ten, or two for a hexadecimal mantissa) *)
Definition readFloat (s : string) : option (bool * bool * Z * Z) :=
  match s with
  | EmptyString => None
  | String c _ =>
      let neg := Ascii.eqb c "-" in
      let r := dropSign s in
      let hex := match r with
                 | String c0 (String c1 (String _ _)) =>
                     Ascii.eqb c0 "0" && Ascii.eqb (lower c1) "x"
                 | _ => false
                 end in
      let r := if hex then match r with String _ (String _ r') => r' | _ => r end else r in
      let (st, rest) := readDigits hex r (mkMantissa 0 0 0 false false) in
      if negb (sawdigits st) then None
      else
        let dp := if sawdot st then dp st else nd st in
        let ex := if hex then 4 * (dp - nd st) else dp - nd st in
        let e := match rest with
                 | EmptyString => if hex then None else Some 0
                 | String x rest' =>
                     if Ascii.eqb (lower x) (if hex then "p" else "e")%char
                     then readExponent rest' else None
                 end in
        match e with
        | None => None
        | Some e =>
            if hasUnderscore s && negb (underscoreOK s) then None
            else Some (neg, hex, mant st, ex + e)
        end
  end.

Definition parseFloat64 (s : string) : binary64 + NumErrKind :=
  match special s with
  | Some (f, n) => if Nat.eqb n (String.length s) then inl f else inr ErrSyntax
  | None =>
      match readFloat s with
      | None => inr ErrSyntax
      | Some (neg, hex, m, ex) =>
          let b := if hex then 2 else 10 in
          let (f, ovf) := if 0 <=? ex then toBinary64 neg (m * b ^ ex) 1
                          else toBinary64 neg m (b ^ (- ex)) in
          if ovf then inr ErrRange else inl f
      end
  end.

(** *** [strconv.FormatFloat(f, 'f', -1, 64)] *)

(** The least [k] from [k0] on with [vn / vd < 10^k] *)
Fixpoint pointFrom (fuel : nat) (vn vd k : Z) : Z :=
  match fuel with
  | O => k
  | S fuel' =>
      if (if 0 <=? k then vn <? vd * 10 ^ k else vn * 10 ^ (- k) <? vd) then k
      else pointFrom fuel' vn vd (k + 1)
  end.

(** The candidate [c * 10^x] as a fraction *)
Definition decimalNum (c x : Z) : Z := if 0 <=? x then c * 10 ^ x else c.
Definition decimalDen (x : Z) : Z := if 0 <=? x then 1 else 10 ^ (- x).

Definition readsBack (m : positive) (e : Z) (c x : Z) : bool :=
  match roundBinary 53 (-1074) 1024 (decimalNum c x) (decimalDen x) with
  | Some (Zpos M, ex) =>
      let (m', e') := oddPart M ex in Pos.eqb m' m && (e' =? e)
  | _ => false
  end.

(** The shortest decimal [c * 10^x] that reads back as [m * 2^e], the
    closest one when there are two of that length, the even one on a tie:
    tried with [n] digits, then [n + 1], ... *)
Fixpoint shortestFrom (fuel : nat) (m : positive) (e : Z) (vn vd k n : Z) : Z * Z :=
  let x := k - n in
  let lo := (vn * decimalDen x) / (vd * (if 0 <=? x then 10 ^ x else 1)) in
  let hi := lo + 1 in
  let below := vn * decimalDen x - decimalNum lo x * vd in
  let above := decimalNum hi x * vd - vn * decimalDen x in
  match fuel with
  | O => (lo, x)
  | S fuel' =>
      let okdown := readsBack m e lo x in
      let okup := readsBack m e hi x in
      if okdown && okup then
        if below <? above then (lo, x)
        else if above <? below then (hi, x)
        else if Z.even lo then (lo, x) else (hi, x)
      else if okdown then (lo, x)
      else if okup then (hi, x)
      else shortestFrom fuel' m e vn vd k (n + 1)
  end.

Fixpoint stripZeros (fuel : nat) (c x : Z) : Z * Z :=
  match fuel with
  | O => (c, x)
  | S fuel' => if (c mod 10 =? 0) && negb (c =? 0) then stripZeros fuel' (c / 10) (x + 1) else (c, x)
  end.

Definition shortest (m : positive) (e : Z) : Z * Z :=
  let vn := if 0 <=? e then Zpos m * 2 ^ e else Zpos m in
  let vd := if 0 <=? e then 1 else 2 ^ (- e) in
  let k0 := (Z.log2 vn - Z.log2 vd) * 30103 / 100000 - 1 in
  let k := pointFrom 4 vn vd k0 in
  let (c, x) := shortestFrom 17 m e vn vd k 1 in
  stripZeros 20 c x.

Fixpoint zeros (n : nat) : string :=
  match n with O => "" | S n' => String "0" (zeros n') end.

(** [%f] of the digits [c] with the point [x] places from their end *)
Definition fmtF (neg : bool) (c x : Z) : string :=
  (if neg then "-" else "") ++
  (if 0 <=? x then FormatUint c ++ zeros (Z.to_nat x)
   else
     let frac := FormatUint (c mod 10 ^ (- x)) in
     FormatUint (c / 10 ^ (- x)) ++ "." ++
     zeros (Z.to_nat (- x) - String.length frac) ++ frac).

Definition formatFloat64 (f : binary64) : string :=
  match f with
  | F_nan => "NaN"
  | F_inf neg => if neg then "-Inf" else "+Inf"
  | F_zero neg => if neg then "-0" else "0"
  | F_finite neg m e => let (c, x) := shortest m e in fmtF neg c x
  end.

(** *** [reflect]'s [float32] checks *)

(** [overflowFloat32(x)]: [math.MaxFloat32 < |x| && |x| <= math.MaxFloat64] *)
Definition overflowFloat32_64 (f : binary64) : bool :=
  match f with
  | F_finite _ m e =>
      if 104 <=? e then 2 ^ 24 - 1 <? Zpos m * 2 ^ (e - 104)
      else (2 ^ 24 - 1) * 2 ^ (104 - e) <? Zpos m
  | _ => false
  end.

(** [float64(float32(x))] *)
Definition toFloat32_64 (f : binary64) : binary64 :=
  match f with
  | F_finite neg m e =>
      match (if 0 <=? e then roundBinary 24 (-149) 128 (Zpos m * 2 ^ e) 1
             else roundBinary 24 (-149) 128 (Zpos m) (2 ^ (- e))) with
      | Some (M, ex) => mkFinite neg M ex
      | None => F_inf neg
      end
  | _ => f
  end.

Definition floatIsZero64 (f : binary64) : bool :=
  match f with F_zero _ => true | _ => false end.

#[export] Instance Binary64 : FloatOps := {|
  float64 := binary64;
  ParseFloat := parseFloat64;
  FormatFloat := formatFloat64;
  floatIsZero := floatIsZero64;
  floatZero := F_zero false;
  overflowFloat32 := overflowFloat32_64;
  toFloat32 := toFloat32_64
|}.

(** ** Wire values: [dynamodb.AttributeValue]

    A slice or map field is [None] when nil; a pointer field is [None] when
    nil.  The map [M] is an association list with distinct keys. *)
Module dynamodb.
Inductive AttributeValue := mkAV {
  B : option (list Z);
  BOOL : option bool;
  BS : option (list (list Z));
  L : option (list (option AttributeValue));
  M : option (list (string * option AttributeValue));
  N : option string;
  NS : option (list (option string));
  NULL : option bool;
  S : option string;
  SS : option (list (option string))
}.
End dynamodb.
Abbreviation AttributeValue := dynamodb.AttributeValue.
Abbreviation mkAV := dynamodb.mkAV.

(** [dynamodb.AttributeValue{}] *)
Definition emptyAV : AttributeValue :=
  mkAV None None None None None None None None None None.

(** [encodeNull] overwrites the whole value with [{NULL: &true}]. *)
Definition nullAV : AttributeValue :=
  mkAV None None None None None None None (Some true) None None.

Definition setB (av : AttributeValue) x :=
  mkAV x (dynamodb.BOOL av) (dynamodb.BS av) (dynamodb.L av) (dynamodb.M av) (dynamodb.N av)
       (dynamodb.NS av) (dynamodb.NULL av) (dynamodb.S av) (dynamodb.SS av).
Definition setBOOL (av : AttributeValue) x :=
  mkAV (dynamodb.B av) x (dynamodb.BS av) (dynamodb.L av) (dynamodb.M av) (dynamodb.N av)
       (dynamodb.NS av) (dynamodb.NULL av) (dynamodb.S av) (dynamodb.SS av).
Definition setBS (av : AttributeValue) x :=
  mkAV (dynamodb.B av) (dynamodb.BOOL av) x (dynamodb.L av) (dynamodb.M av) (dynamodb.N av)
       (dynamodb.NS av) (dynamodb.NULL av) (dynamodb.S av) (dynamodb.SS av).
Definition setL (av : AttributeValue) x :=
  mkAV (dynamodb.B av) (dynamodb.BOOL av) (dynamodb.BS av) x (dynamodb.M av) (dynamodb.N av)
       (dynamodb.NS av) (dynamodb.NULL av) (dynamodb.S av) (dynamodb.SS av).
Definition setM (av : AttributeValue) x :=
  mkAV (dynamodb.B av) (dynamodb.BOOL av) (dynamodb.BS av) (dynamodb.L av) x (dynamodb.N av)
       (dynamodb.NS av) (dynamodb.NULL av) (dynamodb.S av) (dynamodb.SS av).
Definition setN (av : AttributeValue) x :=
  mkAV (dynamodb.B av) (dynamodb.BOOL av) (dynamodb.BS av) (dynamodb.L av) (dynamodb.M av) x
       (dynamodb.NS av) (dynamodb.NULL av) (dynamodb.S av) (dynamodb.SS av).
Definition setNS (av : AttributeValue) x :=
  mkAV (dynamodb.B av) (dynamodb.BOOL av) (dynamodb.BS av) (dynamodb.L av) (dynamodb.M av)
       (dynamodb.N av) x (dynamodb.NULL av) (dynamodb.S av) (dynamodb.SS av).
Definition setS (av : AttributeValue) x :=
  mkAV (dynamodb.B av) (dynamodb.BOOL av) (dynamodb.BS av) (dynamodb.L av) (dynamodb.M av)
       (dynamodb.N av) (dynamodb.NS av) (dynamodb.NULL av) x (dynamodb.SS av).
Definition setSS (av : AttributeValue) x :=
  mkAV (dynamodb.B av) (dynamodb.BOOL av) (dynamodb.BS av) (dynamodb.L av) (dynamodb.M av)
       (dynamodb.N av) (dynamodb.NS av) (dynamodb.NULL av) (dynamodb.S av) x.

(** No container field of the wire value is present and empty. *)
Definition noEmptyContainer (av : AttributeValue) : Prop :=
  dynamodb.B av <> Some [] /\ dynamodb.BS av <> Some [] /\ dynamodb.L av <> Some []
  /\ dynamodb.M av <> Some [] /\ dynamodb.NS av <> Some [] /\ dynamodb.SS av <> Some [].

Definition isSome {A} (o : option A) : bool :=
  match o with Some _ => true | None => false end.

(** The elements of a possibly nil slice *)
Definition orNil {A} (o : option (list A)) : list A :=
  match o with Some l => l | None => [] end.

(** [len] of a possibly nil slice or map *)
Definition olen {A} (o : option (list A)) : nat :=
  match o with None => O | Some l => List.length l end.

(** [m[k] = v] on the association list *)
Fixpoint mapSet {A} (k : string) (v : A) (m : list (string * A)) : list (string * A) :=
  match m with
  | [] => [(k, v)]
  | (k', v') :: m' => if String.eqb k k' then (k, v) :: m' else (k', v') :: mapSet k v m'
  end.

(** [reflect.Kind] *)
Module reflect.
Inductive Kind :=
| Invalid | Bool | Int (k : IntKind) | Uint (k : UintKind) | Float32 | Float64
| String | Slice | Array | Map | Struct | Ptr | Interface | Chan | Func
| UnsafePointer.
End reflect.

Section Codec.
Context {FO : FloatOps}.

(** ** Native values *)

Inductive mapkey :=
| KeyString (s : string)
| KeyInt (k : IntKind) (z : Z)
| KeyUint (k : UintKind) (z : Z)
| KeyBool (b : bool).

(** A slice is nil or a backing array (its length is the capacity) with a
    length; an array is its elements; a map is nil or its entries. *)
Inductive value :=
| VBool (b : bool)
| VInt (k : IntKind) (z : Z)
| VUint (k : UintKind) (z : Z)
| VFloat32 (f : float64)
| VFloat64 (f : float64)
| VString (s : string)
| VSliceNil (e : rtype)
| VSlice (e : rtype) (arr : list value) (len : nat)
| VArray (e : rtype) (elems : list value)
| VMapNil (k e : rtype)
| VMap (k e : rtype) (entries : list (mapkey * value))
| VStruct (fields : list (field * value))
| VPtr (e : rtype) (p : option value)
| VIface (x : option value)
| VChan
| VFunc
| VUnsafePointer.

Definition kindOfType (t : rtype) : reflect.Kind :=
  match t with
  | TBool => reflect.Bool | TInt k => reflect.Int k | TUint k => reflect.Uint k
  | TFloat32 => reflect.Float32 | TFloat64 => reflect.Float64 | TString => reflect.String
  | TSlice _ => reflect.Slice | TArray _ _ => reflect.Array | TMap _ _ => reflect.Map
  | TStruct _ => reflect.Struct | TPtr _ => reflect.Ptr | TInterface => reflect.Interface
  | TChan => reflect.Chan | TFunc => reflect.Func | TUnsafePointer => reflect.UnsafePointer
  end.

(** [v.Kind()] of a valid [reflect.Value] *)
Definition kindOf (v : value) : reflect.Kind :=
  match v with
  | VBool _ => reflect.Bool | VInt k _ => reflect.Int k | VUint k _ => reflect.Uint k
  | VFloat32 _ => reflect.Float32 | VFloat64 _ => reflect.Float64 | VString _ => reflect.String
  | VSliceNil _ | VSlice _ _ _ => reflect.Slice
  | VArray _ _ => reflect.Array
  | VMapNil _ _ | VMap _ _ _ => reflect.Map
  | VStruct _ => reflect.Struct | VPtr _ _ => reflect.Ptr | VIface _ => reflect.Interface
  | VChan => reflect.Chan | VFunc => reflect.Func | VUnsafePointer => reflect.UnsafePointer
  end.

(** [v.Kind()] where the zero [reflect.Value] is [None] *)
Definition kindOfV (v : option value) : reflect.Kind :=
  match v with None => reflect.Invalid | Some x => kindOf x end.

Definition isPtrKind (k : reflect.Kind) : bool :=
  match k with reflect.Ptr => true | _ => false end.

(** [v.Type()] *)
Fixpoint typeOf (v : value) : rtype :=
  match v with
  | VBool _ => TBool | VInt k _ => TInt k | VUint k _ => TUint k
  | VFloat32 _ => TFloat32 | VFloat64 _ => TFloat64 | VString _ => TString
  | VSliceNil e | VSlice e _ _ => TSlice e
  | VArray e l => TArray (List.length l) e
  | VMapNil k e | VMap k e _ => TMap k e
  | VStruct fs => TStruct (map (fun fv => (fst fv, typeOf (snd fv))) fs)
  | VPtr e _ => TPtr e
  | VIface _ => TInterface
  | VChan => TChan | VFunc => TFunc | VUnsafePointer => TUnsafePointer
  end.

(** [reflect.Zero(t)] *)
Fixpoint Zero (t : rtype) : value :=
  match t with
  | TBool => VBool false
  | TInt k => VInt k 0
  | TUint k => VUint k 0
  | TFloat32 => VFloat32 floatZero
  | TFloat64 => VFloat64 floatZero
  | TString => VString ""
  | TSlice e => VSliceNil e
  | TArray n e => VArray e (repeat (Zero e) n)
  | TMap k e => VMapNil k e
  | TStruct fs => VStruct (map (fun ft => (fst ft, Zero (snd ft))) fs)
  | TPtr e => VPtr e None
  | TInterface => VIface None
  | TChan => VChan | TFunc => VFunc | TUnsafePointer => VUnsafePointer
  end.

(** [t.Name()]: the predeclared types are named, type literals are not. *)
Definition typeName (t : rtype) : string :=
  match t with
  | TBool => "bool"
  | TInt KInt => "int" | TInt KInt8 => "int8" | TInt KInt16 => "int16"
  | TInt KInt32 => "int32" | TInt KInt64 => "int64"
  | TUint KUint => "uint" | TUint KUint8 => "uint8" | TUint KUint16 => "uint16"
  | TUint KUint32 => "uint32" | TUint KUint64 => "uint64"
  | TUint KUintptr => "uintptr"
  | TFloat32 => "float32" | TFloat64 => "float64" | TString => "string"
  | TUnsafePointer => "Pointer"
  | _ => ""
  end.

(** [t.NumMethod()] *)
Definition NumMethod (t : rtype) : nat := O.

(** Widths; [int], [uint] and [uintptr] are 64 bits wide. *)
Definition intBits (k : IntKind) : Z :=
  match k with KInt8 => 8 | KInt16 => 16 | KInt32 => 32 | KInt | KInt64 => 64 end.
Definition uintBits (k : UintKind) : Z :=
  match k with KUint8 => 8 | KUint16 => 16 | KUint32 => 32 | _ => 64 end.

(** [v.OverflowInt(x)] and [v.OverflowUint(x)] for an [x] in the 64-bit
    range: [x] does not survive truncation to the kind's width. *)
Definition OverflowInt (k : IntKind) (x : Z) : bool :=
  negb ((- 2 ^ (intBits k - 1) <=? x) && (x <? 2 ^ (intBits k - 1))).
Definition OverflowUint (k : UintKind) (x : Z) : bool :=
  negb ((0 <=? x) && (x <? 2 ^ uintBits k)).

(** [v.Len()] and the elements [v.Index(0)] .. [v.Index(v.Len()-1)] of a
    slice or array. *)
Definition elemsOf (v : value) : list value :=
  match v with
  | VSlice _ arr len => firstn len arr
  | VArray _ l => l
  | _ => []
  end.

(** The byte content of a []byte or [N]byte value. *)
Definition byteOf (v : value) : Z :=
  match v with VUint _ z => z | _ => 0 end.

Definition isByteSlice (t : rtype) : bool :=
  match t with TSlice (TUint KUint8) => true | _ => false end.
Definition isByteSliceSlice (t : rtype) : bool :=
  match t with TSlice (TSlice (TUint KUint8)) => true | _ => false end.


(** ** encode.go *)

Record MarshalOptions := mkOptions { SupportJSONTags : bool }.

Record Encoder := mkEncoder {
  encOptions : MarshalOptions;
  NullEmptyString : bool
}.

(** [NewEncoder()] *)
Definition NewEncoder : Encoder := mkEncoder (mkOptions true) true.

(** [valueElem]: follow pointers and interfaces to the end; the zero
    [reflect.Value] (kind [Invalid]) is [None]. *)
Fixpoint valueElem (v : value) : option value :=
  match v with
  | VPtr _ (Some x) | VIface (Some x) => valueElem x
  | VPtr _ None | VIface None => None
  | _ => Some v
  end.

Definition emptyValue (v : option value) : bool :=
  match v with
  | None => false
  | Some x =>
      match x with
      | VArray _ l => Nat.eqb (List.length l) 0
      | VMapNil _ _ | VSliceNil _ => true
      | VMap _ _ es => Nat.eqb (List.length es) 0
      | VSlice _ _ len => Nat.eqb len 0
      | VString s => Nat.eqb (String.length s) 0
      | VBool b => negb b
      | VInt _ z => z =? 0
      | VUint _ z => z =? 0
      | VFloat32 f | VFloat64 f => floatIsZero f
      | VIface o | VPtr _ o => negb (isSome o)
      | _ => false
      end
  end.

(** [tryMarshaler]: [v.Type().NumMethod() == 0] for every modelled type, so
    the answer is always [false, nil]. *)
Definition tryMarshaler (av : AttributeValue) (v : value) : bool := false.

(** [keepOrOmitEmpty(omitEmpty, av, err)], on the result of the [encode]
    call that filled [av]: [None] is [skip = true], [Some av] is
    [skip = false] with the element the caller goes on to store. *)
Definition keepOrOmitEmpty (omitEmpty : bool) (r : outcome AttributeValue)
  : outcome (option AttributeValue) :=
  match r with
  | Err (unsupportedMarshalTypeError _) => Ok None
  | Err e => Err e
  | Ok av => if isSome (dynamodb.NULL av) && omitEmpty then Ok None else Ok (Some av)
  | Panic s => Panic s
  | OutOfFuel => OutOfFuel
  end.

(** [fmt.Sprint(key.Interface())] *)
Definition Sprint (k : mapkey) : string :=
  match k with
  | KeyString s => s
  | KeyInt _ z => FormatInt z
  | KeyUint _ z => FormatUint z
  | KeyBool b => if b then "true" else "false"
  end.

Definition encodeNumber (av : AttributeValue) (v : value) : outcome AttributeValue :=
  if tryMarshaler av v then Ok av else
  match v with
  | VInt _ z => Ok (setN av (Some (FormatInt z)))
  | VUint KUintptr _ => Err (unsupportedMarshalTypeError (typeOf v))
  | VUint _ z => Ok (setN av (Some (FormatUint z)))
  | VFloat32 f | VFloat64 f => Ok (setN av (Some (FormatFloat f)))
  | _ => Err (unsupportedMarshalTypeError (typeOf v))
  end.

Definition encodeString (e : Encoder) (av : AttributeValue) (v : value)
  : outcome AttributeValue :=
  if tryMarshaler av v then Ok av else
  match v with
  | VString typed =>
      if Nat.eqb (String.length typed) 0 && NullEmptyString e then Ok nullAV
      else Ok (setS av (Some typed))
  | _ => Err (unsupportedMarshalTypeError (typeOf v))
  end.

Definition encodeScalar (e : Encoder) (av : AttributeValue) (v : value) (fieldTag : tag)
  : outcome AttributeValue :=
  match v with
  | VBool typed => Ok (setBOOL av (Some typed))
  | VString _ => encodeString e av v
  | _ =>
      av' <- encodeNumber av v ;;
      if AsString fieldTag && negb (isSome (dynamodb.NULL av')) && isSome (dynamodb.N av')
      then Ok (setN (setS av' (dynamodb.N av')) None)
      else Ok av'
  end.

(** The methods that recurse take the recursive call [enc], which is
    [e.encode] on a fresh [&dynamodb.AttributeValue{}]. *)
Section EncodeLoops.
Variable enc : value -> tag -> outcome AttributeValue.

Fixpoint encodeStructFields (fields : list (field * value))
    (m : list (string * option AttributeValue))
  : outcome (list (string * option AttributeValue)) :=
  match fields with
  | [] => Ok m
  | (f, fv) :: rest =>
      if String.eqb (Name f) "" then Err (InvalidMarshalError "map key cannot be empty")
      else
        r <- keepOrOmitEmpty (OmitEmpty (ftag f)) (enc fv (ftag f)) ;;
        match r with
        | None => encodeStructFields rest m
        | Some elem => encodeStructFields rest (mapSet (Name f) (Some elem) m)
        end
  end.

Definition encodeStruct (av : AttributeValue) (fields : list (field * value))
  : outcome AttributeValue :=
  m <- encodeStructFields fields [] ;;
  if Nat.eqb (List.length m) 0 then Ok nullAV else Ok (setM av (Some m)).

Fixpoint encodeMapEntries (fieldTag : tag) (entries : list (mapkey * value))
    (m : list (string * option AttributeValue))
  : outcome (list (string * option AttributeValue)) :=
  match entries with
  | [] => Ok m
  | (key, elemVal) :: rest =>
      let keyName := Sprint key in
      if String.eqb keyName "" then Err (InvalidMarshalError "map key cannot be empty")
      else
        r <- keepOrOmitEmpty (OmitEmptyElem fieldTag) (enc elemVal tag0) ;;
        match r with
        | None => encodeMapEntries fieldTag rest m
        | Some elem => encodeMapEntries fieldTag rest (mapSet keyName (Some elem) m)
        end
  end.

Definition encodeMap (av : AttributeValue) (v : value) (fieldTag : tag)
  : outcome AttributeValue :=
  let entries := match v with VMap _ _ es => es | _ => [] end in
  m <- encodeMapEntries fieldTag entries [] ;;
  if Nat.eqb (List.length m) 0 then Ok nullAV else Ok (setM av (Some m)).

(** [encodeList]: [elemFn] appends to the set or list under construction,
    which is threaded as [av]; the result is the count and that value. *)
Fixpoint encodeListLoop (fieldTag : tag)
    (elemFn : AttributeValue -> AttributeValue -> outcome AttributeValue)
    (elems : list value) (count : nat) (av : AttributeValue)
  : outcome (nat * AttributeValue) :=
  match elems with
  | [] => Ok (count, av)
  | x :: rest =>
      r <- keepOrOmitEmpty (OmitEmptyElem fieldTag)
             (enc x (mkTag (OmitEmptyElem fieldTag) false false false false false)) ;;
      match r with
      | None => encodeListLoop fieldTag elemFn rest count av
      | Some elem =>
          av' <- elemFn av elem ;;
          encodeListLoop fieldTag elemFn rest (Datatypes.S count) av'
      end
  end.

Definition encodeList (v : value) (fieldTag : tag)
    (elemFn : AttributeValue -> AttributeValue -> outcome AttributeValue)
    (av : AttributeValue) : outcome (nat * AttributeValue) :=
  encodeListLoop fieldTag elemFn (elemsOf v) O av.

(** The encodings of the elements that element-level omission keeps, in
    input order: the arguments [encodeList] passes to [elemFn]. *)
Fixpoint keptElems (fieldTag : tag) (elems : list value) : outcome (list AttributeValue) :=
  match elems with
  | [] => Ok []
  | x :: rest =>
      r <- keepOrOmitEmpty (OmitEmptyElem fieldTag)
             (enc x (mkTag (OmitEmptyElem fieldTag) false false false false false)) ;;
      ks <- keptElems fieldTag rest ;;
      Ok (match r with None => ks | Some elem => elem :: ks end)
  end.

(** [elemFn] applied to a list of kept encodings in turn *)
Fixpoint appendAll (elemFn : AttributeValue -> AttributeValue -> outcome AttributeValue)
    (ks : list AttributeValue) (count : nat) (av : AttributeValue)
  : outcome (nat * AttributeValue) :=
  match ks with
  | [] => Ok (count, av)
  | k :: ks' => av' <- elemFn av k ;; appendAll elemFn ks' (Datatypes.S count) av'
  end.

Definition binSetMsg := "binary set must only contain non-nil byte slices".
Definition numSetMsg := "number set must only contain non-nil string numbers".
Definition strSetMsg := "string set must only contain non-nil strings".

Definition elemFnBS (av elem : AttributeValue) : outcome AttributeValue :=
  match dynamodb.B elem with
  | None => Err (InvalidMarshalError binSetMsg)
  | Some b => Ok (setBS av (Some (orNil (dynamodb.BS av) ++ [b])%list))
  end.
Definition elemFnNS (av elem : AttributeValue) : outcome AttributeValue :=
  match dynamodb.N elem with
  | None => Err (InvalidMarshalError numSetMsg)
  | Some n => Ok (setNS av (Some (orNil (dynamodb.NS av) ++ [Some n])%list))
  end.
Definition elemFnSS (av elem : AttributeValue) : outcome AttributeValue :=
  match dynamodb.S elem with
  | None => Err (InvalidMarshalError strSetMsg)
  | Some s => Ok (setSS av (Some (orNil (dynamodb.SS av) ++ [Some s])%list))
  end.
Definition elemFnL (av elem : AttributeValue) : outcome AttributeValue :=
  Ok (setL av (Some (orNil (dynamodb.L av) ++ [Some elem])%list)).

(** What each closure appends, when it appends *)
Definition pickN (elem : AttributeValue) : option (option string) :=
  match dynamodb.N elem with Some n => Some (Some n) | None => None end.
Definition pickS (elem : AttributeValue) : option (option string) :=
  match dynamodb.S elem with Some n => Some (Some n) | None => None end.
Definition pickL (elem : AttributeValue) : option (option AttributeValue) :=
  Some (Some elem).

Definition encodeSlice (av : AttributeValue) (v : value) (fieldTag : tag)
  : outcome AttributeValue :=
  if isByteSlice (typeOf v) then
    let typed := map byteOf (elemsOf v) in
    if Nat.eqb (List.length typed) 0 then Ok nullAV
    else Ok (setB av (Some typed))
  else
    r <- (if AsBinSet fieldTag || isByteSliceSlice (typeOf v) then
            encodeList v fieldTag elemFnBS (setBS av (Some []))
          else if AsNumSet fieldTag then
            encodeList v fieldTag elemFnNS (setNS av (Some []))
          else if AsStrSet fieldTag then
            encodeList v fieldTag elemFnSS (setSS av (Some []))
          else
            encodeList v fieldTag elemFnL (setL av (Some []))) ;;
    if Nat.eqb (fst r) 0 then Ok nullAV else Ok (snd r).

End EncodeLoops.

Fixpoint encode (fuel : nat) (e : Encoder) (av : AttributeValue) (v : value) (fieldTag : tag)
  : outcome AttributeValue :=
  match fuel with
  | O => OutOfFuel
  | Datatypes.S n =>
      let enc := encode n e emptyAV in
      let v := valueElem v in
      if match v with Some x => tryMarshaler av x | None => false end then Ok av
      else if OmitEmpty fieldTag && emptyValue v then Ok nullAV
      else
        match v with
        | None => Ok nullAV
        | Some x =>
            match kindOf x with
            | reflect.Struct =>
                encodeStruct enc av (match x with VStruct fs => fs | _ => [] end)
            | reflect.Map => encodeMap enc av x fieldTag
            | reflect.Slice | reflect.Array => encodeSlice enc av x fieldTag
            | reflect.Chan | reflect.Func | reflect.UnsafePointer => Ok av
            | _ => encodeScalar e av x fieldTag
            end
        end
  end.

(** [Encoder.Encode] *)
Definition Encode (fuel : nat) (e : Encoder) (v : value) : outcome AttributeValue :=
  encode fuel e emptyAV v tag0.

(** ** decode.go

    A [reflect.Value] that the decoder writes through is a pair of the value
    held at the location and the flag [canSet] ([v.CanSet()], which for the
    exported locations modelled here is also [v.CanAddr()]).  A decoding
    function returns the value the location holds afterwards. *)

Record Decoder := mkDecoder { decOptions : MarshalOptions }.

(** [NewDecoder()] *)
Definition NewDecoder : Decoder := mkDecoder (mkOptions true).

(** [v.Set(x)] and the other setters panic on a location that is not
    settable. *)
Definition setv (canSet : bool) (x : value) : outcome value :=
  if canSet then Ok x else Panic "reflect: reflect.Value.Set using unaddressable value".

(** [*p] *)
Definition deref {A} (p : option A) : outcome A :=
  match p with
  | Some x => Ok x
  | None => Panic "invalid memory address or nil pointer dereference"
  end.

(** The pointers and interfaces [indirect] has walked through, outermost
    first; [plug] puts the value of the final location back under them. *)
Inductive frame := FPtr (e : rtype) | FIface.

Fixpoint plug (fs : list frame) (x : value) : value :=
  match fs with
  | [] => x
  | FPtr e :: fs' => VPtr e (Some (plug fs' x))
  | FIface :: fs' => VIface (Some (plug fs' x))
  end.

(** The loop of [indirect] on the settable zero value of type [t] when not
    decoding null: every nil pointer met is allocated with [reflect.New]. *)
Fixpoint indirectNew (t : rtype) : list frame * value :=
  match t with
  | TPtr e => let (fs, x) := indirectNew e in (FPtr e :: fs, x)
  | _ => ([], Zero t)
  end.

(** The loop of [indirect]; one call is one iteration. *)
Fixpoint indirectLoop (v : value) (canSet decodingNull : bool)
  : outcome (list frame * value * bool) :=
  match v with
  | VIface (Some (VPtr t (Some y) as e)) =>
      (* e.Kind() == Ptr && !e.IsNil() *)
      if negb decodingNull || isPtrKind (kindOf y) then
        (* v = e; continue *)
        r <- indirectLoop e false decodingNull ;;
        let '(fs, x, cs) := r in Ok (FIface :: fs, x, cs)
      else Ok ([], v, canSet)
  | VPtr t p =>
      if negb (isPtrKind (kindOfV p)) && decodingNull && canSet then Ok ([], v, canSet)
      else
        match p with
        | None =>
            (* v.Set(reflect.New(v.Type().Elem())); here decodingNull is
               false whenever canSet holds *)
            _ <- setv canSet v ;;
            let (fs, x) := indirectNew t in Ok (FPtr t :: fs, x, true)
        | Some y =>
            r <- indirectLoop y true decodingNull ;;
            let '(fs, x, cs) := r in Ok (FPtr t :: fs, x, cs)
        end
  | _ => Ok ([], v, canSet)
  end.

(** [indirect]: a named, addressable, non-pointer value is first replaced by
    its address, which the loop then follows back to the value.  No
    [Unmarshaler] is ever returned, the modelled types having no methods. *)
Definition indirect (v : value) (canSet decodingNull : bool)
  : outcome (list frame * value * bool) :=
  if negb (isPtrKind (kindOf v)) && negb (String.eqb (typeName (typeOf v)) "") && canSet then
    r <- indirectLoop (VPtr (typeOf v) (Some v)) false decodingNull ;;
    match r with
    | (_ :: fs, x, cs) => Ok (fs, x, cs)
    | ([], x, cs) => Ok ([], v, canSet)
    end
  else indirectLoop v canSet decodingNull.

Definition bytesValue (b : list Z) : list value := map (VUint KUint8) b.

Definition decodeBinary (b : list Z) (v : value) (canSet : bool) : outcome value :=
  match kindOf v with
  | reflect.Interface =>
      setv canSet (VIface (Some (VSlice (TUint KUint8) (bytesValue b) (List.length b))))
  | _ =>
      if isByteSlice (typeOf v) then
        match v with
        | VSlice e arr len =>
            if Nat.ltb (List.length arr) (List.length b) then
              setv canSet (VSlice e (bytesValue b) (List.length b))
            else if negb (Nat.eqb len (List.length b)) then
              setv canSet (VSlice e (bytesValue b ++ skipn (List.length b) arr)%list (List.length b))
            else Ok (VSlice e (bytesValue b ++ skipn (List.length b) arr)%list len)
        | _ => setv canSet (VSlice (TUint KUint8) (bytesValue b) (List.length b))
        end
      else
        match v with
        | VArray (TUint KUint8) l =>
            (* reflect.Copy(v, reflect.ValueOf(b)) *)
            setv canSet (VArray (TUint KUint8)
                           (firstn (List.length l) (bytesValue b) ++ skipn (List.length b) l)%list)
        | _ => Err (UnmarshalTypeError "binary" (typeOf v))
        end
  end.

Definition decodeBool (b : bool) (v : value) (canSet : bool) : outcome value :=
  match kindOf v with
  | reflect.Bool => setv canSet (VBool b)
  | reflect.Interface => setv canSet (VIface (Some (VBool b)))
  | _ => Err (UnmarshalTypeError "bool" (typeOf v))
  end.

(** [int(i)] and [uint(u)] are the identity, [int] being 64 bits wide. *)
Definition decodeNumberToInterface (n : string) : outcome value :=
  match ParseInt n with
  | inl i => Ok (VInt KInt i)
  | inr _ =>
      match ParseUint n with
      | inl u => Ok (VUint KUint u)
      | inr _ =>
          match ParseFloat n with
          | inl f => Ok (VFloat64 f)
          | inr k => Err (NumError "ParseFloat" k)
          end
      end
  end.

(** [decodeNumber].  In the three numeric cases the code returns [err] both
    when the parse failed and when the value overflows the target; in the
    second case [err] is nil, so the call succeeds and the target is left
    as it was. *)
Definition decodeNumber (n : option string) (v : value) (canSet : bool) : outcome value :=
  match kindOf v with
  | reflect.Interface =>
      s <- deref n ;;
      i <- decodeNumberToInterface s ;;
      setv canSet (VIface (Some i))
  | reflect.Int k =>
      s <- deref n ;;
      match ParseInt s with
      | inr e => Err (NumError "ParseInt" e)
      | inl i => if OverflowInt k i then Ok v else setv canSet (VInt k i)
      end
  | reflect.Uint KUintptr => Err (UnmarshalTypeError "number" (typeOf v))
  | reflect.Uint k =>
      s <- deref n ;;
      match ParseUint s with
      | inr e => Err (NumError "ParseUint" e)
      | inl i => if OverflowUint k i then Ok v else setv canSet (VUint k i)
      end
  | reflect.Float32 =>
      s <- deref n ;;
      match ParseFloat s with
      | inr e => Err (NumError "ParseFloat" e)
      | inl i => if overflowFloat32 i then Ok v else setv canSet (VFloat32 (toFloat32 i))
      end
  | reflect.Float64 =>
      s <- deref n ;;
      match ParseFloat s with
      | inr e => Err (NumError "ParseFloat" e)
      | inl i => setv canSet (VFloat64 i)
      end
  | _ => Err (UnmarshalTypeError "number" (typeOf v))
  end.

Definition decodeNull (v : value) (canSet : bool) : outcome value :=
  if canSet then Ok (Zero (typeOf v)) else Ok v.

Definition decodeString (s : option string) (v : value) (canSet : bool) (fieldTag : tag)
  : outcome value :=
  if AsString fieldTag then decodeNumber s v canSet
  else
    match kindOf v with
    | reflect.String => x <- deref s ;; setv canSet (VString x)
    | reflect.Interface => x <- deref s ;; setv canSet (VIface (Some (VString x)))
    | _ => Err (UnmarshalTypeError "string" (typeOf v))
    end.

(** *** Slices and arrays through [reflect] *)

Definition capOf (v : value) : nat :=
  match v with
  | VSlice _ arr _ => List.length arr
  | VArray _ l => List.length l
  | _ => O
  end.

Definition sliceIsNil (v : value) : bool :=
  match v with VSliceNil _ => true | _ => false end.

Definition elemType (t : rtype) : rtype :=
  match t with
  | TSlice e | TArray _ e | TMap _ e | TPtr e => e
  | _ => t
  end.

(** [reflect.MakeSlice(t, len, cap)] *)
Definition MakeSlice (t : rtype) (len cap : nat) : value :=
  VSlice (elemType t) (repeat (Zero (elemType t)) cap) len.

(** [v.SetLen(n)]: "It panics if v's Kind is not Slice or if n is negative
    or greater than the capacity of the slice" (package reflect). *)
Definition SetLen (v : value) (canSet : bool) (n : nat) : outcome value :=
  match v with
  | VSlice e arr _ =>
      if Nat.leb n (List.length arr) then setv canSet (VSlice e arr n)
      else Panic "reflect: slice length out of range in SetLen"
  | VSliceNil e =>
      if Nat.eqb n 0 then setv canSet v
      else Panic "reflect: slice length out of range in SetLen"
  | _ => Panic "reflect: call of reflect.Value.SetLen on array Value"
  end.

(** [v.Index(i)] *)
Definition Index (v : value) (i : nat) : outcome value :=
  match nth_error (elemsOf v) i with
  | Some x => Ok x
  | None => Panic "reflect: slice index out of range"
  end.

Fixpoint updateNth {A} (l : list A) (i : nat) (x : A) : list A :=
  match l, i with
  | [], _ => []
  | _ :: l', O => x :: l'
  | y :: l', Datatypes.S i' => y :: updateNth l' i' x
  end.

(** The effect on [v] of writing [x] through [v.Index(i)] *)
Definition setIndex (v : value) (i : nat) (x : value) : value :=
  match v with
  | VSlice e arr len => VSlice e (updateNth arr i x) len
  | VArray e l => VArray e (updateNth l i x)
  | _ => v
  end.

(** The [case reflect.Slice] prelude of the set and list decoders:
    "Make room for the slice elements if needed". *)
Definition makeRoom (v : value) (canSet : bool) (n : nat) : outcome value :=
  if sliceIsNil v || Nat.ltb (capOf v) n then setv canSet (MakeSlice (typeOf v) 0 n)
  else Ok v.

(** [for i := 0; i < v.Cap() && i < n; i++ { v.SetLen(i + 1); ... }] with
    [decElem i x] the effect of the body on the element [x = v.Index(i)];
    [todo] counts the iterations left. *)
Fixpoint sliceLoop (decElem : nat -> value -> outcome value) (todo i : nat)
    (v : value) (canSet : bool) : outcome value :=
  match todo with
  | O => Ok v
  | Datatypes.S todo' =>
      v1 <- SetLen v canSet (i + 1) ;;
      x <- Index v1 i ;;
      x' <- decElem i x ;;
      sliceLoop decElem todo' (i + 1) (setIndex v1 i x') canSet
  end.

Fixpoint mapOutcome {A C} (f : A -> outcome C) (l : list A) : outcome (list C) :=
  match l with
  | [] => Ok []
  | a :: l' => c <- f a ;; cs <- mapOutcome f l' ;; Ok (c :: cs)
  end.

(** The body of the set loops: [indirect(v.Index(i), false)], then the
    scalar decoder on the resolved element. *)
Definition decodeSetElem (decScalar : value -> bool -> outcome value) (x : value)
  : outcome value :=
  r <- indirect x true false ;;
  let '(fs, elem, cs) := r in
  y <- decScalar elem cs ;;
  Ok (plug fs y).

Definition decodeBinarySet (bs : list (list Z)) (v : value) (canSet : bool) : outcome value :=
  let n := List.length bs in
  match kindOf v with
  | reflect.Slice =>
      v1 <- makeRoom v canSet n ;;
      sliceLoop (fun i x => decodeSetElem (decodeBinary (nth i bs [])) x)
                (Nat.min (capOf v1) n) O v1 canSet
  | reflect.Array =>
      sliceLoop (fun i x => decodeSetElem (decodeBinary (nth i bs [])) x)
                (Nat.min (capOf v) n) O v canSet
  | reflect.Interface =>
      set <- mapOutcome (fun b => decodeBinary b (Zero (TSlice (TUint KUint8))) true) bs ;;
      setv canSet (VIface (Some (VSlice (TSlice (TUint KUint8)) set n)))
  | _ => Err (UnmarshalTypeError "binary set" (typeOf v))
  end.

Definition decodeNumberSet (ns : list (option string)) (v : value) (canSet : bool)
  : outcome value :=
  let n := List.length ns in
  match kindOf v with
  | reflect.Slice =>
      v1 <- makeRoom v canSet n ;;
      sliceLoop (fun i x => decodeSetElem (decodeNumber (nth i ns None)) x)
                (Nat.min (capOf v1) n) O v1 canSet
  | reflect.Array =>
      sliceLoop (fun i x => decodeSetElem (decodeNumber (nth i ns None)) x)
                (Nat.min (capOf v) n) O v canSet
  | reflect.Interface =>
      set <- mapOutcome (fun s => decodeNumber s (Zero TInterface) true) ns ;;
      setv canSet (VIface (Some (VSlice TInterface set n)))
  | _ => Err (UnmarshalTypeError "number set" (typeOf v))
  end.

Definition decodeStringSet (ss : list (option string)) (v : value) (canSet : bool)
  : outcome value :=
  let n := List.length ss in
  match kindOf v with
  | reflect.Slice =>
      v1 <- makeRoom v canSet n ;;
      sliceLoop (fun i x => decodeSetElem (fun e c => decodeString (nth i ss None) e c tag0) x)
                (Nat.min (capOf v1) n) O v1 canSet
  | reflect.Array =>
      sliceLoop (fun i x => decodeSetElem (fun e c => decodeString (nth i ss None) e c tag0) x)
                (Nat.min (capOf v) n) O v canSet
  | reflect.Interface =>
      set <- mapOutcome (fun s => decodeString s (Zero TString) true tag0) ss ;;
      setv canSet (VIface (Some (VSlice TString set n)))
  | _ => Err (UnmarshalTypeError "string set" (typeOf v))
  end.

(** *** Lists and maps: the methods that call [decode] back *)

Definition mapkeyEqb (a b : mapkey) : bool :=
  match a, b with
  | KeyString x, KeyString y => String.eqb x y
  | KeyInt _ x, KeyInt _ y => x =? y
  | KeyUint _ x, KeyUint _ y => x =? y
  | KeyBool x, KeyBool y => Bool.eqb x y
  | _, _ => false
  end.

(** [v.SetMapIndex(key, elem)] *)
Fixpoint SetMapIndex (m : list (mapkey * value)) (key : mapkey) (elem : value)
  : list (mapkey * value) :=
  match m with
  | [] => [(key, elem)]
  | (k, x) :: m' =>
      if mapkeyEqb key k then (key, elem) :: m' else (k, x) :: SetMapIndex m' key elem
  end.

(** Modelled from the spec: [fieldByName] (field.go) is not part of the
    sources at hand; the wire key is matched against the resolved field
    names exactly, and the position of the first match is returned. *)
Fixpoint fieldByName (fields : list (field * value)) (name : string) : option nat :=
  match fields with
  | [] => None
  | (f, _) :: rest =>
      if String.eqb (Name f) name then Some O
      else match fieldByName rest name with
           | Some i => Some (Datatypes.S i)
           | None => None
           end
  end.

Section DecodeLoops.
Variable dec : option AttributeValue -> value -> bool -> tag -> outcome value.

Definition decodeList (avList : list (option AttributeValue)) (v : value) (canSet : bool)
  : outcome value :=
  let n := List.length avList in
  match kindOf v with
  | reflect.Slice =>
      v1 <- makeRoom v canSet n ;;
      sliceLoop (fun i x => dec (nth i avList None) x true tag0)
                (Nat.min (capOf v1) n) O v1 canSet
  | reflect.Array =>
      sliceLoop (fun i x => dec (nth i avList None) x true tag0)
                (Nat.min (capOf v) n) O v canSet
  | reflect.Interface =>
      s <- mapOutcome (fun av => dec av (Zero TInterface) true tag0) avList ;;
      setv canSet (VIface (Some (VSlice TInterface s n)))
  | _ => Err (UnmarshalTypeError "list" (typeOf v))
  end.

(** [for k, av := range avMap] over a map target: every element is decoded
    into a fresh [reflect.New(v.Type().Elem()).Elem()], the result of
    [v.MapIndex] never being addressable. *)
Fixpoint decodeMapEntries (e : rtype) (avMap : list (string * option AttributeValue))
    (m : list (mapkey * value)) : outcome (list (mapkey * value)) :=
  match avMap with
  | [] => Ok m
  | (k, av) :: rest =>
      elem <- dec av (Zero e) true tag0 ;;
      decodeMapEntries e rest (SetMapIndex m (KeyString k) elem)
  end.

(** [for k, av := range avMap] over a struct target *)
Fixpoint decodeStructFields (avMap : list (string * option AttributeValue))
    (fields : list (field * value)) (canSet : bool) : outcome (list (field * value)) :=
  match avMap with
  | [] => Ok fields
  | (k, av) :: rest =>
      match fieldByName fields k with
      | Some i =>
          match nth_error fields i with
          | Some (f, fv) =>
              fv' <- dec av fv canSet (ftag f) ;;
              decodeStructFields rest (updateNth fields i (f, fv')) canSet
          | None => decodeStructFields rest fields canSet
          end
      | None => decodeStructFields rest fields canSet
      end
  end.

Definition decodeMap (avMap : list (string * option AttributeValue)) (v : value)
    (canSet : bool) : outcome value :=
  match v with
  | VMapNil k e =>
      match kindOfType k with
      | reflect.String =>
          (* v.Set(reflect.MakeMap(t)) *)
          _ <- setv canSet v ;;
          m' <- decodeMapEntries e avMap [] ;;
          Ok (VMap k e m')
      | _ => Err (UnmarshalTypeError "map string key" k)
      end
  | VMap k e m =>
      match kindOfType k with
      | reflect.String =>
          m' <- decodeMapEntries e avMap m ;;
          Ok (VMap k e m')
      | _ => Err (UnmarshalTypeError "map string key" k)
      end
  | VStruct fields =>
      fields' <- decodeStructFields avMap fields canSet ;;
      Ok (VStruct fields')
  | VIface _ =>
      _ <- setv canSet v ;;
      m' <- decodeMapEntries TInterface avMap [] ;;
      Ok (VIface (Some (VMap TString TInterface m')))
  | _ => Err (UnmarshalTypeError "map" (typeOf v))
  end.

End DecodeLoops.

(** Every variant field of [av] is empty or unset: no case of the switch in
    [decode] applies and [NULL] is nil. *)
Definition allEmpty (av : AttributeValue) : bool :=
  Nat.eqb (olen (dynamodb.B av)) 0 && negb (isSome (dynamodb.BOOL av))
  && Nat.eqb (olen (dynamodb.BS av)) 0 && Nat.eqb (olen (dynamodb.L av)) 0
  && Nat.eqb (olen (dynamodb.M av)) 0 && negb (isSome (dynamodb.N av))
  && Nat.eqb (olen (dynamodb.NS av)) 0 && negb (isSome (dynamodb.NULL av))
  && negb (isSome (dynamodb.S av)) && Nat.eqb (olen (dynamodb.SS av)) 0.

(** The switch of [decode] on the resolved target *)
Definition decodeSwitch (dec : option AttributeValue -> value -> bool -> tag -> outcome value)
    (av : AttributeValue) (v : value) (canSet : bool) (fieldTag : tag) : outcome value :=
  if negb (Nat.eqb (olen (dynamodb.B av)) 0) then decodeBinary (orNil (dynamodb.B av)) v canSet
  else match dynamodb.BOOL av with
  | Some b => decodeBool b v canSet
  | None =>
  if negb (Nat.eqb (olen (dynamodb.BS av)) 0) then decodeBinarySet (orNil (dynamodb.BS av)) v canSet
  else if negb (Nat.eqb (olen (dynamodb.L av)) 0) then decodeList dec (orNil (dynamodb.L av)) v canSet
  else if negb (Nat.eqb (olen (dynamodb.M av)) 0) then decodeMap dec (orNil (dynamodb.M av)) v canSet
  else if isSome (dynamodb.N av) then decodeNumber (dynamodb.N av) v canSet
  else if negb (Nat.eqb (olen (dynamodb.NS av)) 0) then decodeNumberSet (orNil (dynamodb.NS av)) v canSet
  else if isSome (dynamodb.S av) then decodeString (dynamodb.S av) v canSet fieldTag
  else if negb (Nat.eqb (olen (dynamodb.SS av)) 0) then decodeStringSet (orNil (dynamodb.SS av)) v canSet
  else Ok v
  end.

Definition isNullAV (av : option AttributeValue) : bool :=
  match av with
  | None => true
  | Some a => isSome (dynamodb.NULL a)
  end.

Fixpoint decode (fuel : nat) (d : Decoder) (av : option AttributeValue) (v : value)
    (canSet : bool) (fieldTag : tag) : outcome value :=
  match fuel with
  | O => OutOfFuel
  | Datatypes.S n =>
      if isNullAV av then
        r <- indirect v canSet true ;;
        let '(fs, x, cs) := r in
        x' <- decodeNull x cs ;;
        Ok (plug fs x')
      else
        r <- indirect v canSet false ;;
        let '(fs, x, cs) := r in
        x' <- decodeSwitch (decode n d) (match av with Some a => a | None => emptyAV end)
                x cs fieldTag ;;
        Ok (plug fs x')
  end.

(** [Decoder.Decode]: [out] must be a non-nil pointer; the result is [out]
    with what it points to after the call. *)
Definition Decode (fuel : nat) (d : Decoder) (av : option AttributeValue) (out : value)
  : outcome value :=
  match out with
  | VPtr _ (Some _) => decode fuel d av out false tag0
  | _ => Err InvalidUnmarshalError
  end.

(** ** The values that survive a round trip

    [nonNull e v]: the encoding of [v] is not wire null.  [lossless e v]: the
    shapes for which decoding the encoding of [v] into a zero target gives
    [v] back:
    - booleans, integers within the range of their kind (uintptr apart,
      which does not encode), floats that [ParseFloat] reads back from what
      [FormatFloat] prints, strings;
    - nil slices and non-empty slices without spare capacity: lists, byte
      slices, slices of non-empty byte slices; empty arrays;
    - nil maps and non-empty maps with distinct, non-empty string keys;
    - nil pointers and pointers to a value that does not encode as null;
    - nil interfaces and interfaces that hold a [generic] value that does
      not encode as null;
    - records with distinct, non-empty field names.  A field carries no
      option, or [string] on a number, or [numberset] on a slice of numbers,
      or [stringset] on a slice of strings, or [binaryset] on a slice of
      byte slices; and besides any of these [omitempty], provided that the
      value is the zero value of its type whenever the field is omitted. *)

Section AllOf.
Context {A : Type}.
Variable P : A -> Prop.
Fixpoint All (l : list A) : Prop :=
  match l with
  | [] => True
  | x :: l' => P x /\ All l'
  end.
End AllOf.

Fixpoint nonNull (e : Encoder) (v : value) : bool :=
  match v with
  | VBool _ | VInt _ _ | VUint _ _ | VFloat32 _ | VFloat64 _ => true
  | VString s => negb (Nat.eqb (String.length s) 0 && NullEmptyString e)
  | VSlice _ _ len => negb (Nat.eqb len 0)
  | VMap _ _ es => negb (Nat.eqb (List.length es) 0)
  | VStruct fs =>
      (* some field leaves an entry *)
      existsb (fun fv => negb (OmitEmpty (ftag (fst fv)))
                         || (negb (emptyValue (valueElem (snd fv))) && nonNull e (snd fv))) fs
  | VPtr _ (Some x) | VIface (Some x) => nonNull e x
  | _ => false
  end.

(** The field [fv] of a record leaves an entry in the wire map: it has no
    [omitempty] option, or its value is neither empty nor encoded as null. *)
Definition keepsEntry (e : Encoder) (fv : field * value) : bool :=
  negb (OmitEmpty (ftag (fst fv)))
  || (negb (emptyValue (valueElem (snd fv))) && nonNull e (snd fv)).

(** The tags [`dynamodbav:",numberset"`], [`dynamodbav:",stringset"`],
    [`dynamodbav:",binaryset"`] and [`dynamodbav:",string"`] *)
Definition numSetTag : tag := mkTag false false false false true false.
Definition strSetTag : tag := mkTag false false false false false true.
Definition binSetTag : tag := mkTag false false false true false false.
Definition asStringTag : tag := mkTag false false true false false false.

(** A tag without its [omitempty] option *)
Definition withoutOmitEmpty (t : tag) : tag :=
  mkTag false (OmitEmptyElem t) (AsString t) (AsBinSet t) (AsNumSet t) (AsStrSet t).

(** The element types of the number sets: the numeric types other than
    uintptr, which does not encode, and uint8, a slice of which is a
    binary. *)
Definition isNumberType (t : rtype) : bool :=
  match t with
  | TInt _ | TFloat32 | TFloat64 => true
  | TUint KUintptr | TUint KUint8 => false
  | TUint _ => true
  | _ => false
  end.

(** A number that its wire text gives back: an integer within the range of
    its kind, a float64 that [ParseFloat] reads back from what [FormatFloat]
    prints, a float32 that moreover is one. *)
Definition exactNumber (x : value) : Prop :=
  match x with
  | VInt k z => OverflowInt k z = false
  | VUint k z => k <> KUintptr /\ OverflowUint k z = false
  | VFloat64 f => ParseFloat (FormatFloat f) = inl f
  | VFloat32 f =>
      ParseFloat (FormatFloat f) = inl f /\ overflowFloat32 f = false /\ toFloat32 f = f
  | _ => False
  end.

(** A nil or full, non-empty slice of numbers other than bytes *)
Definition numberSlice (v : value) : Prop :=
  match v with
  | VSliceNil t => isNumberType t = true
  | VSlice t arr len =>
      isNumberType t = true /\ len = List.length arr /\ len <> O
      /\ All (fun x => typeOf x = t /\ exactNumber x) arr
  | _ => False
  end.

(** A nil or full, non-empty slice of strings that do not encode as null *)
Definition stringSlice (e : Encoder) (v : value) : Prop :=
  match v with
  | VSliceNil t => t = TString
  | VSlice t arr len =>
      t = TString /\ len = List.length arr /\ len <> O
      /\ All (fun x => typeOf x = TString /\ nonNull e x = true) arr
  | _ => False
  end.

(** The values an any-type target receives as they are, the decoder
    producing no others for an interface: bool, string, int, a uint above
    the range of int, a float64 whose text reads neither as an int nor as a
    uint, []byte, [][]byte, []interface{} and map[string]interface{}. *)
Definition floatText (s : string) : Prop :=
  match ParseInt s, ParseUint s with
  | inr _, inr _ => True
  | _, _ => False
  end.

Definition generic (x : value) : Prop :=
  match x with
  | VBool _ | VString _ => True
  | VInt k _ => k = KInt
  | VUint k z => k = KUint /\ 2 ^ 63 <= z
  | VFloat64 f => floatText (FormatFloat f)
  | VSlice t _ _ => isByteSlice (TSlice t) = true \/ isByteSlice t = true \/ t = TInterface
  | VMap _ t _ => t = TInterface
  | _ => False
  end.

Fixpoint lossless (e : Encoder) (v : value) : Prop :=
  match v with
  | VBool _ | VString _ | VSliceNil _ | VMapNil _ _ | VPtr _ None | VIface None => True
  | VArray _ l => l = []
  | VIface (Some x) => generic x /\ nonNull e x = true /\ lossless e x
  | VInt k z => OverflowInt k z = false
  | VUint k z => k <> KUintptr /\ OverflowUint k z = false
  | VFloat64 f => ParseFloat (FormatFloat f) = inl f
  | VFloat32 f =>
      ParseFloat (FormatFloat f) = inl f /\ overflowFloat32 f = false /\ toFloat32 f = f
  | VSlice t arr len =>
      len = List.length arr /\ len <> O
      /\ All (fun x => typeOf x = t /\ lossless e x
                       /\ (isByteSlice t = true -> nonNull e x = true)) arr
  | VMap k t es =>
      k = TString /\ es <> []
      /\ NoDup (map (fun kv => Sprint (fst kv)) es)
      /\ All (fun kv => match fst kv with
                        | KeyString s => s <> ""
                        | _ => False
                        end
                        /\ typeOf (snd kv) = t /\ lossless e (snd kv)) es
  | VPtr t (Some x) => typeOf x = t /\ nonNull e x = true /\ lossless e x
  | VStruct fs =>
      NoDup (map (fun fv => Name (fst fv)) fs)
      /\ All (fun fv => Name (fst fv) <> ""
                        /\ ((withoutOmitEmpty (ftag (fst fv)) = tag0 /\ lossless e (snd fv))
                            \/ (withoutOmitEmpty (ftag (fst fv)) = asStringTag
                                /\ exactNumber (snd fv))
                            \/ (withoutOmitEmpty (ftag (fst fv)) = numSetTag
                                /\ numberSlice (snd fv))
                            \/ (withoutOmitEmpty (ftag (fst fv)) = strSetTag
                                /\ stringSlice e (snd fv))
                            \/ (withoutOmitEmpty (ftag (fst fv)) = binSetTag
                                /\ isByteSliceSlice (typeOf (snd fv)) = true
                                /\ lossless e (snd fv)))
                        /\ (OmitEmpty (ftag (fst fv)) = true ->
                            keepsEntry e fv = false ->
                            snd fv = Zero (typeOf (snd fv)))) fs
  | _ => False
  end.

(** [v[:len(v):len(v)]] throughout [v]: the cells of the backing arrays
    beyond the lengths of the slices, which neither [reflect.DeepEqual] nor
    the encoder sees, are cut off. *)
Fixpoint Clip (v : value) : value :=
  match v with
  | VSlice t arr len => VSlice t (firstn len (map Clip arr)) len
  | VArray t l => VArray t (map Clip l)
  | VMap k t es => VMap k t (map (fun kv => (fst kv, Clip (snd kv))) es)
  | VStruct fs => VStruct (map (fun fv => (fst fv, Clip (snd fv))) fs)
  | VPtr t (Some x) => VPtr t (Some (Clip x))
  | VIface (Some x) => VIface (Some (Clip x))
  | _ => v
  end.


(** ** What a round trip is

    [RTf e d n t v]: with fuel [n], [v] encodes under the tag [t], to wire
    null exactly when [nonNull] says so, and the encoding decodes under [t]
    into a zero target of the type of [v] as [v].  [RT] is [RTf] under the
    empty tag, [RTany] is [RT] with the any-type target beside the typed
    one. *)

Section RoundTripSpec.
Variable e : Encoder.
Variable d : Decoder.

Definition RT (n : nat) (v : value) : Prop :=
  exists av, encode n e emptyAV v tag0 = Ok av
             /\ (nonNull e v = false -> av = nullAV)
             /\ (nonNull e v = true -> isNullAV (Some av) = false)
             /\ decode n d (Some av) (Zero (typeOf v)) true tag0 = Ok v.

(** [RTany]: [RT], and the encoding of a [generic] value decodes into a nil
    interface as that value. *)
Definition RTany (n : nat) (v : value) : Prop :=
  exists av, encode n e emptyAV v tag0 = Ok av
             /\ (nonNull e v = false -> av = nullAV)
             /\ (nonNull e v = true -> isNullAV (Some av) = false)
             /\ decode n d (Some av) (Zero (typeOf v)) true tag0 = Ok v
             /\ (generic v -> nonNull e v = true ->
                 decode n d (Some av) (VIface None) true tag0 = Ok (VIface (Some v))).

Definition RTf (n : nat) (t : tag) (v : value) : Prop :=
  exists av, encode n e emptyAV v t = Ok av
             /\ (nonNull e v = false -> av = nullAV)
             /\ (nonNull e v = true -> isNullAV (Some av) = false)
             /\ decode n d (Some av) (Zero (typeOf v)) true t = Ok v.

End RoundTripSpec.

(** The wire text of a []byte, an integer and a string element *)
Definition bytesOf (x : value) : list Z := map byteOf (elemsOf x).

Definition numText (x : value) : string :=
  match x with
  | VInt _ z => FormatInt z
  | VUint _ z => FormatUint z
  | VFloat32 f | VFloat64 f => FormatFloat f
  | _ => ""
  end.

Definition strText (x : value) : string :=
  match x with VString s => s | _ => "" end.

(** Records and maps entry by entry *)
Definition fieldName (fv : field * value) : string := Name (fst fv).

Definition zeroField (fv : field * value) : field * value :=
  (fst fv, Zero (typeOf (snd fv))).

Definition keyName (kv : mapkey * value) : string := Sprint (fst kv).

Definition goodKey (kv : mapkey * value) : Prop :=
  match fst kv with KeyString s => s <> "" | _ => False end.

(** The wire entries of the fields of a record, given for each field its
    encoding when it is kept and [None] when it is omitted *)
Fixpoint keptEntries (fs : list (field * value)) (oavs : list (option AttributeValue))
  : list (string * option AttributeValue) :=
  match fs, oavs with
  | fv :: fs', Some av :: oavs' => (fieldName fv, Some av) :: keptEntries fs' oavs'
  | _ :: fs', None :: oavs' => keptEntries fs' oavs'
  | _, _ => []
  end.

(** What a field of a record contributes to a round trip with fuel [n]: an
    entry that decodes back into the field, or no entry, the field then
    holding the zero value of its type. *)
Definition fieldRT (e : Encoder) (d : Decoder) (n : nat) (fv : field * value)
    (oav : option AttributeValue) : Prop :=
  fieldName fv <> ""
  /\ keepOrOmitEmpty (OmitEmpty (ftag (fst fv)))
                     (encode n e emptyAV (snd fv) (ftag (fst fv))) = Ok oav
  /\ match oav with
     | Some av => decode n d (Some av) (Zero (typeOf (snd fv))) true (ftag (fst fv))
                  = Ok (snd fv)
     | None => snd fv = Zero (typeOf (snd fv))
     end
  /\ isSome oav = keepsEntry e fv.

(** ** The package-level entry points

    A Go function returning [(x, error)] that returns a value together with
    its error is a pair under [Ok]; [None] is the nil error. *)

(** [Marshal] *)
Definition Marshal (fuel : nat) (v : value) : outcome AttributeValue :=
  Encode fuel NewEncoder v.

(** [MarshalMap]: the map of the encoding, or an empty map when there is an
    error or no map. *)
Definition MarshalMap (fuel : nat) (v : value)
  : outcome (list (string * option AttributeValue) * option error) :=
  match Encode fuel NewEncoder v with
  | Ok av =>
      match dynamodb.M av with
      | Some m => Ok (m, None)
      | None => Ok ([], None)
      end
  | Err err => Ok ([], Some err)
  | Panic s => Panic s
  | OutOfFuel => OutOfFuel
  end.

(** [MarshalList] *)
Definition MarshalList (fuel : nat) (v : value)
  : outcome (list (option AttributeValue) * option error) :=
  match Encode fuel NewEncoder v with
  | Ok av =>
      match dynamodb.L av with
      | Some l => Ok (l, None)
      | None => Ok ([], None)
      end
  | Err err => Ok ([], Some err)
  | Panic s => Panic s
  | OutOfFuel => OutOfFuel
  end.

(** [Unmarshal], [UnmarshalMap] and [UnmarshalList] *)
Definition Unmarshal (fuel : nat) (av : option AttributeValue) (out : value)
  : outcome value :=
  Decode fuel NewDecoder av out.

Definition UnmarshalMap (fuel : nat) (m : option (list (string * option AttributeValue)))
    (out : value) : outcome value :=
  Decode fuel NewDecoder (Some (setM emptyAV m)) out.

Definition UnmarshalList (fuel : nat) (l : option (list (option AttributeValue)))
    (out : value) : outcome value :=
  Decode fuel NewDecoder (Some (setL emptyAV l)) out.

(** [v.MapIndex(key)] on the entries of a map *)
Fixpoint MapIndex (m : list (mapkey * value)) (key : mapkey) : option value :=
  match m with
  | [] => None
  | (k, x) :: m' => if mapkeyEqb key k then Some x else MapIndex m' key
  end.

(** The number of variant fields of a wire value that are set *)
Definition populated (av : AttributeValue) : nat :=
  (if isSome (dynamodb.B av) then 1 else 0) + (if isSome (dynamodb.BOOL av) then 1 else 0)
  + (if isSome (dynamodb.BS av) then 1 else 0) + (if isSome (dynamodb.L av) then 1 else 0)
  + (if isSome (dynamodb.M av) then 1 else 0) + (if isSome (dynamodb.N av) then 1 else 0)
  + (if isSome (dynamodb.NS av) then 1 else 0) + (if isSome (dynamodb.NULL av) then 1 else 0)
  + (if isSome (dynamodb.S av) then 1 else 0) + (if isSome (dynamodb.SS av) then 1 else 0).

(** [`dynamodbav:",omitempty"`] and [`dynamodbav:",omitemptyelem"`] *)
Definition omitEmptyTag : tag := mkTag true false false false false false.
Definition omitEmptyElemTag : tag := mkTag false true false false false false.

(** An outcome that is a result *)
Definition isOk {A} (o : outcome A) : bool :=
  match o with Ok _ => true | _ => false end.

(** What a container decoder leaves of the slice [v] after [n] wire
    elements: a slice of length [n] of the same type; a fresh backing array
    of [n] cells if [v] was nil or too small, and otherwise the capacity of
    [v] and its cells from index [n] on. *)
Definition resliced (v : value) (n : nat) (v' : value) : Prop :=
  exists e arr,
    v' = VSlice e arr n /\ typeOf v = TSlice e
    /\ List.length arr = (if sliceIsNil v || Nat.ltb (capOf v) n then n else capOf v)
    /\ (sliceIsNil v || Nat.ltb (capOf v) n = false ->
        forall j, (n <= j)%nat ->
          nth_error arr j = nth_error (match v with VSlice _ a _ => a | _ => [] end) j).

(** An interface value that holds a non-nil pointer: [indirect] goes on
    into what the pointer points to. *)
Definition holdsPointer (o : option value) : bool :=
  match o with Some (VPtr _ (Some _)) => true | _ => false end.

(** A wire number with the text [s]: [N] is set, [NULL] is not, and the
    fields that the switch of [decode] tries before [N] hold nothing. *)
Definition wireNumber (av : AttributeValue) (s : string) : Prop :=
  dynamodb.N av = Some s /\ dynamodb.NULL av = None
  /\ olen (dynamodb.B av) = O /\ dynamodb.BOOL av = None /\ olen (dynamodb.BS av) = O
  /\ olen (dynamodb.L av) = O /\ olen (dynamodb.M av) = O.

(** A slice or array without elements *)
Definition isEmptyElem (x : value) : bool := Nat.eqb (List.length (elemsOf x)) 0.

End Codec.

(** The value of a decimal numeral read left to right from [acc]. *)
Fixpoint uval (d : uint) (acc : Z) : Z :=
  match d with
  | Nil => acc
  | D0 d' => uval d' (acc * 10 + 0)
  | D1 d' => uval d' (acc * 10 + 1)
  | D2 d' => uval d' (acc * 10 + 2)
  | D3 d' => uval d' (acc * 10 + 3)
  | D4 d' => uval d' (acc * 10 + 4)
  | D5 d' => uval d' (acc * 10 + 5)
  | D6 d' => uval d' (acc * 10 + 6)
  | D7 d' => uval d' (acc * 10 + 7)
  | D8 d' => uval d' (acc * 10 + 8)
  | D9 d' => uval d' (acc * 10 + 9)
  end.

(** * Properties *)

(** ** strconv: parsing what was formatted *)

Lemma uval_ge d : forall acc, 0 <= acc -> acc <= uval d acc.
Proof.
  induction d; intros acc Hacc; simpl; try lia;
    match goal with
    | |- _ <= uval _ ?a => specialize (IHd a); lia
    end.
Qed.

Lemma parseUintLoop_numeral d : forall acc,
  0 <= acc -> uval d acc <= maxUint64 ->
  parseUintLoop (NilEmpty.string_of_uint d) acc = inl (uval d acc).
Proof.
  induction d; intros acc Hacc Hmax; simpl NilEmpty.string_of_uint; simpl uval in *;
    [reflexivity | ..];
    cbn [parseUintLoop];
    match goal with
    | |- context [digitVal ?c] =>
        let r := eval vm_compute in (digitVal c) in change (digitVal c) with r; cbv iota
    end;
    match goal with
    | H : uval _ ?a <= _ |- _ =>
        pose proof (uval_ge d a ltac:(lia));
        replace (maxUint64 <? a) with false by (symmetry; apply Z.ltb_ge; lia);
        apply IHd; [lia | assumption]
    end.
Qed.

Lemma uval_of_uint_acc d : forall acc,
  uval d (Zpos acc) = Zpos (Pos.of_uint_acc d acc).
Proof.
  induction d; intros acc; cbn [uval Pos.of_uint_acc]; try reflexivity;
    match goal with
    | |- uval _ ?a = _ =>
        match goal with
        | |- _ = Zpos (Pos.of_uint_acc _ ?p) => replace a with (Zpos p) by lia; apply IHd
        end
    end.
Qed.

Lemma uval_of_uint d : uval d 0 = Z.of_N (Pos.of_uint d).
Proof.
  induction d; cbn [uval Pos.of_uint]; try reflexivity; try assumption;
    match goal with
    | |- uval _ ?a = Z.of_N (Npos (Pos.of_uint_acc _ ?p)) =>
        change a with (Zpos p); apply uval_of_uint_acc
    end.
Qed.

Lemma numeral_nonempty d : d <> Nil -> NilEmpty.string_of_uint d <> EmptyString.
Proof. destruct d; simpl; congruence. Qed.

Lemma N_to_uint_nonnil n : N.to_uint n <> Nil.
Proof.
  destruct n; simpl; [discriminate | apply DecimalPos.Unsigned.to_uint_nonnil].
Qed.

Lemma NilZero_numeral d : d <> Nil -> NilZero.string_of_uint d = NilEmpty.string_of_uint d.
Proof. destruct d; simpl; congruence. Qed.

(** [ParseUint(FormatUint(u))] is [u] on the 64-bit range. *)
Lemma ParseUint_FormatUint u :
  0 <= u <= maxUint64 -> ParseUint (FormatUint u) = inl u.
Proof.
  intros Hu. unfold FormatUint, ParseUint.
  rewrite NilZero_numeral by apply N_to_uint_nonnil.
  pose proof (numeral_nonempty _ (N_to_uint_nonnil (Z.to_N u))) as Hne.
  assert (Hv : uval (N.to_uint (Z.to_N u)) 0 = u).
  { rewrite uval_of_uint. change (Pos.of_uint ?d) with (N.of_uint d).
    rewrite DecimalN.Unsigned.of_to. lia. }
  destruct (NilEmpty.string_of_uint (N.to_uint (Z.to_N u))) eqn:E; [congruence|].
  rewrite <- E, parseUintLoop_numeral; [congruence | lia | lia].
Qed.

Lemma numeral_head d :
  d <> Nil ->
  exists c s', NilEmpty.string_of_uint d = String c s'
               /\ Ascii.eqb c "-" = false /\ Ascii.eqb c "+" = false.
Proof.
  destruct d; intros H; [congruence | ..]; simpl; eexists; eexists;
    (split; [reflexivity | split; reflexivity]).
Qed.

Lemma FormatInt_nonneg i : 0 <= i -> FormatInt i = FormatUint i.
Proof.
  intros H. unfold FormatInt, FormatUint. destruct i; try lia; reflexivity.
Qed.

(** [ParseInt(FormatInt(i))] is [i] on the signed 64-bit range. *)
Lemma ParseInt_FormatInt i :
  - 2 ^ 63 <= i < 2 ^ 63 -> ParseInt (FormatInt i) = inl i.
Proof.
  intros Hi. destruct (Z.neg_nonneg_cases i) as [Hneg | Hpos].
  - destruct i as [| p | p]; try lia.
    assert (Hu : ParseUint (FormatUint (Zpos p)) = inl (Zpos p))
      by (apply ParseUint_FormatUint; unfold maxUint64; lia).
    unfold FormatInt. cbn [Z.to_int NilZero.string_of_int].
    change (NilZero.string_of_uint (Pos.to_uint p)) with (FormatUint (Zpos p)).
    unfold ParseInt. cbn [Ascii.eqb Bool.eqb orb negb andb]. rewrite Hu.
    replace (2 ^ 63 <? Zpos p) with false by (symmetry; apply Z.ltb_ge; lia).
    reflexivity.
  - rewrite FormatInt_nonneg by assumption.
    pose proof (ParseUint_FormatUint i ltac:(unfold maxUint64; lia)) as Hu.
    unfold FormatUint in *.
    rewrite NilZero_numeral in * by apply N_to_uint_nonnil.
    destruct (numeral_head _ (N_to_uint_nonnil (Z.to_N i))) as (c & s' & E & Hm & Hp).
    rewrite E in *. unfold ParseInt. rewrite Hm, Hp. cbn [orb negb andb]. rewrite Hu.
    replace (2 ^ 63 <=? i) with false by (symmetry; apply Z.leb_gt; lia).
    reflexivity.
Qed.

(** A numeral of the upper half of the unsigned range is not a signed
    64-bit integer. *)
Lemma ParseInt_FormatUint_range u :
  2 ^ 63 <= u <= maxUint64 -> ParseInt (FormatUint u) = inr ErrRange.
Proof.
  intros Hu.
  pose proof (ParseUint_FormatUint u ltac:(lia)) as Hp.
  unfold FormatUint in *.
  rewrite NilZero_numeral in * by apply N_to_uint_nonnil.
  destruct (numeral_head _ (N_to_uint_nonnil (Z.to_N u))) as (c & s' & E & Hm & Hpl).
  rewrite E in *. unfold ParseInt. rewrite Hm, Hpl. cbn [orb negb andb]. rewrite Hp.
  replace (2 ^ 63 <=? u) with true by (symmetry; apply Z.leb_le; lia).
  reflexivity.
Qed.

Section Properties.
Context {FO : FloatOps}.

(** ** Induction on native values, through the nested lists and options *)

Section ValueInd.
Variable P : value -> Prop.
Hypothesis Hbool : forall b, P (VBool b).
Hypothesis Hint : forall k z, P (VInt k z).
Hypothesis Huint : forall k z, P (VUint k z).
Hypothesis Hf32 : forall f, P (VFloat32 f).
Hypothesis Hf64 : forall f, P (VFloat64 f).
Hypothesis Hstring : forall s, P (VString s).
Hypothesis Hslicenil : forall e, P (VSliceNil e).
Hypothesis Hslice : forall e arr len, Forall P arr -> P (VSlice e arr len).
Hypothesis Harray : forall e l, Forall P l -> P (VArray e l).
Hypothesis Hmapnil : forall k e, P (VMapNil k e).
Hypothesis Hmap : forall k e es, Forall (fun kv => P (snd kv)) es -> P (VMap k e es).
Hypothesis Hstruct : forall fs, Forall (fun fv => P (snd fv)) fs -> P (VStruct fs).
Hypothesis Hptrnil : forall e, P (VPtr e None).
Hypothesis Hptr : forall e x, P x -> P (VPtr e (Some x)).
Hypothesis Hifacenil : P (VIface None).
Hypothesis Hiface : forall x, P x -> P (VIface (Some x)).
Hypothesis Hchan : P VChan.
Hypothesis Hfunc : P VFunc.
Hypothesis Hunsafe : P VUnsafePointer.

Fixpoint value_nested_ind (v : value) : P v :=
  match v with
  | VBool b => Hbool b
  | VInt k z => Hint k z
  | VUint k z => Huint k z
  | VFloat32 f => Hf32 f
  | VFloat64 f => Hf64 f
  | VString s => Hstring s
  | VSliceNil e => Hslicenil e
  | VSlice e arr len =>
      Hslice e arr len
        ((fix go (l : list value) : Forall P l :=
            match l with
            | [] => Forall_nil _
            | x :: l' => Forall_cons _ (value_nested_ind x) (go l')
            end) arr)
  | VArray e l =>
      Harray e l
        ((fix go (l : list value) : Forall P l :=
            match l with
            | [] => Forall_nil _
            | x :: l' => Forall_cons _ (value_nested_ind x) (go l')
            end) l)
  | VMapNil k e => Hmapnil k e
  | VMap k e es =>
      Hmap k e es
        ((fix go (l : list (mapkey * value)) : Forall (fun kv => P (snd kv)) l :=
            match l with
            | [] => Forall_nil _
            | (k, x) :: l' => Forall_cons (k, x) (value_nested_ind x) (go l')
            end) es)
  | VStruct fs =>
      Hstruct fs
        ((fix go (l : list (field * value)) : Forall (fun fv => P (snd fv)) l :=
            match l with
            | [] => Forall_nil _
            | (f, x) :: l' => Forall_cons (f, x) (value_nested_ind x) (go l')
            end) fs)
  | VPtr e None => Hptrnil e
  | VPtr e (Some x) => Hptr e x (value_nested_ind x)
  | VIface None => Hifacenil
  | VIface (Some x) => Hiface x (value_nested_ind x)
  | VChan => Hchan
  | VFunc => Hfunc
  | VUnsafePointer => Hunsafe
  end.

End ValueInd.

(** ** [indirect] *)

Lemma indirect_loop v dn :
  indirect v true dn = indirectLoop v true dn.
Proof.
  unfold indirect.
  destruct (negb (isPtrKind (kindOf v)) && negb (String.eqb (typeName (typeOf v)) "") && true)
    eqn:E; [| reflexivity].
  destruct v; try discriminate E; cbn [indirectLoop kindOfV andb negb isPtrKind kindOf];
    try reflexivity;
    try (destruct k; discriminate E);
    rewrite Bool.andb_false_r; reflexivity.
Qed.

Lemma indirectLoop_nonptr v cs dn :
  isPtrKind (kindOf v) = false -> kindOf v <> reflect.Interface ->
  indirectLoop v cs dn = Ok ([], v, cs).
Proof.
  destruct v; cbn; intros Hp Hi; try reflexivity; try discriminate; congruence.
Qed.

Lemma decodeSwitch_allEmpty dec av v cs fieldTag :
  allEmpty av = true -> decodeSwitch dec av v cs fieldTag = Ok v.
Proof.
  unfold allEmpty, decodeSwitch. intros H.
  repeat match goal with
         | H : _ && _ = true |- _ => apply andb_prop in H; destruct H
         end.
  repeat match goal with
         | H : Nat.eqb _ 0 = true |- _ => rewrite H; clear H
         end.
  destruct (dynamodb.BOOL av); [discriminate|].
  destruct (dynamodb.N av); [discriminate|].
  destruct (dynamodb.S av); [discriminate|].
  reflexivity.
Qed.

(** ** The loop of [encodeList] *)

Section EncodeListFacts.
Variable enc : value -> tag -> outcome AttributeValue.

Lemma encodeListLoop_kept fieldTag elemFn : forall elems ks count av,
  keptElems enc fieldTag elems = Ok ks ->
  encodeListLoop enc fieldTag elemFn elems count av = appendAll elemFn ks count av.
Proof.
  induction elems as [| x rest IH]; intros ks count av H; cbn [keptElems encodeListLoop] in *.
  - injection H as <-. reflexivity.
  - destruct (keepOrOmitEmpty _ _) as [[elem |] | | |]; cbn [bind] in *; try discriminate;
      destruct (keptElems enc fieldTag rest) as [ks' | | |]; cbn [bind] in *; try discriminate;
      injection H as <-; cbn [appendAll].
    + destruct (elemFn av elem); cbn [bind]; try reflexivity. apply IH; reflexivity.
    + apply IH; reflexivity.
Qed.

(** The four [elemFn] closures have one shape: [pick] the sub-value of the
    element, fail with [msg] when it is nil, append it to the field that
    [get] reads and [set] writes. *)
Section Appender.
Context {T : Type}.
Variable get : AttributeValue -> option (list T).
Variable set : AttributeValue -> option (list T) -> AttributeValue.
Variable pick : AttributeValue -> option T.
Variable msg : string.
Hypothesis get_set : forall av x, get (set av x) = x.
Hypothesis set_set : forall av x y, set (set av x) y = set av y.
Hypothesis set_get : forall av, set av (get av) = av.

Let appendElem (av elem : AttributeValue) : outcome AttributeValue :=
  match pick elem with
  | None => Err (InvalidMarshalError msg)
  | Some t => Ok (set av (Some (orNil (get av) ++ [t])%list))
  end.

Lemma appendAll_ok : forall ks ts count av l0,
  get av = Some l0 -> map pick ks = map Some ts ->
  appendAll appendElem ks count av
  = Ok ((count + List.length ks)%nat, set av (Some (l0 ++ ts)%list)).
Proof.
  induction ks as [| k ks IH]; intros ts count av l0 Hg Hm; destruct ts as [| t ts];
    try discriminate Hm; cbn [appendAll List.length].
  - rewrite List.app_nil_r, Nat.add_0_r, <- Hg, set_get. reflexivity.
  - cbn [map] in Hm. injection Hm as Hk Hm. unfold appendElem at 1. rewrite Hk, Hg.
    cbn [bind orNil].
    rewrite (IH ts _ _ (l0 ++ [t])%list) by (rewrite ?get_set; auto).
    rewrite set_set, <- List.app_assoc, Nat.add_succ_r. reflexivity.
Qed.

Lemma appendAll_err : forall ks count av,
  Exists (fun k => pick k = None) ks ->
  appendAll appendElem ks count av = Err (InvalidMarshalError msg).
Proof.
  induction ks as [| k ks IH]; intros count av H; [inversion H |].
  cbn [appendAll]. unfold appendElem at 1.
  destruct (pick k) eqn:Hk; [| reflexivity].
  cbn [bind]. apply IH. inversion H; subst; [congruence | assumption].
Qed.

Lemma encodeListLoop_appended fieldTag : forall elems count av l0 r,
  get av = Some l0 ->
  encodeListLoop enc fieldTag appendElem elems count av = Ok r ->
  exists ts, snd r = set av (Some (l0 ++ ts)%list)
             /\ fst r = (count + List.length ts)%nat.
Proof.
  induction elems as [| x rest IH]; intros count av l0 r Hg H; cbn [encodeListLoop] in H.
  - injection H as <-. exists []. cbn [fst snd List.length].
    rewrite List.app_nil_r, Nat.add_0_r, <- Hg, set_get. split; reflexivity.
  - destruct (keepOrOmitEmpty _ _) as [[elem |] | | |]; cbn [bind] in H; try discriminate.
    + unfold appendElem at 1 in H. destruct (pick elem) as [t |]; cbn [bind] in H;
        try discriminate.
      rewrite Hg in H. cbn [orNil] in H.
      destruct (IH _ _ (l0 ++ [t])%list _ (get_set _ _) H) as (ts & Hs & Hf).
      exists (t :: ts). rewrite Hs, Hf, set_set, <- List.app_assoc.
      cbn [List.length List.app]. split; [reflexivity | lia].
    + apply (IH _ _ _ _ Hg H).
Qed.

End Appender.

Lemma encodeListLoop_ext fieldTag f g :
  (forall a b, f a b = g a b) ->
  forall elems count av,
    encodeListLoop enc fieldTag f elems count av = encodeListLoop enc fieldTag g elems count av.
Proof.
  intros Hfg. induction elems as [| x rest IH]; intros count av; cbn [encodeListLoop];
    [reflexivity |].
  destruct (keepOrOmitEmpty _ _) as [[elem |] | | |]; cbn [bind]; try reflexivity; [| apply IH].
  rewrite Hfg. destruct (g av elem); cbn [bind]; try reflexivity. apply IH.
Qed.

Lemma appendAll_ext f g :
  (forall a b, f a b = g a b) ->
  forall ks count av, appendAll f ks count av = appendAll g ks count av.
Proof.
  intros Hfg. induction ks as [| k ks IH]; intros count av; cbn [appendAll]; [reflexivity |].
  rewrite Hfg. destruct (g av k); cbn [bind]; try reflexivity. apply IH.
Qed.

Lemma elemFnNS_shape av elem :
  elemFnNS av elem
  = match pickN elem with
    | None => Err (InvalidMarshalError numSetMsg)
    | Some t => Ok (setNS av (Some (orNil (dynamodb.NS av) ++ [t])%list))
    end.
Proof. unfold elemFnNS, pickN. destruct (dynamodb.N elem); reflexivity. Qed.

Lemma elemFnSS_shape av elem :
  elemFnSS av elem
  = match pickS elem with
    | None => Err (InvalidMarshalError strSetMsg)
    | Some t => Ok (setSS av (Some (orNil (dynamodb.SS av) ++ [t])%list))
    end.
Proof. unfold elemFnSS, pickS. destruct (dynamodb.S elem); reflexivity. Qed.

Lemma elemFnL_shape av elem :
  elemFnL av elem
  = match pickL elem with
    | None => Err (InvalidMarshalError "")
    | Some t => Ok (setL av (Some (orNil (dynamodb.L av) ++ [t])%list))
    end.
Proof. reflexivity. Qed.

Lemma setBS_get av : setBS av (dynamodb.BS av) = av.
Proof. destruct av; reflexivity. Qed.
Lemma setNS_get av : setNS av (dynamodb.NS av) = av.
Proof. destruct av; reflexivity. Qed.
Lemma setSS_get av : setSS av (dynamodb.SS av) = av.
Proof. destruct av; reflexivity. Qed.
Lemma setL_get av : setL av (dynamodb.L av) = av.
Proof. destruct av; reflexivity. Qed.

(** What a successful [encodeSlice] on a fresh value returns: null, or
    exactly one non-empty container, the one its branch builds. *)
Lemma encodeSlice_shape v fieldTag r :
  encodeSlice enc emptyAV v fieldTag = Ok r ->
  r = nullAV
  \/ (isByteSlice (typeOf v) = true
      /\ exists b, b <> [] /\ r = setB emptyAV (Some b))
  \/ (isByteSlice (typeOf v) = false
      /\ AsBinSet fieldTag || isByteSliceSlice (typeOf v) = true
      /\ exists bs, bs <> [] /\ r = setBS emptyAV (Some bs))
  \/ (isByteSlice (typeOf v) = false
      /\ AsBinSet fieldTag || isByteSliceSlice (typeOf v) = false
      /\ AsNumSet fieldTag = true
      /\ exists ns, ns <> [] /\ r = setNS emptyAV (Some ns))
  \/ (isByteSlice (typeOf v) = false
      /\ AsBinSet fieldTag || isByteSliceSlice (typeOf v) = false
      /\ AsNumSet fieldTag = false /\ AsStrSet fieldTag = true
      /\ exists ss, ss <> [] /\ r = setSS emptyAV (Some ss))
  \/ (isByteSlice (typeOf v) = false
      /\ AsBinSet fieldTag || isByteSliceSlice (typeOf v) = false
      /\ AsNumSet fieldTag = false /\ AsStrSet fieldTag = false
      /\ exists l, l <> [] /\ r = setL emptyAV (Some l)).
Proof.
  unfold encodeSlice, encodeList. intros H.
  destruct (isByteSlice (typeOf v)).
  { destruct (map byteOf (elemsOf v)) as [| b0 bs] eqn:E; cbn [List.length Nat.eqb] in H;
      injection H as <-; [left; reflexivity |].
    right; left. split; [reflexivity |]. eexists; split; [| reflexivity]. discriminate. }
  destruct (AsBinSet fieldTag || isByteSliceSlice (typeOf v)) eqn:Hb;
    [| destruct (AsNumSet fieldTag) eqn:Hn; [| destruct (AsStrSet fieldTag) eqn:Hs]];
    match type of H with
    | bind ?m _ = _ => destruct m as [[n av'] | | |] eqn:E; cbn [bind fst snd] in H;
                         try discriminate
    end;
    (destruct n as [| n]; cbn [Nat.eqb] in H; injection H as <-; [left; reflexivity |]).
  - apply (encodeListLoop_appended dynamodb.BS setBS dynamodb.B binSetMsg
             (fun _ _ => eq_refl) (fun _ _ _ => eq_refl) setBS_get fieldTag (elemsOf v) O
             (setBS emptyAV (Some [])) [] _ eq_refl) in E.
    destruct E as (ts & Hs & Hf). cbn [fst snd List.app] in *.
    right; right; left. repeat split; try reflexivity.
    exists ts. split; [destruct ts; [discriminate Hf | discriminate] | exact Hs].
  - rewrite (encodeListLoop_ext _ _ _ elemFnNS_shape) in E.
    apply (encodeListLoop_appended dynamodb.NS setNS pickN numSetMsg
             (fun _ _ => eq_refl) (fun _ _ _ => eq_refl) setNS_get fieldTag (elemsOf v) O
             (setNS emptyAV (Some [])) [] _ eq_refl) in E.
    destruct E as (ts & Hs' & Hf). cbn [fst snd List.app] in *.
    do 3 right; left. repeat split; try reflexivity.
    exists ts. split; [destruct ts; [discriminate Hf | discriminate] | exact Hs'].
  - rewrite (encodeListLoop_ext _ _ _ elemFnSS_shape) in E.
    apply (encodeListLoop_appended dynamodb.SS setSS pickS strSetMsg
             (fun _ _ => eq_refl) (fun _ _ _ => eq_refl) setSS_get fieldTag (elemsOf v) O
             (setSS emptyAV (Some [])) [] _ eq_refl) in E.
    destruct E as (ts & Hs' & Hf). cbn [fst snd List.app] in *.
    do 4 right; left. repeat split; try reflexivity.
    exists ts. split; [destruct ts; [discriminate Hf | discriminate] | exact Hs'].
  - rewrite (encodeListLoop_ext _ _ _ elemFnL_shape) in E.
    apply (encodeListLoop_appended dynamodb.L setL pickL ""
             (fun _ _ => eq_refl) (fun _ _ _ => eq_refl) setL_get fieldTag (elemsOf v) O
             (setL emptyAV (Some [])) [] _ eq_refl) in E.
    destruct E as (ts & Hs' & Hf). cbn [fst snd List.app] in *.
    do 5 right. repeat split; try reflexivity.
    exists ts. split; [destruct ts; [discriminate Hf | discriminate] | exact Hs'].
Qed.

End EncodeListFacts.

(** ** Overflow and array targets in general *)

(** Whatever the unsigned kind, a numeral of the 64-bit range that
    overflows the kind is accepted and leaves the target as it was. *)
Lemma decodeNumber_overflow_uint k u old cs :
  k <> KUintptr -> 0 <= u <= maxUint64 -> OverflowUint k u = true ->
  decodeNumber (Some (FormatUint u)) (VUint k old) cs = Ok (VUint k old).
Proof.
  intros Hk Hu Ho. unfold decodeNumber. cbn [kindOf].
  destruct k; try congruence; cbn [deref bind];
    rewrite (ParseUint_FormatUint _ Hu), Ho; reflexivity.
Qed.

Lemma decodeNumber_overflow_int k i old cs :
  - 2 ^ 63 <= i < 2 ^ 63 -> OverflowInt k i = true ->
  decodeNumber (Some (FormatInt i)) (VInt k old) cs = Ok (VInt k old).
Proof.
  intros Hi Ho. unfold decodeNumber. cbn [kindOf deref bind].
  rewrite (ParseInt_FormatInt _ Hi), Ho. reflexivity.
Qed.

(** A non-empty wire list never gets into a non-empty array: the first
    iteration of the loop panics in [SetLen]. *)
Lemma decodeList_array_panics dec avList t l cs :
  avList <> [] -> l <> [] ->
  decodeList dec avList (VArray t l) cs
  = Panic "reflect: call of reflect.Value.SetLen on array Value".
Proof.
  intros Ha Hl. unfold decodeList. cbn [kindOf capOf].
  destruct avList as [| a avList]; [contradiction |].
  destruct l as [| x l]; [contradiction |]. reflexivity.
Qed.

(** ** The claims *)

(** C2 (defect in the code).  The wire number "300" decoded into a uint8
    target holding 7: [ParseUint] succeeds, [OverflowUint] holds, and the code
    returns the nil [err] of the parse; [Decode] reports success and the
    target still holds 7.  No overflow error is produced. *)
Theorem C2_overflow_returns_nil_error : forall fuel,
  Decode (Datatypes.S fuel) NewDecoder (Some (setN emptyAV (Some "300")))
         (VPtr (TUint KUint8) (Some (VUint KUint8 7)))
  = Ok (VPtr (TUint KUint8) (Some (VUint KUint8 7))).
Proof. intros fuel. reflexivity. Qed.

(** C4 (as amended).  An absent attribute value is decoded as wire null.  A
    non-nil attribute value in which every variant field is empty or unset is
    not: the target is resolved, nil pointers on the way being allocated, and
    nothing is assigned; a target that is neither a pointer nor an interface
    keeps its value. *)
Theorem C4_all_empty_assigns_nothing : forall fuel d av v cs fieldTag,
  allEmpty av = true ->
  decode (Datatypes.S fuel) d (Some av) v cs fieldTag
    = (r <- indirect v cs false ;; Ok (plug (fst (fst r)) (snd (fst r))))
  /\ (isPtrKind (kindOf v) = false -> kindOf v <> reflect.Interface ->
      decode (Datatypes.S fuel) d (Some av) v true fieldTag = Ok v)
  /\ decode (Datatypes.S fuel) d None v cs fieldTag
     = decode (Datatypes.S fuel) d (Some nullAV) v cs fieldTag.
Proof.
  intros fuel d av v cs fieldTag H.
  assert (Hn : isNullAV (Some av) = false).
  { unfold allEmpty in H.
    repeat match goal with
           | H : _ && _ = true |- _ => apply andb_prop in H; destruct H
           end.
    cbn. destruct (dynamodb.NULL av); [discriminate | reflexivity]. }
  split; [| split].
  - cbn [decode]. rewrite Hn.
    destruct (indirect v cs false) as [[[fs x] c] | | |]; cbn [bind fst snd]; try reflexivity.
    rewrite decodeSwitch_allEmpty by assumption. reflexivity.
  - intros Hp Hi. cbn [decode]. rewrite Hn, indirect_loop, indirectLoop_nonptr by assumption.
    cbn [bind]. rewrite decodeSwitch_allEmpty by assumption. reflexivity.
  - reflexivity.
Qed.

(** C5 (defect in the code).  A wire list of two numbers decoded into an
    array of length one: the loop runs [v.SetLen(1)] on the array value,
    which panics in package reflect; the call neither fills the array nor
    returns. *)
Theorem C5_array_target_panics : forall fuel,
  Decode (Datatypes.S fuel) NewDecoder
         (Some (setL emptyAV (Some [Some (setN emptyAV (Some "1"));
                                    Some (setN emptyAV (Some "2"))])))
         (VPtr (TArray 1 (TInt KInt)) (Some (VArray (TInt KInt) [VInt KInt 0])))
  = Panic "reflect: call of reflect.Value.SetLen on array Value"
  /\ Decode (Datatypes.S fuel) NewDecoder
         (Some (setSS emptyAV (Some [Some "a"; Some "b"])))
         (VPtr (TArray 1 TString) (Some (VArray TString [VString ""])))
  = Panic "reflect: call of reflect.Value.SetLen on array Value".
Proof. intros fuel. split; reflexivity. Qed.

(** C8 (defect in the code).  A record with a channel, function or unsafe
    pointer field: [encode] returns nil for such a kind and leaves the
    element untouched, [keepOrOmitEmpty] sees no error and no NULL, and the
    all-empty attribute value is stored under the field's name.  The field
    is not omitted. *)
Theorem C8_unsupported_kind_is_stored_empty : forall fuel e,
  Encode (Datatypes.S (Datatypes.S fuel)) e (VStruct [(mkField "A" tag0, VChan)])
    = Ok (setM emptyAV (Some [("A", Some emptyAV)]))
  /\ Encode (Datatypes.S (Datatypes.S fuel)) e (VStruct [(mkField "A" tag0, VFunc)])
    = Ok (setM emptyAV (Some [("A", Some emptyAV)]))
  /\ Encode (Datatypes.S (Datatypes.S fuel)) e (VStruct [(mkField "A" tag0, VUnsafePointer)])
    = Ok (setM emptyAV (Some [("A", Some emptyAV)])).
Proof. intros fuel e. repeat split; reflexivity. Qed.

Lemma encodeScalar_noEmptyContainer e x fieldTag r :
  encodeScalar e emptyAV x fieldTag = Ok r -> noEmptyContainer r.
Proof.
  unfold encodeScalar, encodeNumber, encodeString, tryMarshaler. intros H.
  destruct x as [b | k z | k z | f | f | s | | | | | | | | | | |];
    try discriminate H; try (destruct k); try discriminate H;
    cbn [bind setN dynamodb.NULL dynamodb.N emptyAV isSome negb andb] in H;
    try (destruct (AsString fieldTag));
    try (destruct (Nat.eqb (String.length s) 0 && NullEmptyString e));
    cbn [andb] in H; injection H as <-;
    unfold noEmptyContainer; cbn; repeat split; discriminate.
Qed.

Lemma encode_noEmptyContainer fuel e v fieldTag r :
  encode fuel e emptyAV v fieldTag = Ok r -> noEmptyContainer r.
Proof.
  destruct fuel as [| n]; [discriminate |]. cbn [encode tryMarshaler].
  assert (Hnull : noEmptyContainer nullAV)
    by (unfold noEmptyContainer; cbn; repeat split; discriminate).
  assert (Hempty : noEmptyContainer emptyAV)
    by (unfold noEmptyContainer; cbn; repeat split; discriminate).
  destruct (valueElem v) as [x |];
    [| destruct (OmitEmpty fieldTag && emptyValue None); intros [= <-]; exact Hnull].
  cbn [tryMarshaler].
  destruct (OmitEmpty fieldTag && emptyValue (Some x));
    [intros [= <-]; exact Hnull |].
  assert (Hslice : encodeSlice (encode n e emptyAV) emptyAV x fieldTag = Ok r ->
                   noEmptyContainer r).
  { intros H. apply encodeSlice_shape in H.
    destruct H as [-> | [(_ & b & Hb & ->) | [(_ & _ & b & Hb & ->) | [(_ & _ & _ & b & Hb & ->)
                  | [(_ & _ & _ & _ & b & Hb & ->) | (_ & _ & _ & _ & b & Hb & ->)]]]]];
      [exact Hnull | ..];
      unfold noEmptyContainer; cbn; repeat split; try discriminate; congruence. }
  destruct x; cbn [kindOf]; try apply encodeScalar_noEmptyContainer; try exact Hslice;
    try (intros [= <-]; exact Hempty).
  - (* map *)
    unfold encodeMap. destruct (encodeMapEntries _ _ _ _) as [m | | |]; cbn [bind];
      try discriminate.
    destruct m; cbn [List.length Nat.eqb]; intros [= <-]; [exact Hnull |].
    unfold noEmptyContainer; cbn; repeat split; discriminate.
  - (* struct *)
    unfold encodeStruct. destruct (encodeStructFields _ _ _) as [m | | |]; cbn [bind];
      try discriminate.
    destruct m; cbn [List.length Nat.eqb]; intros [= <-]; [exact Hnull |].
    unfold noEmptyContainer; cbn; repeat split; discriminate.
Qed.

(** An empty value under [omitempty] encodes as null. *)
Lemma encode_omitted n e x fieldTag :
  OmitEmpty fieldTag = true -> emptyValue (valueElem x) = true ->
  encode (Datatypes.S n) e emptyAV x fieldTag = Ok nullAV.
Proof.
  intros Ho He. cbn [encode]. rewrite Ho, He.
  destruct (valueElem x); reflexivity.
Qed.

(** A record is never empty for [omitempty]: it goes to [encodeStruct]. *)
Lemma encode_record m e fs fieldTag :
  encode (Datatypes.S m) e emptyAV (VStruct fs) fieldTag
  = encodeStruct (encode m e emptyAV) emptyAV fs.
Proof.
  cbn [encode valueElem tryMarshaler emptyValue kindOf].
  rewrite Bool.andb_false_r. reflexivity.
Qed.

Lemma encodeStructFields_all_omitted n e : forall fs acc,
  Forall (fun fv : field * value =>
            Name (fst fv) <> "" /\ OmitEmpty (ftag (fst fv)) = true
            /\ emptyValue (valueElem (snd fv)) = true) fs ->
  encodeStructFields (encode (Datatypes.S n) e emptyAV) fs acc = Ok acc.
Proof.
  induction fs as [| [f fv] fs IH]; intros acc H; [reflexivity |].
  inversion H as [| ? ? (Hname & Ho & He) Hrest]; subst. cbn [fst snd] in *.
  cbn [encodeStructFields].
  rewrite (proj2 (String.eqb_neq _ _) Hname), (encode_omitted _ _ _ _ Ho He), Ho.
  cbn [keepOrOmitEmpty nullAV dynamodb.NULL isSome andb bind]. apply IH. exact Hrest.
Qed.

Lemma keptElems_all_omitted n e fieldTag : forall elems,
  OmitEmptyElem fieldTag = true ->
  Forall (fun x => emptyValue (valueElem x) = true) elems ->
  keptElems (encode (Datatypes.S n) e emptyAV) fieldTag elems = Ok [].
Proof.
  intros elems Ho. induction 1 as [| x rest Hx _ IH]; [reflexivity |].
  cbn [keptElems]. rewrite Ho.
  rewrite (encode_omitted n e x (mkTag true false false false false false) eq_refl Hx), IH.
  reflexivity.
Qed.

(** C6.  A record whose fields leave no wire-map entry encodes as wire null,
    as it does when every field is omitted as empty; a sequence whose
    elements, after element-level omission, leave nothing encodes as wire
    null, as it does when every element is omitted as empty, and so does an
    empty byte sequence; and no successful [encode] returns an empty map,
    set, list or binary. *)
Theorem C6_nothing_left_encodes_as_null :
  (forall enc av fields,
      encodeStructFields enc fields [] = Ok [] -> encodeStruct enc av fields = Ok nullAV)
  /\ (forall n e fs fieldTag,
        Forall (fun fv : field * value =>
                  Name (fst fv) <> "" /\ OmitEmpty (ftag (fst fv)) = true
                  /\ emptyValue (valueElem (snd fv)) = true) fs ->
        encode (Datatypes.S (Datatypes.S n)) e emptyAV (VStruct fs) fieldTag = Ok nullAV)
  /\ (forall enc av v fieldTag,
        isByteSlice (typeOf v) = false -> keptElems enc fieldTag (elemsOf v) = Ok [] ->
        encodeSlice enc av v fieldTag = Ok nullAV)
  /\ (forall n e av v fieldTag,
        isByteSlice (typeOf v) = false -> OmitEmptyElem fieldTag = true ->
        Forall (fun x => emptyValue (valueElem x) = true) (elemsOf v) ->
        encodeSlice (encode (Datatypes.S n) e emptyAV) av v fieldTag = Ok nullAV)
  /\ (forall enc av v fieldTag,
        isByteSlice (typeOf v) = true -> elemsOf v = [] ->
        encodeSlice enc av v fieldTag = Ok nullAV)
  /\ (forall fuel e v fieldTag r,
        encode fuel e emptyAV v fieldTag = Ok r -> noEmptyContainer r).
Proof.
  assert (Hseq : forall enc av v fieldTag,
             isByteSlice (typeOf v) = false -> keptElems enc fieldTag (elemsOf v) = Ok [] ->
             encodeSlice enc av v fieldTag = Ok nullAV).
  { intros enc av v fieldTag Hb Hk. unfold encodeSlice, encodeList. rewrite Hb.
    rewrite !(encodeListLoop_kept enc fieldTag _ _ [] _ _ Hk).
    cbn [appendAll]. destruct (AsBinSet fieldTag || isByteSliceSlice (typeOf v));
      [| destruct (AsNumSet fieldTag); [| destruct (AsStrSet fieldTag)]]; reflexivity. }
  split; [| split; [| split; [| split; [| split]]]].
  - intros enc av fields H. unfold encodeStruct. rewrite H. reflexivity.
  - intros n e fs fieldTag H. rewrite encode_record. unfold encodeStruct.
    rewrite (encodeStructFields_all_omitted _ _ _ _ H). reflexivity.
  - exact Hseq.
  - intros n e av v fieldTag Hb Ho H. apply Hseq; [exact Hb |].
    apply keptElems_all_omitted; assumption.
  - intros enc av v fieldTag Hb He. unfold encodeSlice. rewrite Hb, He. reflexivity.
  - intros fuel e v fieldTag r H. apply (encode_noEmptyContainer _ _ _ _ _ H).
Qed.

Lemma pickN_map ks ns :
  map dynamodb.N ks = map Some ns -> map pickN ks = map Some (map Some ns).
Proof.
  revert ns. induction ks as [| k ks IH]; intros [| n ns] H; try discriminate H;
    [reflexivity |].
  cbn [map] in *. injection H as Hk H. unfold pickN at 1. rewrite Hk, (IH _ H). reflexivity.
Qed.

Lemma pickS_map ks ss :
  map dynamodb.S ks = map Some ss -> map pickS ks = map Some (map Some ss).
Proof.
  revert ss. induction ks as [| k ks IH]; intros [| n ns] H; try discriminate H;
    [reflexivity |].
  cbn [map] in *. injection H as Hk H. unfold pickS at 1. rewrite Hk, (IH _ H). reflexivity.
Qed.

Lemma pickN_none ks :
  Exists (fun k => dynamodb.N k = None) ks -> Exists (fun k => pickN k = None) ks.
Proof.
  apply Exists_impl. intros k H. unfold pickN. rewrite H. reflexivity.
Qed.

Lemma pickS_none ks :
  Exists (fun k => dynamodb.S k = None) ks -> Exists (fun k => pickS k = None) ks.
Proof.
  apply Exists_impl. intros k H. unfold pickS. rewrite H. reflexivity.
Qed.

(** C9 (as amended).  A []byte is encoded as a binary whatever the option.
    For any other sequence, on the binary-set branch (the [binaryset] option,
    or a value of type [][]byte) the elements that element-level omission
    keeps are checked in input order: when each of their encodings is a
    binary the result is the binary set of these, in that order (null when
    none is kept), and when one of them is not the encoder fails with the
    set-element error.  The same holds on the number-set branch
    ([numberset], when the binary-set branch does not apply) with numbers
    and on the string-set branch ([stringset], when neither of the other
    two applies) with strings. *)
Theorem C9_kept_set_elements_checked_in_order : forall enc av v fieldTag,
  (isByteSlice (typeOf v) = true ->
     encodeSlice enc av v fieldTag
     = Ok (match map byteOf (elemsOf v) with
           | [] => nullAV
           | b => setB av (Some b)
           end))
  /\ (isByteSlice (typeOf v) = false ->
      forall ks, keptElems enc fieldTag (elemsOf v) = Ok ks ->
      (AsBinSet fieldTag || isByteSliceSlice (typeOf v) = true ->
         (forall bs, map dynamodb.B ks = map Some bs ->
            encodeSlice enc av v fieldTag
            = Ok (match ks with [] => nullAV | _ => setBS av (Some bs) end))
         /\ (Exists (fun k => dynamodb.B k = None) ks ->
             encodeSlice enc av v fieldTag = Err (InvalidMarshalError binSetMsg)))
      /\ (AsBinSet fieldTag || isByteSliceSlice (typeOf v) = false ->
          AsNumSet fieldTag = true ->
          (forall ns, map dynamodb.N ks = map Some ns ->
             encodeSlice enc av v fieldTag
             = Ok (match ks with [] => nullAV | _ => setNS av (Some (map Some ns)) end))
          /\ (Exists (fun k => dynamodb.N k = None) ks ->
              encodeSlice enc av v fieldTag = Err (InvalidMarshalError numSetMsg)))
      /\ (AsBinSet fieldTag || isByteSliceSlice (typeOf v) = false ->
          AsNumSet fieldTag = false -> AsStrSet fieldTag = true ->
          (forall ss, map dynamodb.S ks = map Some ss ->
             encodeSlice enc av v fieldTag
             = Ok (match ks with [] => nullAV | _ => setSS av (Some (map Some ss)) end))
          /\ (Exists (fun k => dynamodb.S k = None) ks ->
              encodeSlice enc av v fieldTag = Err (InvalidMarshalError strSetMsg)))).
Proof.
  intros enc av v fieldTag. split.
  { intros Hb. unfold encodeSlice. rewrite Hb.
    destruct (map byteOf (elemsOf v)); reflexivity. }
  intros Hb ks Hk.
  split; [| split].
  - intros Ht. unfold encodeSlice, encodeList. rewrite Hb, Ht.
    rewrite (encodeListLoop_kept enc fieldTag _ _ _ _ _ Hk). split.
    + intros bs Hm.
      pose proof (appendAll_ok dynamodb.BS setBS dynamodb.B binSetMsg
                    (fun _ _ => eq_refl) (fun _ _ _ => eq_refl) setBS_get
                    ks bs O (setBS av (Some [])) [] eq_refl Hm) as H.
      change (appendAll elemFnBS ks 0 (setBS av (Some []))
              = Ok ((0 + List.length ks)%nat, setBS av (Some bs))) in H.
      rewrite H. destruct ks; reflexivity.
    + intros Hex.
      pose proof (appendAll_err dynamodb.BS setBS dynamodb.B binSetMsg
                    ks O (setBS av (Some [])) Hex) as H.
      change (appendAll elemFnBS ks 0 (setBS av (Some []))
              = Err (InvalidMarshalError binSetMsg)) in H.
      rewrite H. reflexivity.
  - intros Hbs Ht. unfold encodeSlice, encodeList. rewrite Hb, Hbs, Ht.
    rewrite (encodeListLoop_kept enc fieldTag _ _ _ _ _ Hk).
    rewrite (appendAll_ext _ _ elemFnNS_shape). split.
    + intros ns Hm.
      rewrite (appendAll_ok dynamodb.NS setNS pickN numSetMsg
                 (fun _ _ => eq_refl) (fun _ _ _ => eq_refl) setNS_get
                 ks (map Some ns) O (setNS av (Some [])) [] eq_refl (pickN_map _ _ Hm)).
      destruct ks; reflexivity.
    + intros Hex.
      rewrite (appendAll_err dynamodb.NS setNS pickN numSetMsg
                 ks O (setNS av (Some [])) (pickN_none _ Hex)).
      reflexivity.
  - intros Hbs Hns Ht. unfold encodeSlice, encodeList. rewrite Hb, Hbs, Hns, Ht.
    rewrite (encodeListLoop_kept enc fieldTag _ _ _ _ _ Hk).
    rewrite (appendAll_ext _ _ elemFnSS_shape). split.
    + intros ss Hm.
      rewrite (appendAll_ok dynamodb.SS setSS pickS strSetMsg
                 (fun _ _ => eq_refl) (fun _ _ _ => eq_refl) setSS_get
                 ks (map Some ss) O (setSS av (Some [])) [] eq_refl (pickS_map _ _ Hm)).
      destruct ks; reflexivity.
    + intros Hex.
      rewrite (appendAll_err dynamodb.SS setSS pickS strSetMsg
                 ks O (setSS av (Some [])) (pickS_none _ Hex)).
      reflexivity.
Qed.

Lemma byteSliceSlice_not_byteSlice t :
  isByteSliceSlice t = true -> isByteSlice t = false.
Proof.
  destruct t as [| | | | | | t' | | | | | | | |]; try discriminate.
  destruct t' as [| | | | | | t'' | | | | | | | |]; try discriminate. reflexivity.
Qed.

End Properties.

(** ** Round trip *)

Section RoundTrip.
Context {FO : FloatOps}.
Variable e : Encoder.
Variable d : Decoder.

Lemma All_Forall {A} (P : A -> Prop) l : All P l <-> Forall P l.
Proof.
  induction l as [| x l IH]; cbn [All]; split; intros H.
  - constructor.
  - exact I.
  - destruct H as [Hx Hl]. constructor; [assumption | apply IH; assumption].
  - inversion H; subst. split; [assumption | apply IH; assumption].
Qed.

Lemma indirect_Zero t :
  indirect (Zero t) true false = Ok (fst (indirectNew t), snd (indirectNew t), true).
Proof.
  destruct t; try reflexivity; try (destruct k; reflexivity).
  (* pointer: the nil pointer is allocated and the walk goes on in the pointee *)
  unfold indirect. cbn [Zero kindOf isPtrKind negb andb indirectLoop kindOfV setv bind indirectNew].
  destruct (indirectNew t) as [fs x]. reflexivity.
Qed.

(** Through the non-nil pointer handed to [Decode] the decoder reaches the
    pointee as a settable location. *)
Lemma decode_through_pointer n av t z fieldTag :
  decode (Datatypes.S n) d av (VPtr t (Some z)) false fieldTag
  = (y <- decode (Datatypes.S n) d av z true fieldTag ;; Ok (VPtr t (Some y))).
Proof.
  cbn [decode]. rewrite !indirect_loop. unfold indirect.
  cbn [kindOf isPtrKind negb andb indirectLoop kindOfV].
  rewrite !Bool.andb_false_r.
  destruct (isNullAV av).
  - destruct (indirectLoop z true true) as [[[fs x] cs] | | |]; cbn [bind]; try reflexivity.
    destruct (decodeNull x cs); reflexivity.
  - destruct (indirectLoop z true false) as [[[fs x] cs] | | |]; cbn [bind]; try reflexivity.
    destruct (decodeSwitch _ _ _ _ _); reflexivity.
Qed.

Lemma updateNth_middle {A} (done : list A) z zs x :
  updateNth (done ++ z :: zs) (List.length done) x = (done ++ x :: zs)%list.
Proof. induction done as [| y done IH]; cbn; [reflexivity | rewrite IH; reflexivity]. Qed.

Lemma sliceLoop_fill decElem t : forall zs xs done,
  List.length xs = List.length zs ->
  (forall k z x, nth_error zs k = Some z -> nth_error xs k = Some x ->
                 decElem (List.length done + k)%nat z = Ok x) ->
  sliceLoop decElem (List.length zs) (List.length done)
            (VSlice t (done ++ zs) (List.length done)) true
  = Ok (VSlice t (done ++ xs) (List.length done + List.length zs)).
Proof.
  induction zs as [| z zs IH]; intros xs done Hlen H; destruct xs as [| x xs];
    try discriminate Hlen.
  - cbn [sliceLoop List.length]. rewrite Nat.add_0_r. reflexivity.
  - cbn [sliceLoop List.length]. unfold SetLen.
    replace (Nat.leb (List.length done + 1) (List.length (done ++ z :: zs))) with true
      by (symmetry; apply Nat.leb_le; rewrite List.length_app; cbn; lia).
    cbn [setv bind]. unfold Index. cbn [elemsOf].
    rewrite nth_error_firstn.
    replace (Nat.ltb (List.length done) (List.length done + 1)) with true
      by (symmetry; apply Nat.ltb_lt; lia).
    rewrite nth_error_app2, Nat.sub_diag by lia. cbn [nth_error bind].
    pose proof (H O z x eq_refl eq_refl) as H0. rewrite Nat.add_0_r in H0. rewrite H0.
    cbn [bind setIndex]. rewrite updateNth_middle.
    replace (done ++ x :: zs)%list with ((done ++ [x]) ++ zs)%list
      by (rewrite <- List.app_assoc; reflexivity).
    replace (List.length done + 1)%nat with (List.length (done ++ [x]))
      by (rewrite List.length_app; reflexivity).
    rewrite (IH xs (done ++ [x])%list).
    + rewrite <- List.app_assoc, List.length_app. cbn [List.length List.app].
      f_equal. f_equal. lia.
    + cbn in Hlen. lia.
    + intros k z' x' Hz Hx. rewrite List.length_app. cbn [List.length].
      replace (List.length done + 1 + k)%nat with (List.length done + Datatypes.S k)%nat by lia.
      apply H; assumption.
Qed.

Lemma decode_Zero n av t fieldTag :
  isNullAV (Some av) = false ->
  decode (Datatypes.S n) d (Some av) (Zero t) true fieldTag
  = (x <- decodeSwitch (decode n d) av (snd (indirectNew t)) true fieldTag ;;
     Ok (plug (fst (indirectNew t)) x)).
Proof.
  intros H. cbn [decode]. rewrite H, indirect_Zero. reflexivity.
Qed.

Lemma encodeSlice_no_elems enc av v fieldTag :
  elemsOf v = [] -> encodeSlice enc av v fieldTag = Ok nullAV.
Proof.
  intros H. unfold encodeSlice, encodeList. rewrite H. cbn [map List.length Nat.eqb encodeListLoop].
  destruct (isByteSlice (typeOf v)); [reflexivity |].
  destruct (AsBinSet fieldTag || isByteSliceSlice (typeOf v));
    [| destruct (AsNumSet fieldTag); [| destruct (AsStrSet fieldTag)]]; reflexivity.
Qed.

Lemma bytesValue_byteOf arr :
  All (fun x => typeOf x = TUint KUint8 /\ lossless e x
                /\ (isByteSlice (TUint KUint8) = true -> nonNull e x = true)) arr ->
  bytesValue (map byteOf arr) = arr.
Proof.
  induction arr as [| x arr IH]; cbn [All map bytesValue]; [reflexivity |].
  intros [(Ht & _) Hrest]. unfold bytesValue in IH. rewrite (IH Hrest).
  destruct x; try discriminate Ht. cbn in Ht. injection Ht as ->. reflexivity.
Qed.

Lemma byteSlice_round_trip x k :
  typeOf x = TSlice (TUint KUint8) -> lossless e x -> nonNull e x = true ->
  encode (Datatypes.S k) e emptyAV x tag0 = Ok (setB emptyAV (Some (bytesOf x)))
  /\ bytesOf x <> []
  /\ decodeBinary (bytesOf x) (VSliceNil (TUint KUint8)) true = Ok x.
Proof.
  intros Ht Hl Hn. destruct x; try discriminate Ht; try discriminate Hn.
  cbn in Ht. injection Ht as ->. cbn [lossless] in Hl. destruct Hl as (Hlen & Hne & Hall).
  subst len. unfold bytesOf. cbn [elemsOf]. rewrite firstn_all.
  destruct arr as [| x0 arr]; [contradiction |].
  repeat split.
  - cbn [encode tryMarshaler valueElem OmitEmpty tag0 andb kindOf]. unfold encodeSlice.
    cbn [typeOf isByteSlice elemsOf]. rewrite firstn_all. reflexivity.
  - discriminate.
  - unfold decodeBinary. cbn [kindOf typeOf isByteSlice setv].
    rewrite (bytesValue_byteOf _ Hall), List.length_map. reflexivity.
Qed.

Lemma int_range k z : OverflowInt k z = false -> - 2 ^ 63 <= z < 2 ^ 63.
Proof.
  unfold OverflowInt. intros H. apply Bool.negb_false_iff, andb_prop in H.
  destruct H as [H1 H2]. apply Z.leb_le in H1. apply Z.ltb_lt in H2.
  destruct k; cbn in H1, H2; lia.
Qed.

Lemma uint_range k z : OverflowUint k z = false -> 0 <= z <= maxUint64.
Proof.
  unfold OverflowUint, maxUint64. intros H. apply Bool.negb_false_iff, andb_prop in H.
  destruct H as [H1 H2]. apply Z.leb_le in H1. apply Z.ltb_lt in H2.
  destruct k; cbn in H1, H2; lia.
Qed.

Lemma RT_bool b n : RT e d (Datatypes.S n) (VBool b).
Proof. eexists. repeat split; try reflexivity; discriminate. Qed.

Lemma RT_int k z n : OverflowInt k z = false -> RT e d (Datatypes.S n) (VInt k z).
Proof.
  intros H. exists (setN emptyAV (Some (FormatInt z))).
  split; [reflexivity |]. split; [discriminate |]. split; [reflexivity |].
  rewrite decode_Zero by reflexivity.
  cbn [typeOf indirectNew fst snd Zero]. unfold decodeSwitch.
  cbn [setN emptyAV dynamodb.B dynamodb.BOOL dynamodb.BS dynamodb.L dynamodb.M dynamodb.N
       olen List.length Nat.eqb negb isSome].
  unfold decodeNumber. cbn [kindOf deref bind].
  rewrite (ParseInt_FormatInt _ (int_range _ _ H)), H. reflexivity.
Qed.

Lemma RT_uint k z n :
  k <> KUintptr -> OverflowUint k z = false -> RT e d (Datatypes.S n) (VUint k z).
Proof.
  intros Hk H. exists (setN emptyAV (Some (FormatUint z))).
  split; [destruct k; try reflexivity; congruence |].
  split; [discriminate |]. split; [reflexivity |].
  rewrite decode_Zero by reflexivity.
  cbn [typeOf indirectNew fst snd Zero]. unfold decodeSwitch.
  cbn [setN emptyAV dynamodb.B dynamodb.BOOL dynamodb.BS dynamodb.L dynamodb.M dynamodb.N
       olen List.length Nat.eqb negb isSome].
  unfold decodeNumber. cbn [kindOf].
  destruct k; try congruence; cbn [deref bind];
    rewrite (ParseUint_FormatUint _ (uint_range _ _ H)), H; reflexivity.
Qed.

Lemma RT_float64 f n :
  ParseFloat (FormatFloat f) = inl f -> RT e d (Datatypes.S n) (VFloat64 f).
Proof.
  intros H. exists (setN emptyAV (Some (FormatFloat f))).
  split; [reflexivity |]. split; [discriminate |]. split; [reflexivity |].
  rewrite decode_Zero by reflexivity.
  cbn [typeOf indirectNew fst snd Zero]. unfold decodeSwitch.
  cbn [setN emptyAV dynamodb.B dynamodb.BOOL dynamodb.BS dynamodb.L dynamodb.M dynamodb.N
       olen List.length Nat.eqb negb isSome].
  unfold decodeNumber. cbn [kindOf deref bind]. rewrite H. reflexivity.
Qed.

Lemma RT_float32 f n :
  ParseFloat (FormatFloat f) = inl f -> overflowFloat32 f = false -> toFloat32 f = f ->
  RT e d (Datatypes.S n) (VFloat32 f).
Proof.
  intros H Ho Ht. exists (setN emptyAV (Some (FormatFloat f))).
  split; [reflexivity |]. split; [discriminate |]. split; [reflexivity |].
  rewrite decode_Zero by reflexivity.
  cbn [typeOf indirectNew fst snd Zero]. unfold decodeSwitch.
  cbn [setN emptyAV dynamodb.B dynamodb.BOOL dynamodb.BS dynamodb.L dynamodb.M dynamodb.N
       olen List.length Nat.eqb negb isSome].
  unfold decodeNumber. cbn [kindOf deref bind]. rewrite H, Ho, Ht. reflexivity.
Qed.

Lemma RT_string s n : RT e d (Datatypes.S n) (VString s).
Proof.
  unfold RT. cbn [encode tryMarshaler valueElem OmitEmpty tag0 andb kindOf nonNull typeOf Zero].
  unfold encodeScalar, encodeString, tryMarshaler.
  destruct (Nat.eqb (String.length s) 0 && NullEmptyString e) eqn:E.
  - apply andb_prop in E. destruct E as [E _]. destruct s; [| discriminate E].
    exists nullAV. split; [reflexivity |]. split; [reflexivity |].
    split; [discriminate | reflexivity].
  - exists (setS emptyAV (Some s)). split; [reflexivity |]. split; [discriminate |].
    split; reflexivity.
Qed.

(** *** The any-type target *)

Lemma encodeNumber_numText av x :
  exactNumber x -> encodeNumber av x = Ok (setN av (Some (numText x))).
Proof.
  destruct x; cbn [exactNumber]; try contradiction; intros Hr; try reflexivity.
  destruct Hr as [Hk _]. destruct k; try reflexivity. congruence.
Qed.

Lemma decodeNumber_numText x :
  exactNumber x -> decodeNumber (Some (numText x)) (Zero (typeOf x)) true = Ok x.
Proof.
  destruct x; cbn [exactNumber]; try contradiction; intros Hr;
    unfold decodeNumber; cbn [typeOf Zero kindOf numText].
  - cbn [deref bind]. rewrite (ParseInt_FormatInt _ (int_range _ _ Hr)), Hr. reflexivity.
  - destruct Hr as [Hk Hr]. destruct k; try congruence; cbn [deref bind];
      rewrite (ParseUint_FormatUint _ (uint_range _ _ Hr)), Hr; reflexivity.
  - destruct Hr as (Hp & Ho & Ht). cbn [deref bind]. rewrite Hp, Ho, Ht. reflexivity.
  - cbn [deref bind]. rewrite Hr. reflexivity.
Qed.


Lemma decode_into_interface n av :
  isNullAV (Some av) = false ->
  decode (Datatypes.S n) d (Some av) (VIface None) true tag0
  = decodeSwitch (decode n d) av (VIface None) true tag0.
Proof.
  intros H. change (VIface None) with (Zero TInterface) at 1.
  rewrite decode_Zero by exact H. cbn [indirectNew fst snd Zero plug].
  destruct (decodeSwitch _ _ _ _ _); reflexivity.
Qed.

Lemma RT_of_RTany n v : RTany e d n v -> RT e d n v.
Proof. intros (av & He & H1 & H2 & Hd & _). exists av. auto. Qed.

Lemma RTany_of_RT n v : (generic v -> False) -> RT e d n v -> RTany e d n v.
Proof.
  intros G (av & He & H1 & H2 & Hd). exists av.
  split; [exact He |]. split; [exact H1 |]. split; [exact H2 |]. split; [exact Hd |].
  intros g. destruct (G g).
Qed.

Lemma RTany_bool b n : RTany e d (Datatypes.S n) (VBool b).
Proof.
  exists (setBOOL emptyAV (Some b)).
  split; [reflexivity |]. split; [discriminate |]. split; [reflexivity |].
  split; [reflexivity |]. intros _ _. rewrite decode_into_interface by reflexivity.
  reflexivity.
Qed.

Lemma RTany_number x n :
  RT e d (Datatypes.S n) x -> exactNumber x ->
  (generic x -> decodeNumberToInterface (numText x) = Ok x) ->
  RTany e d (Datatypes.S n) x.
Proof.
  intros (av & He & H1 & H2 & Hd) Hx Hg. exists av.
  split; [exact He |]. split; [exact H1 |]. split; [exact H2 |]. split; [exact Hd |].
  intros G _. specialize (Hg G).
  assert (av = setN emptyAV (Some (numText x))) as ->.
  { pose proof (encodeNumber_numText emptyAV x Hx) as Hn.
    destruct x; cbn [exactNumber] in Hx; try contradiction;
      cbn [encode tryMarshaler valueElem OmitEmpty tag0 andb kindOf] in He;
      unfold encodeScalar in He; rewrite Hn in He; cbn [bind] in He;
      cbn [AsString tag0 andb] in He; congruence. }
  rewrite decode_into_interface by reflexivity. unfold decodeSwitch.
  cbn [setN emptyAV dynamodb.B dynamodb.BOOL dynamodb.BS dynamodb.L dynamodb.M dynamodb.N
       olen List.length Nat.eqb negb isSome].
  unfold decodeNumber. cbn [kindOf deref bind]. rewrite Hg. reflexivity.
Qed.

Lemma RTany_int k z n : OverflowInt k z = false -> RTany e d (Datatypes.S n) (VInt k z).
Proof.
  intros H. apply RTany_number; [apply RT_int; exact H | exact H |].
  cbn [generic numText]. intros ->. unfold decodeNumberToInterface.
  rewrite (ParseInt_FormatInt _ (int_range _ _ H)). reflexivity.
Qed.

Lemma RTany_uint k z n :
  k <> KUintptr -> OverflowUint k z = false -> RTany e d (Datatypes.S n) (VUint k z).
Proof.
  intros Hk H. apply RTany_number; [apply RT_uint; assumption | split; assumption |].
  cbn [generic numText]. intros [-> Hz]. unfold decodeNumberToInterface.
  pose proof (uint_range _ _ H) as Hr.
  rewrite (ParseInt_FormatUint_range z) by lia.
  rewrite (ParseUint_FormatUint _ Hr). reflexivity.
Qed.

Lemma RTany_float64 f n :
  ParseFloat (FormatFloat f) = inl f -> RTany e d (Datatypes.S n) (VFloat64 f).
Proof.
  intros H. apply RTany_number; [apply RT_float64; exact H | exact H |].
  cbn [generic numText]. unfold floatText, decodeNumberToInterface.
  destruct (ParseInt (FormatFloat f)); [contradiction |].
  destruct (ParseUint (FormatFloat f)); [contradiction |]. rewrite H. reflexivity.
Qed.

Lemma RTany_string s n : RTany e d (Datatypes.S n) (VString s).
Proof.
  destruct (RT_string s n) as (av & He & H1 & H2 & Hd). exists av.
  split; [exact He |]. split; [exact H1 |]. split; [exact H2 |]. split; [exact Hd |].
  intros _ Hn. cbn [nonNull] in Hn. apply Bool.negb_true_iff in Hn.
  cbn [encode tryMarshaler valueElem OmitEmpty tag0 andb kindOf] in He.
  unfold encodeScalar, encodeString, tryMarshaler in He. rewrite Hn in He.
  injection He as <-. rewrite decode_into_interface by reflexivity. reflexivity.
Qed.

Lemma mapOutcome_Forall2 {A C} (f : A -> outcome C) : forall l cs,
  Forall2 (fun a c => f a = Ok c) l cs -> mapOutcome f l = Ok cs.
Proof.
  induction 1 as [| a c l cs Hac _ IH]; [reflexivity |].
  cbn [mapOutcome]. rewrite Hac. cbn [bind]. rewrite IH. reflexivity.
Qed.

Lemma Forall2_map_Some {A C} (R : option A -> C -> Prop) l cs :
  Forall2 (fun a c => R (Some a) c) l cs -> Forall2 R (map Some l) cs.
Proof. induction 1; cbn [map]; constructor; assumption. Qed.

Lemma Forall2_nth_error {A C} (R : A -> C -> Prop) l1 l2 :
  Forall2 R l1 l2 ->
  forall k a b, nth_error l1 k = Some a -> nth_error l2 k = Some b -> R a b.
Proof.
  induction 1 as [| a0 b0 l1 l2 H0 _ IH]; intros k a b Ha Hb.
  - destruct k; discriminate Ha.
  - destruct k as [| k]; cbn in Ha, Hb.
    + injection Ha as <-. injection Hb as <-. exact H0.
    + exact (IH k a b Ha Hb).
Qed.

Lemma nth_error_repeat_inv {A} (z z' : A) n k :
  nth_error (repeat z n) k = Some z' -> z' = z.
Proof.
  revert k. induction n as [| n IH]; intros [| k] H; cbn in H; try discriminate.
  - congruence.
  - exact (IH k H).
Qed.

(** Filling a fresh slice from [n] wire elements *)
Lemma sliceLoop_fresh decElem t xs :
  (forall k x, nth_error xs k = Some x -> decElem k (Zero t) = Ok x) ->
  sliceLoop decElem (List.length xs) O (VSlice t (repeat (Zero t) (List.length xs)) O) true
  = Ok (VSlice t xs (List.length xs)).
Proof.
  intros H.
  pose proof (sliceLoop_fill decElem t (repeat (Zero t) (List.length xs)) xs []) as Hf.
  rewrite repeat_length in Hf. cbn [List.app List.length Nat.add] in Hf.
  apply Hf; [reflexivity |].
  intros k z x Hz Hx. rewrite (nth_error_repeat_inv _ _ _ _ Hz). exact (H k x Hx).
Qed.

Lemma decodeList_fill dec t avs xs :
  Forall2 (fun av x => dec (Some av) (Zero t) true tag0 = Ok x) avs xs ->
  decodeList dec (map Some avs) (VSliceNil t) true = Ok (VSlice t xs (List.length xs)).
Proof.
  intros H. pose proof (Forall2_length H) as Hlen.
  unfold decodeList, makeRoom, MakeSlice.
  cbn [kindOf sliceIsNil orb setv bind typeOf elemType capOf].
  rewrite repeat_length, Nat.min_id, List.length_map, Hlen.
  apply sliceLoop_fresh. intros k x Hx.
  destruct (nth_error avs k) as [av |] eqn:Hav.
  - rewrite (nth_error_nth (map Some avs) k None (x := Some av))
      by (rewrite nth_error_map, Hav; reflexivity).
    exact (Forall2_nth_error _ _ _ H k av x Hav Hx).
  - apply nth_error_None in Hav. assert (k < List.length xs)%nat by (apply nth_error_Some; congruence).
    lia.
Qed.

Lemma decodeBinarySet_fill xs :
  Forall (fun x => decodeBinary (bytesOf x) (VSliceNil (TUint KUint8)) true = Ok x) xs ->
  decodeBinarySet (map bytesOf xs) (VSliceNil (TSlice (TUint KUint8))) true
  = Ok (VSlice (TSlice (TUint KUint8)) xs (List.length xs)).
Proof.
  intros H.
  unfold decodeBinarySet, makeRoom, MakeSlice.
  cbn [kindOf sliceIsNil orb setv bind typeOf elemType capOf].
  rewrite repeat_length, Nat.min_id, List.length_map.
  apply sliceLoop_fresh. intros k x Hx.
  unfold decodeSetElem. cbn [Zero]. rewrite indirect_loop. cbn [indirectLoop bind].
  rewrite (nth_error_nth (map bytesOf xs) k [] (x := bytesOf x))
    by (rewrite nth_error_map, Hx; reflexivity).
  rewrite Forall_forall in H. rewrite (H x (nth_error_In _ _ Hx)). reflexivity.
Qed.

Lemma keptElems_all_ok enc fieldTag xs avs :
  OmitEmptyElem fieldTag = false ->
  Forall2 (fun x av => enc x tag0 = Ok av) xs avs ->
  keptElems enc fieldTag xs = Ok avs.
Proof.
  intros Ho. induction 1 as [| x av xs avs Hx _ IH]; [reflexivity |].
  cbn [keptElems]. rewrite Ho. change (mkTag false false false false false false) with tag0.
  rewrite Hx, IH. cbn [keepOrOmitEmpty]. rewrite Bool.andb_false_r. reflexivity.
Qed.

Lemma Forall_RT_encodings m t arr :
  Forall (fun x => typeOf x = t /\ RT e d m x) arr ->
  exists avs,
    Forall2 (fun x av => encode m e emptyAV x tag0 = Ok av) arr avs
    /\ Forall2 (fun av x => decode m d (Some av) (Zero t) true tag0 = Ok x) avs arr.
Proof.
  induction 1 as [| x arr [Ht (av & He & _ & _ & Hd)] _ (avs & IH1 & IH2)].
  - exists []. split; constructor.
  - exists (av :: avs). rewrite Ht in Hd. split; constructor; assumption.
Qed.

Lemma pickL_map avs : map pickL avs = map Some (map Some avs).
Proof. induction avs as [| a avs IH]; cbn [map]; [| rewrite IH]; reflexivity. Qed.

Lemma RT_slice_list t arr m :
  isByteSlice (TSlice t) = false -> isByteSlice t = false -> arr <> [] ->
  Forall (fun x => typeOf x = t /\ RT e d m x) arr ->
  RTany e d (Datatypes.S m) (VSlice t arr (List.length arr)).
Proof.
  intros Hb Hbb Hne Hall.
  destruct (Forall_RT_encodings _ _ _ Hall) as (avs & Henc & Hdec).
  pose proof (Forall2_length Henc) as Hlen.
  assert (Hnz : Nat.eqb (List.length avs) 0 = false)
    by (apply Nat.eqb_neq; destruct arr; [contradiction | rewrite <- Hlen; discriminate]).
  exists (setL emptyAV (Some (map Some avs))).
  split; [| split; [| split; [| split]]].
  - cbn [encode tryMarshaler valueElem OmitEmpty tag0 andb kindOf]. unfold encodeSlice, encodeList.
    cbn [typeOf elemsOf]. rewrite Hb, firstn_all.
    change (isByteSliceSlice (TSlice t)) with (isByteSlice t). rewrite Hbb.
    cbn [AsBinSet AsNumSet AsStrSet tag0 orb].
    rewrite (encodeListLoop_kept _ _ _ _ _ _ _ (keptElems_all_ok _ tag0 _ _ eq_refl Henc)).
    pose proof (appendAll_ok dynamodb.L setL pickL ""
                  (fun _ _ => eq_refl) (fun _ _ _ => eq_refl) setL_get
                  avs (map Some avs) O (setL emptyAV (Some [])) [] eq_refl (pickL_map _)) as H.
    change (appendAll elemFnL avs 0 (setL emptyAV (Some []))
            = Ok ((0 + List.length avs)%nat, setL emptyAV (Some (map Some avs)))) in H.
    rewrite H. cbn [bind fst snd Nat.add]. rewrite Hnz. reflexivity.
  - cbn [nonNull]. intros H. apply Bool.negb_false_iff, Nat.eqb_eq in H.
    destruct arr; [contradiction | discriminate H].
  - reflexivity.
  - rewrite decode_Zero by reflexivity.
    cbn [typeOf indirectNew fst snd Zero plug]. unfold decodeSwitch.
    cbn [setL emptyAV dynamodb.B dynamodb.BOOL dynamodb.BS dynamodb.L olen orNil].
    rewrite List.length_map, Hnz. cbn [List.length Nat.eqb negb].
    rewrite (decodeList_fill _ _ _ _ Hdec). reflexivity.
  - cbn [generic]. rewrite Hb, Hbb. intros [G | [G | ->]] _; try discriminate G.
    rewrite decode_into_interface by reflexivity. unfold decodeSwitch.
    cbn [setL emptyAV dynamodb.B dynamodb.BOOL dynamodb.BS dynamodb.L olen orNil].
    rewrite List.length_map, Hnz. cbn [List.length Nat.eqb negb].
    unfold decodeList. cbn [kindOf].
    rewrite (mapOutcome_Forall2 _ _ arr)
      by (apply Forall2_map_Some with (R := fun a c => decode m d a (Zero TInterface) true tag0
                                                        = Ok c); exact Hdec).
    cbn [bind setv]. rewrite List.length_map, Hlen. reflexivity.
Qed.

Lemma RT_slice_bytes arr m :
  lossless e (VSlice (TUint KUint8) arr (List.length arr)) ->
  RTany e d (Datatypes.S m) (VSlice (TUint KUint8) arr (List.length arr)).
Proof.
  intros Hl.
  assert (Hn : nonNull e (VSlice (TUint KUint8) arr (List.length arr)) = true).
  { cbn [lossless] in Hl. destruct Hl as (_ & Hne & _). cbn [nonNull].
    apply Bool.negb_true_iff, Nat.eqb_neq. exact Hne. }
  destruct (byteSlice_round_trip (VSlice (TUint KUint8) arr (List.length arr)) m
              eq_refl Hl Hn) as (Henc & Hne & Hdec).
  exists (setB emptyAV (Some (bytesOf (VSlice (TUint KUint8) arr (List.length arr))))).
  split; [exact Henc |]. split; [congruence |]. split; [reflexivity |].
  split.
  - rewrite decode_Zero by reflexivity.
    cbn [typeOf indirectNew fst snd Zero plug]. unfold decodeSwitch.
    cbn [setB emptyAV dynamodb.B olen orNil].
    destruct (bytesOf (VSlice (TUint KUint8) arr (List.length arr))) as [| b0 bs] eqn:E;
      [contradiction |].
    cbn [List.length Nat.eqb negb]. rewrite Hdec. reflexivity.
  - intros _ _. rewrite decode_into_interface by reflexivity. unfold decodeSwitch.
    cbn [setB emptyAV dynamodb.B olen orNil].
    destruct (bytesOf (VSlice (TUint KUint8) arr (List.length arr))) as [| b0 bs] eqn:E;
      [contradiction |].
    cbn [List.length Nat.eqb negb].
    unfold decodeBinary in Hdec |- *. cbn [kindOf typeOf isByteSlice setv] in Hdec |- *.
    congruence.
Qed.

Lemma RT_slice_byteSlices arr m :
  lossless e (VSlice (TSlice (TUint KUint8)) arr (List.length arr)) ->
  RTany e d (Datatypes.S (Datatypes.S m))
        (VSlice (TSlice (TUint KUint8)) arr (List.length arr)).
Proof.
  intros Hl. cbn [lossless] in Hl. destruct Hl as (_ & Hne & Hall).
  apply All_Forall in Hall.
  assert (Hel : Forall (fun x =>
             encode (Datatypes.S m) e emptyAV x tag0 = Ok (setB emptyAV (Some (bytesOf x)))
             /\ bytesOf x <> []
             /\ decodeBinary (bytesOf x) (VSliceNil (TUint KUint8)) true = Ok x) arr).
  { eapply Forall_impl; [| exact Hall]. intros x (Ht & Hlx & Hnx).
    apply byteSlice_round_trip; auto. }
  assert (Hnz : Nat.eqb (List.length arr) 0 = false) by (apply Nat.eqb_neq; exact Hne).
  exists (setBS emptyAV (Some (map bytesOf arr))).
  split; [| split; [| split; [| split]]].
  - cbn [encode tryMarshaler valueElem OmitEmpty tag0 andb kindOf]. unfold encodeSlice, encodeList.
    cbn [typeOf elemsOf isByteSlice isByteSliceSlice AsBinSet tag0 orb]. rewrite firstn_all.
    rewrite (encodeListLoop_kept _ _ _ _
               (map (fun x => setB emptyAV (Some (bytesOf x))) arr)).
    + pose proof (appendAll_ok dynamodb.BS setBS dynamodb.B binSetMsg
                    (fun _ _ => eq_refl) (fun _ _ _ => eq_refl) setBS_get
                    (map (fun x => setB emptyAV (Some (bytesOf x))) arr) (map bytesOf arr)
                    O (setBS emptyAV (Some [])) [] eq_refl) as H.
      change (map dynamodb.B (map (fun x => setB emptyAV (Some (bytesOf x))) arr)
              = map Some (map bytesOf arr) ->
              appendAll elemFnBS (map (fun x => setB emptyAV (Some (bytesOf x))) arr) 0
                        (setBS emptyAV (Some []))
              = Ok ((0 + List.length (map (fun x => setB emptyAV (Some (bytesOf x))) arr))%nat,
                    setBS emptyAV (Some (map bytesOf arr)))) in H.
      rewrite H by (rewrite !List.map_map; reflexivity).
      cbn [bind fst snd Nat.add]. rewrite List.length_map, Hnz. reflexivity.
    + apply keptElems_all_ok; [reflexivity |]. clear Hnz Hne Hall.
      induction Hel as [| x arr (Hx & _) _ IH]; constructor; assumption.
  - cbn [nonNull]. rewrite Hnz. discriminate.
  - reflexivity.
  - rewrite decode_Zero by reflexivity.
    cbn [typeOf indirectNew fst snd Zero plug]. unfold decodeSwitch.
    cbn [setBS emptyAV dynamodb.B dynamodb.BOOL dynamodb.BS olen orNil].
    rewrite List.length_map, Hnz. cbn [List.length Nat.eqb negb].
    rewrite decodeBinarySet_fill; [reflexivity |].
    eapply Forall_impl; [| exact Hel]. intros x (_ & _ & H). exact H.
  - intros _ _. rewrite decode_into_interface by reflexivity. unfold decodeSwitch.
    cbn [setBS emptyAV dynamodb.B dynamodb.BOOL dynamodb.BS olen orNil].
    rewrite List.length_map, Hnz. cbn [List.length Nat.eqb negb].
    unfold decodeBinarySet. cbn [kindOf Zero].
    rewrite (mapOutcome_Forall2 _ _ arr).
    + cbn [bind setv]. rewrite List.length_map. reflexivity.
    + clear Hnz Hne Hall.
      induction Hel as [| x arr (_ & _ & Hx) _ IH]; cbn [map]; constructor; assumption.
Qed.

(** *** Records *)

Lemma RT_RTf n v : RT e d n v -> RTf e d n tag0 v.
Proof. intros H. exact H. Qed.

Lemma mapSet_fresh {A} k (x : A) m :
  ~ In k (map fst m) -> mapSet k x m = (m ++ [(k, x)])%list.
Proof.
  induction m as [| [k' x'] m IH]; cbn [mapSet map fst In List.app]; intros H; [reflexivity |].
  destruct (String.eqb k k') eqn:E.
  - apply String.eqb_eq in E. subst. tauto.
  - rewrite IH by tauto. reflexivity.
Qed.

(** The options of a field other than [omitempty] are read by the callees
    of [encode] alone, and [omitempty] by [encode] alone. *)
Lemma encodeMapEntries_tag enc t t' :
  OmitEmptyElem t = OmitEmptyElem t' ->
  forall es acc, encodeMapEntries enc t es acc = encodeMapEntries enc t' es acc.
Proof.
  intros H. induction es as [| [k x] es IH]; intros acc; cbn [encodeMapEntries];
    [reflexivity |].
  rewrite H. destruct (String.eqb (Sprint k) ""); [reflexivity |].
  destruct (keepOrOmitEmpty _ _) as [[elem |] | | |]; cbn [bind]; try reflexivity; apply IH.
Qed.

Lemma encodeListLoop_tag enc t t' elemFn :
  OmitEmptyElem t = OmitEmptyElem t' ->
  forall xs c av, encodeListLoop enc t elemFn xs c av = encodeListLoop enc t' elemFn xs c av.
Proof.
  intros H. induction xs as [| x xs IH]; intros c av; cbn [encodeListLoop]; [reflexivity |].
  rewrite H.
  destruct (keepOrOmitEmpty _ _) as [[elem |] | | |]; cbn [bind]; try reflexivity;
    [| apply IH].
  destruct (elemFn av elem); cbn [bind]; try reflexivity. apply IH.
Qed.

Lemma encode_omitEmpty n av v t :
  encode (Datatypes.S n) e av v t
  = if OmitEmpty t && emptyValue (valueElem v) then Ok nullAV
    else encode (Datatypes.S n) e av v (withoutOmitEmpty t).
Proof.
  cbn [encode]. destruct (valueElem v) as [x |]; cbn [tryMarshaler];
    destruct (OmitEmpty t && emptyValue _); try reflexivity;
    cbn [withoutOmitEmpty OmitEmpty andb].
  destruct (kindOf x); try reflexivity;
    unfold encodeMap, encodeSlice, encodeList, encodeScalar;
    rewrite ?(encodeMapEntries_tag _ (withoutOmitEmpty t) t eq_refl),
            ?(encodeListLoop_tag _ (withoutOmitEmpty t) t _ eq_refl);
    reflexivity.
Qed.

Lemma decode_tag n av v cs t t' :
  AsString t = AsString t' -> decode n d av v cs t = decode n d av v cs t'.
Proof.
  intros H. destruct n as [| n]; [reflexivity |]. cbn [decode].
  destruct (isNullAV av); [reflexivity |].
  destruct (indirect v cs false) as [[[fs x] cs'] | | |]; cbn [bind]; try reflexivity.
  unfold decodeSwitch, decodeString. rewrite H. reflexivity.
Qed.

(** A field that round trips under its options without [omitempty] does
    so with it, as long as it holds a zero value when it is omitted. *)
Lemma fieldRT_of_RTf n f v :
  Name f <> "" ->
  RTf e d n (withoutOmitEmpty (ftag f)) v ->
  (OmitEmpty (ftag f) = true -> keepsEntry e (f, v) = false -> v = Zero (typeOf v)) ->
  exists oav, fieldRT e d n (f, v) oav.
Proof.
  intros Hname (av & He & Hnull & Hnon & Hd) Hz.
  destruct n as [| n]; [discriminate He |].
  rewrite (decode_tag _ _ _ _ (withoutOmitEmpty (ftag f)) (ftag f) eq_refl) in Hd.
  unfold fieldRT, keepsEntry in *. cbn [fst snd] in *.
  change (fieldName (f, v)) with (Name f).
  rewrite encode_omitEmpty.
  destruct (OmitEmpty (ftag f)) eqn:Eo; cbn [negb orb andb] in *.
  - destruct (emptyValue (valueElem v)) eqn:Ee; cbn [negb andb] in *.
    + exists None. repeat split; auto.
    + rewrite He. destruct (nonNull e v) eqn:En.
      * exists (Some av). specialize (Hnon eq_refl). cbn [isNullAV] in Hnon.
        cbn [keepOrOmitEmpty]. rewrite Hnon. repeat split; auto.
      * rewrite (Hnull eq_refl). exists None. repeat split; auto.
  - rewrite He. exists (Some av). cbn [keepOrOmitEmpty]. rewrite Bool.andb_false_r.
    repeat split; auto.
Qed.

Lemma encodeStructFields_all enc : forall fs oavs acc,
  Forall2 (fun fv oav => fieldName fv <> ""
                         /\ keepOrOmitEmpty (OmitEmpty (ftag (fst fv)))
                                            (enc (snd fv) (ftag (fst fv))) = Ok oav) fs oavs ->
  NoDup (map fst acc ++ map fieldName fs) ->
  encodeStructFields enc fs acc = Ok (acc ++ keptEntries fs oavs)%list.
Proof.
  induction fs as [| [f fv] fs IH]; intros oavs acc H Hnd; inversion H; subst; clear H.
  - cbn. rewrite List.app_nil_r. reflexivity.
  - destruct H2 as (Hname & Henc). unfold fieldName in Hname. cbn [fst snd] in *.
    cbn [encodeStructFields]. rewrite (proj2 (String.eqb_neq _ _) Hname), Henc.
    cbn [bind map] in *. destruct y as [av |]; cbn [keptEntries].
    + rewrite mapSet_fresh by (intros Hin; apply (NoDup_remove_2 _ _ _ Hnd);
                               apply in_or_app; left; exact Hin).
      rewrite IH with (oavs := l').
      * rewrite <- List.app_assoc. reflexivity.
      * assumption.
      * rewrite List.map_app, <- List.app_assoc. exact Hnd.
    + apply IH; [assumption |]. exact (NoDup_remove_1 _ _ _ Hnd).
Qed.

Lemma fieldByName_middle (done : list (field * value)) f x rest :
  ~ In (Name f) (map fieldName done) ->
  fieldByName (done ++ (f, x) :: rest) (Name f) = Some (List.length done).
Proof.
  induction done as [| [g y] done IH]; cbn [fieldByName List.app map In List.length]; intros H.
  - rewrite String.eqb_refl. reflexivity.
  - unfold fieldName at 1 in H. cbn [fst] in H.
    destruct (String.eqb (Name g) (Name f)) eqn:E.
    + apply String.eqb_eq in E. tauto.
    + rewrite IH by tauto. reflexivity.
Qed.

Lemma decodeStructFields_fill dec : forall todo oavs done,
  Forall2 (fun fv oav =>
             match oav with
             | Some av => dec (Some av) (Zero (typeOf (snd fv))) true (ftag (fst fv))
                          = Ok (snd fv)
             | None => snd fv = Zero (typeOf (snd fv))
             end) todo oavs ->
  NoDup (map fieldName done ++ map fieldName todo) ->
  decodeStructFields dec (keptEntries todo oavs) (done ++ map zeroField todo) true
  = Ok (done ++ todo)%list.
Proof.
  induction todo as [| [f fv] todo IH]; intros oavs done H Hnd; inversion H; subst; clear H.
  - cbn. rewrite List.app_nil_r. reflexivity.
  - rename H2 into Hdec. cbn [fst snd] in *.
    cbn [map zeroField fst snd].
    change (zeroField (f, fv)) with (f, Zero (typeOf fv)).
    cbn [map] in Hnd.
    replace (done ++ (f, fv) :: todo)%list with ((done ++ [(f, fv)]) ++ todo)%list
      by (rewrite <- List.app_assoc; reflexivity).
    assert (Hnd' : NoDup (map fieldName (done ++ [(f, fv)]) ++ map fieldName todo))
      by (rewrite List.map_app, <- List.app_assoc; exact Hnd).
    destruct y as [av |]; cbn [keptEntries decodeStructFields].
    + change (fieldName (f, fv)) with (Name f) in *.
      rewrite fieldByName_middle
        by (intros Hin; apply (NoDup_remove_2 _ _ _ Hnd); apply in_or_app; left; exact Hin).
      rewrite nth_error_app2, Nat.sub_diag by lia. cbn [nth_error].
      rewrite Hdec. cbn [bind]. rewrite updateNth_middle.
      replace (done ++ (f, fv) :: map zeroField todo)%list
        with ((done ++ [(f, fv)]) ++ map zeroField todo)%list
        by (rewrite <- List.app_assoc; reflexivity).
      apply IH; assumption.
    + rewrite <- Hdec.
      replace (done ++ (f, fv) :: map zeroField todo)%list
        with ((done ++ [(f, fv)]) ++ map zeroField todo)%list
        by (rewrite <- List.app_assoc; reflexivity).
      apply IH; assumption.
Qed.

Lemma Forall_fieldRT m (fs : list (field * value)) :
  Forall (fun fv => exists oav, fieldRT e d m fv oav) fs ->
  exists oavs, Forall2 (fieldRT e d m) fs oavs.
Proof.
  induction 1 as [| fv fs (oav & H) _ (oavs & IH)].
  - exists []. constructor.
  - exists (oav :: oavs). constructor; assumption.
Qed.

Lemma keptEntries_length m (fs : list (field * value)) oavs :
  Forall2 (fieldRT e d m) fs oavs ->
  Nat.eqb (List.length (keptEntries fs oavs)) 0 = negb (nonNull e (VStruct fs)).
Proof.
  cbn [nonNull].
  induction 1 as [| fv oav fs oavs (_ & _ & _ & Hk) _ IH]; [reflexivity |].
  cbn [existsb]. unfold keepsEntry in Hk. rewrite <- Hk.
  destruct oav as [av |]; cbn [keptEntries isSome orb]; [reflexivity | exact IH].
Qed.

Lemma RT_struct (fs : list (field * value)) m :
  NoDup (map fieldName fs) ->
  Forall (fun fv => exists oav, fieldRT e d m fv oav) fs ->
  RT e d (Datatypes.S m) (VStruct fs).
Proof.
  intros Hnd Hrt.
  destruct (Forall_fieldRT _ _ Hrt) as (oavs & H).
  assert (H1 : Forall2 (fun fv oav => fieldName fv <> ""
                 /\ keepOrOmitEmpty (OmitEmpty (ftag (fst fv)))
                      (encode m e emptyAV (snd fv) (ftag (fst fv))) = Ok oav) fs oavs)
    by (eapply Forall2_impl; [| exact H]; intros fv oav (Hn & He & _); auto).
  assert (H2 : Forall2 (fun fv oav =>
                 match oav with
                 | Some av => decode m d (Some av) (Zero (typeOf (snd fv))) true
                                (ftag (fst fv)) = Ok (snd fv)
                 | None => snd fv = Zero (typeOf (snd fv))
                 end) fs oavs)
    by (eapply Forall2_impl; [| exact H]; intros fv oav (_ & _ & Hd & _); exact Hd).
  pose proof (encodeStructFields_all _ fs oavs [] H1 Hnd) as Henc.
  pose proof (decodeStructFields_fill _ fs oavs [] H2 Hnd) as Hdec.
  pose proof (keptEntries_length _ _ _ H) as Hlen.
  cbn [List.app] in Henc, Hdec.
  assert (Hz : Zero (typeOf (VStruct fs)) = VStruct (map zeroField fs)).
  { cbn [typeOf Zero]. rewrite List.map_map. reflexivity. }
  exists (if Nat.eqb (List.length (keptEntries fs oavs)) 0 then nullAV
          else setM emptyAV (Some (keptEntries fs oavs))).
  split; [| split; [| split]].
  - cbn [encode tryMarshaler valueElem OmitEmpty tag0 andb kindOf]. unfold encodeStruct.
    rewrite Henc. cbn [bind]. destruct (Nat.eqb _ 0); reflexivity.
  - intros Hn. rewrite Hlen, Hn. reflexivity.
  - intros Hn. rewrite Hlen, Hn. reflexivity.
  - rewrite Hlen. destruct (nonNull e (VStruct fs)) eqn:Hn; cbn [negb].
    + try rewrite Hn in Hlen. cbn [negb] in Hlen.
      rewrite decode_Zero by reflexivity.
      change (indirectNew (typeOf (VStruct fs)))
        with (@nil frame, Zero (typeOf (VStruct fs))).
      rewrite Hz. cbn [fst snd plug]. unfold decodeSwitch.
      cbn [setM emptyAV dynamodb.B dynamodb.BOOL dynamodb.BS dynamodb.L dynamodb.M
           olen orNil].
      rewrite Hlen. cbn [List.length Nat.eqb negb]. unfold decodeMap.
      rewrite Hdec. reflexivity.
    + try rewrite Hn in Hlen. cbn [negb] in Hlen.
      destruct (keptEntries fs oavs); [| discriminate Hlen].
      cbn [decodeStructFields] in Hdec. injection Hdec as Hdec.
      rewrite Hdec in Hz.
      cbn [decode isNullAV nullAV dynamodb.NULL isSome]. rewrite indirect_loop, Hz.
      cbn [indirectLoop kindOf bind]. unfold decodeNull. cbn [bind plug].
      rewrite Hz. reflexivity.
Qed.

(** A lossless record that leaves no entry holds zero values. *)
Lemma lossless_omitted_record (fs : list (field * value)) :
  lossless e (VStruct fs) -> nonNull e (VStruct fs) = false -> map zeroField fs = fs.
Proof.
  cbn [lossless nonNull]. intros (_ & Hall) Hn.
  induction fs as [| [f v] fs IH]; [reflexivity |].
  cbn [All existsb map fst snd] in *. apply Bool.orb_false_iff in Hn.
  destruct Hn as [Hk Hn]. destruct Hall as [(_ & _ & Hz) Hall].
  rewrite (IH Hall Hn). unfold zeroField. cbn [fst snd]. f_equal. f_equal.
  symmetry. apply Hz; [| exact Hk].
  apply Bool.orb_false_iff in Hk. destruct Hk as [Hk _].
  apply Bool.negb_false_iff in Hk. exact Hk.
Qed.

(** *** Number sets and string sets *)

Lemma number_elem x t m :
  typeOf x = t -> isNumberType t = true -> exactNumber x ->
  encode (Datatypes.S m) e emptyAV x tag0 = Ok (setN emptyAV (Some (numText x)))
  /\ decodeNumber (Some (numText x)) (Zero t) true = Ok x.
Proof.
  intros Ht Hi Hr. subst t. split; [| apply decodeNumber_numText; exact Hr].
  pose proof (encodeNumber_numText emptyAV x Hr) as He.
  destruct x; cbn [exactNumber] in Hr; try contradiction;
    cbn [encode tryMarshaler valueElem OmitEmpty tag0 andb kindOf]; unfold encodeScalar;
    rewrite He; reflexivity.
Qed.

(** The [string] option on a number: the wire value is a string holding the
    text of the number, and decodes back under the same option. *)
Lemma RTf_asString v m :
  exactNumber v -> RTf e d (Datatypes.S m) asStringTag v.
Proof.
  intros Hr. pose proof (encodeNumber_numText emptyAV v Hr) as He.
  pose proof (decodeNumber_numText v Hr) as Hd.
  exists (setS emptyAV (Some (numText v))).
  assert (Hn : nonNull e v = true) by (destruct v; try contradiction; reflexivity).
  split; [| split; [congruence | split; [reflexivity |]]].
  - destruct v; cbn [exactNumber] in Hr; try contradiction;
      cbn [encode tryMarshaler valueElem OmitEmpty asStringTag andb kindOf]; unfold encodeScalar;
      rewrite He; reflexivity.
  - rewrite decode_Zero by reflexivity.
    assert (Hi : indirectNew (typeOf v) = ([], Zero (typeOf v)))
      by (destruct v; try contradiction; try reflexivity; destruct k; reflexivity).
    rewrite Hi. cbn [fst snd plug]. unfold decodeSwitch.
    cbn [setS emptyAV dynamodb.B dynamodb.BOOL dynamodb.BS dynamodb.L dynamodb.M dynamodb.N
         dynamodb.NS dynamodb.S olen List.length Nat.eqb negb isSome].
    unfold decodeString. cbn [AsString asStringTag]. rewrite Hd. reflexivity.
Qed.

Lemma string_elem x m :
  typeOf x = TString -> nonNull e x = true ->
  encode (Datatypes.S m) e emptyAV x tag0 = Ok (setS emptyAV (Some (strText x)))
  /\ decodeString (Some (strText x)) (Zero TString) true tag0 = Ok x.
Proof.
  intros Ht Hn. destruct x; try discriminate Ht. cbn [nonNull] in Hn.
  apply Bool.negb_true_iff in Hn. split; [| reflexivity].
  cbn [encode tryMarshaler valueElem OmitEmpty tag0 andb kindOf]. unfold encodeScalar, encodeString.
  cbn [tryMarshaler]. rewrite Hn. reflexivity.
Qed.

Lemma numberType_indirectNew t :
  isNumberType t = true -> indirectNew t = ([], Zero t).
Proof. destruct t; try discriminate; reflexivity. Qed.

Lemma numberType_not_bytes t :
  isNumberType t = true -> isByteSlice (TSlice t) = false /\ isByteSlice t = false.
Proof.
  destruct t as [| k | k | | | | | | | | | | | |]; try discriminate; intros H;
    try (split; reflexivity).
  destruct k; try discriminate H; split; reflexivity.
Qed.

Lemma decodeNumberSet_fill t xs :
  isNumberType t = true ->
  Forall (fun x => decodeNumber (Some (numText x)) (Zero t) true = Ok x) xs ->
  decodeNumberSet (map Some (map numText xs)) (VSliceNil t) true
  = Ok (VSlice t xs (List.length xs)).
Proof.
  intros Hi H.
  unfold decodeNumberSet, makeRoom, MakeSlice.
  cbn [kindOf sliceIsNil orb setv bind typeOf elemType capOf].
  rewrite repeat_length, Nat.min_id, !List.length_map.
  apply sliceLoop_fresh. intros k x Hx.
  unfold decodeSetElem. rewrite indirect_Zero, (numberType_indirectNew _ Hi).
  cbn [fst snd bind].
  rewrite (nth_error_nth (map Some (map numText xs)) k None (x := Some (numText x)))
    by (rewrite !nth_error_map, Hx; reflexivity).
  rewrite Forall_forall in H. rewrite (H x (nth_error_In _ _ Hx)). reflexivity.
Qed.

Lemma decodeStringSet_fill xs :
  Forall (fun x => decodeString (Some (strText x)) (Zero TString) true tag0 = Ok x) xs ->
  decodeStringSet (map Some (map strText xs)) (VSliceNil TString) true
  = Ok (VSlice TString xs (List.length xs)).
Proof.
  intros H.
  unfold decodeStringSet, makeRoom, MakeSlice.
  cbn [kindOf sliceIsNil orb setv bind typeOf elemType capOf].
  rewrite repeat_length, Nat.min_id, !List.length_map.
  apply sliceLoop_fresh. intros k x Hx.
  unfold decodeSetElem. rewrite indirect_Zero. cbn [indirectNew fst snd bind].
  rewrite (nth_error_nth (map Some (map strText xs)) k None (x := Some (strText x)))
    by (rewrite !nth_error_map, Hx; reflexivity).
  rewrite Forall_forall in H. rewrite (H x (nth_error_In _ _ Hx)). reflexivity.
Qed.

Lemma RTf_numberSlice v m :
  numberSlice v -> RTf e d (Datatypes.S (Datatypes.S m)) numSetTag v.
Proof.
  destruct v as [b | k z | k z | f | f | s | t | t arr len | t l | k t | k t es | fs
                 | t p | x | | |]; cbn [numberSlice]; try contradiction.
  - intros _. exists nullAV.
    split; [| split; [reflexivity | split; [discriminate | reflexivity]]].
    cbn [encode tryMarshaler valueElem OmitEmpty numSetTag andb kindOf]. apply encodeSlice_no_elems.
    reflexivity.
  - intros (Hi & -> & Hne & Hall). apply All_Forall in Hall.
    destruct (numberType_not_bytes _ Hi) as [Hb Hbb].
    assert (Hel : Forall (fun x =>
               encode (Datatypes.S m) e emptyAV x tag0 = Ok (setN emptyAV (Some (numText x)))
               /\ decodeNumber (Some (numText x)) (Zero t) true = Ok x) arr).
    { eapply Forall_impl; [| exact Hall]. intros x (Ht & Hr). apply number_elem; auto. }
    assert (Hnz : Nat.eqb (List.length arr) 0 = false) by (apply Nat.eqb_neq; exact Hne).
    exists (setNS emptyAV (Some (map Some (map numText arr)))).
    split; [| split; [| split]].
    + cbn [encode tryMarshaler valueElem OmitEmpty numSetTag andb kindOf]. unfold encodeSlice, encodeList.
      cbn [typeOf elemsOf]. rewrite Hb, firstn_all.
      change (isByteSliceSlice (TSlice t)) with (isByteSlice t). rewrite Hbb.
      cbn [AsBinSet AsNumSet orb numSetTag].
      rewrite (encodeListLoop_kept _ _ _ _
                 (map (fun x => setN emptyAV (Some (numText x))) arr)).
      * rewrite (appendAll_ext _ _ elemFnNS_shape).
        rewrite (appendAll_ok dynamodb.NS setNS pickN numSetMsg
                   (fun _ _ => eq_refl) (fun _ _ _ => eq_refl) setNS_get
                   _ (map Some (map numText arr)) O (setNS emptyAV (Some [])) [] eq_refl)
          by (rewrite !List.map_map; reflexivity).
        cbn [bind fst snd Nat.add]. rewrite List.length_map, Hnz. reflexivity.
      * apply keptElems_all_ok; [reflexivity |]. clear Hnz Hne Hall.
        induction Hel as [| x arr (Hx & _) _ IH]; constructor; assumption.
    + cbn [nonNull]. rewrite Hnz. discriminate.
    + reflexivity.
    + rewrite decode_Zero by reflexivity.
      cbn [typeOf indirectNew fst snd Zero plug]. unfold decodeSwitch.
      cbn [setNS emptyAV dynamodb.B dynamodb.BOOL dynamodb.BS dynamodb.L dynamodb.M
           dynamodb.N dynamodb.NS olen orNil isSome].
      rewrite !List.length_map, Hnz. cbn [List.length Nat.eqb negb].
      rewrite decodeNumberSet_fill; [reflexivity | exact Hi |].
      eapply Forall_impl; [| exact Hel]. intros x (_ & H). exact H.
Qed.

Lemma RTf_stringSlice v m :
  stringSlice e v -> RTf e d (Datatypes.S (Datatypes.S m)) strSetTag v.
Proof.
  destruct v as [b | k z | k z | f | f | s | t | t arr len | t l | k t | k t es | fs
                 | t p | x | | |]; cbn [stringSlice]; try contradiction.
  - intros ->. exists nullAV.
    split; [| split; [reflexivity | split; [discriminate | reflexivity]]].
    cbn [encode tryMarshaler valueElem OmitEmpty strSetTag andb kindOf]. apply encodeSlice_no_elems.
    reflexivity.
  - intros (-> & -> & Hne & Hall). apply All_Forall in Hall.
    assert (Hel : Forall (fun x =>
               encode (Datatypes.S m) e emptyAV x tag0 = Ok (setS emptyAV (Some (strText x)))
               /\ decodeString (Some (strText x)) (Zero TString) true tag0 = Ok x) arr).
    { eapply Forall_impl; [| exact Hall]. intros x (Ht & Hr). apply string_elem; auto. }
    assert (Hnz : Nat.eqb (List.length arr) 0 = false) by (apply Nat.eqb_neq; exact Hne).
    exists (setSS emptyAV (Some (map Some (map strText arr)))).
    split; [| split; [| split]].
    + cbn [encode tryMarshaler valueElem OmitEmpty strSetTag andb kindOf]. unfold encodeSlice, encodeList.
      cbn [typeOf elemsOf isByteSlice isByteSliceSlice AsBinSet AsNumSet AsStrSet orb strSetTag].
      rewrite firstn_all.
      rewrite (encodeListLoop_kept _ _ _ _
                 (map (fun x => setS emptyAV (Some (strText x))) arr)).
      * rewrite (appendAll_ext _ _ elemFnSS_shape).
        rewrite (appendAll_ok dynamodb.SS setSS pickS strSetMsg
                   (fun _ _ => eq_refl) (fun _ _ _ => eq_refl) setSS_get
                   _ (map Some (map strText arr)) O (setSS emptyAV (Some [])) [] eq_refl)
          by (rewrite !List.map_map; reflexivity).
        cbn [bind fst snd Nat.add]. rewrite List.length_map, Hnz. reflexivity.
      * apply keptElems_all_ok; [reflexivity |]. clear Hnz Hne Hall.
        induction Hel as [| x arr (Hx & _) _ IH]; constructor; assumption.
    + cbn [nonNull]. rewrite Hnz. discriminate.
    + reflexivity.
    + rewrite decode_Zero by reflexivity.
      cbn [typeOf indirectNew fst snd Zero plug]. unfold decodeSwitch.
      cbn [setSS emptyAV dynamodb.B dynamodb.BOOL dynamodb.BS dynamodb.L dynamodb.M
           dynamodb.N dynamodb.NS dynamodb.S dynamodb.SS olen orNil isSome].
      rewrite !List.length_map, Hnz. cbn [List.length Nat.eqb negb].
      rewrite decodeStringSet_fill; [reflexivity |].
      eapply Forall_impl; [| exact Hel]. intros x (_ & H). exact H.
Qed.

(** The [binaryset] option on a slice of byte slices changes nothing. *)
Lemma RTf_binSet v n :
  isByteSliceSlice (typeOf v) = true -> lossless e v -> RT e d n v ->
  RTf e d n binSetTag v.
Proof.
  intros Hbb Hl (av & He & Hnull & Hnon & Hd). exists av.
  destruct n as [| n]; [discriminate He |].
  split; [| split; [exact Hnull | split; [exact Hnon |]]].
  - rewrite <- He.
    destruct v; try discriminate Hbb; cbn [lossless] in Hl; try contradiction;
      cbn [encode tryMarshaler valueElem OmitEmpty binSetTag tag0 andb kindOf];
      unfold encodeSlice, encodeList; cbn [typeOf] in *; rewrite Hbb;
      cbn [AsBinSet binSetTag tag0 orb];
      rewrite (encodeListLoop_tag _ binSetTag tag0 _ eq_refl); reflexivity.
  - rewrite (decode_tag _ _ _ _ binSetTag tag0 eq_refl). exact Hd.
Qed.

(** *** Maps *)

Lemma goodKey_inv k x : goodKey (k, x) -> k = KeyString (keyName (k, x)) /\ keyName (k, x) <> "".
Proof. destruct k; cbn; try contradiction. intros H. split; [reflexivity | exact H]. Qed.

Lemma encodeMapEntries_all enc : forall es avs acc,
  Forall2 (fun kv av => goodKey kv /\ enc (snd kv) tag0 = Ok av) es avs ->
  NoDup (map fst acc ++ map keyName es) ->
  encodeMapEntries enc tag0 es acc
  = Ok (acc ++ combine (map keyName es) (map Some avs))%list.
Proof.
  induction es as [| [k x] es IH]; intros avs acc H Hnd; inversion H; subst; clear H.
  - cbn. rewrite List.app_nil_r. reflexivity.
  - destruct H2 as (Hk & Henc). destruct (goodKey_inv _ _ Hk) as [_ Hname].
    cbn [fst snd] in *. cbn [encodeMapEntries map combine].
    change (Sprint k) with (keyName (k, x)).
    rewrite (proj2 (String.eqb_neq _ _) Hname), Henc.
    cbn [keepOrOmitEmpty OmitEmptyElem tag0]. rewrite Bool.andb_false_r. cbn [bind].
    cbn [map] in Hnd.
    rewrite mapSet_fresh by (intros Hin; apply (NoDup_remove_2 _ _ _ Hnd);
                             apply in_or_app; left; exact Hin).
    rewrite IH with (avs := l').
    + rewrite <- List.app_assoc. reflexivity.
    + assumption.
    + rewrite List.map_app, <- List.app_assoc. exact Hnd.
Qed.

Lemma SetMapIndex_fresh done name x :
  Forall goodKey done -> ~ In name (map keyName done) ->
  SetMapIndex done (KeyString name) x = (done ++ [(KeyString name, x)])%list.
Proof.
  induction done as [| [k y] done IH]; intros Hg Hin; [reflexivity |].
  inversion Hg; subst. cbn [SetMapIndex List.app]. cbn [map In] in Hin.
  destruct (goodKey_inv _ _ H1) as [Hk _]. rewrite Hk at 1. cbn [mapkeyEqb].
  destruct (String.eqb name (keyName (k, y))) eqn:E.
  - apply String.eqb_eq in E. subst. tauto.
  - rewrite IH by tauto. reflexivity.
Qed.

Lemma decodeMapEntries_fill dec t : forall todo avs done,
  Forall2 (fun kv av => goodKey kv /\ dec (Some av) (Zero t) true tag0 = Ok (snd kv))
          todo avs ->
  Forall goodKey done ->
  NoDup (map keyName done ++ map keyName todo) ->
  decodeMapEntries dec t (combine (map keyName todo) (map Some avs)) done
  = Ok (done ++ todo)%list.
Proof.
  induction todo as [| [k x] todo IH]; intros avs done H Hg Hnd; inversion H; subst; clear H.
  - cbn. rewrite List.app_nil_r. reflexivity.
  - destruct H2 as (Hk & Hdec). cbn [fst snd] in *.
    cbn [map combine decodeMapEntries]. rewrite Hdec. cbn [bind]. cbn [map] in Hnd.
    rewrite SetMapIndex_fresh
      by (try assumption; intros Hin; apply (NoDup_remove_2 _ _ _ Hnd);
          apply in_or_app; left; exact Hin).
    destruct (goodKey_inv _ _ Hk) as [Hkk _]. rewrite <- Hkk.
    rewrite IH with (avs := l').
    + rewrite <- List.app_assoc. reflexivity.
    + assumption.
    + apply Forall_app. split; [assumption | constructor; [assumption | constructor]].
    + rewrite List.map_app, <- List.app_assoc. exact Hnd.
Qed.

Lemma Forall_RT_entries m t (es : list (mapkey * value)) :
  Forall (fun kv => goodKey kv /\ typeOf (snd kv) = t /\ RT e d m (snd kv)) es ->
  exists avs,
    Forall2 (fun kv av => goodKey kv /\ encode m e emptyAV (snd kv) tag0 = Ok av) es avs
    /\ Forall2 (fun kv av => goodKey kv
                             /\ decode m d (Some av) (Zero t) true tag0 = Ok (snd kv)) es avs.
Proof.
  induction 1 as [| kv es (Hk & Ht & av & He & _ & _ & Hd) _ (avs & IH1 & IH2)].
  - exists []. split; constructor.
  - exists (av :: avs). rewrite Ht in Hd. split; constructor; auto.
Qed.

Lemma RT_map t (es : list (mapkey * value)) m :
  es <> [] -> NoDup (map keyName es) ->
  Forall (fun kv => goodKey kv /\ typeOf (snd kv) = t /\ RT e d m (snd kv)) es ->
  RTany e d (Datatypes.S m) (VMap TString t es).
Proof.
  intros Hne Hnd Hrt.
  destruct (Forall_RT_entries _ _ _ Hrt) as (avs & H1 & H2).
  pose proof (Forall2_length H2) as Hlen.
  pose proof (encodeMapEntries_all _ es avs [] H1 Hnd) as Henc.
  pose proof (decodeMapEntries_fill _ t es avs [] H2 (Forall_nil _) Hnd) as Hdec.
  cbn [List.app] in Henc, Hdec.
  destruct es as [| kv0 es]; [contradiction |].
  destruct avs as [| av0 avs]; [discriminate Hlen |].
  assert (Hnz : Nat.eqb (List.length (combine (map keyName (kv0 :: es))
                                              (map Some (av0 :: avs)))) 0 = false)
    by reflexivity.
  exists (setM emptyAV (Some (combine (map keyName (kv0 :: es)) (map Some (av0 :: avs))))).
  split; [| split; [| split; [| split]]].
  - cbn [encode tryMarshaler valueElem OmitEmpty tag0 andb kindOf]. unfold encodeMap.
    rewrite Henc. cbn [bind]. rewrite Hnz. reflexivity.
  - discriminate.
  - reflexivity.
  - rewrite decode_Zero by reflexivity.
    cbn [typeOf indirectNew fst snd Zero plug]. unfold decodeSwitch.
    cbn [setM emptyAV dynamodb.B dynamodb.BOOL dynamodb.BS dynamodb.L dynamodb.M
         olen orNil].
    rewrite Hnz. cbn [List.length Nat.eqb negb]. unfold decodeMap.
    cbn [kindOfType setv bind]. rewrite Hdec. reflexivity.
  - cbn [generic]. intros -> _.
    rewrite decode_into_interface by reflexivity. unfold decodeSwitch.
    cbn [setM emptyAV dynamodb.B dynamodb.BOOL dynamodb.BS dynamodb.L dynamodb.M
         olen orNil].
    rewrite Hnz. cbn [List.length Nat.eqb negb]. unfold decodeMap.
    cbn [setv bind]. rewrite Hdec. reflexivity.
Qed.

(** *** Pointers *)

Lemma RT_ptr_nil t n : RT e d (Datatypes.S n) (VPtr t None).
Proof.
  exists nullAV. split; [reflexivity |]. split; [reflexivity |].
  split; [discriminate | reflexivity].
Qed.

Lemma RT_ptr t x n :
  typeOf x = t -> nonNull e x = true -> RT e d n x -> RT e d n (VPtr t (Some x)).
Proof.
  intros Ht Hn (av & He & _ & Hnn & Hd). specialize (Hnn Hn).
  destruct n as [| n]; [discriminate He |].
  exists av. split; [exact He |]. split; [cbn [nonNull]; congruence |].
  split; [intros _; exact Hnn |].
  rewrite Ht in Hd. rewrite decode_Zero in Hd |- * by exact Hnn.
  cbn [typeOf indirectNew].
  destruct (indirectNew t) as [fs z]. cbn [fst snd] in *.
  destruct (decodeSwitch (decode n d) av z true tag0) as [a | | |]; cbn [bind] in *;
    try discriminate Hd.
  injection Hd as <-. reflexivity.
Qed.

(** *** Interfaces and empty arrays *)

Lemma RT_iface_nil n : RT e d (Datatypes.S n) (VIface None).
Proof.
  exists nullAV. split; [reflexivity |]. split; [reflexivity |].
  split; [discriminate | reflexivity].
Qed.

Lemma RT_iface x n :
  generic x -> nonNull e x = true -> RTany e d n x -> RT e d n (VIface (Some x)).
Proof.
  intros G Hn (av & He & _ & Hnn & _ & Hd).
  destruct n as [| n]; [discriminate He |].
  exists av. split; [exact He |]. split; [cbn [nonNull]; congruence |].
  split; [intros _; exact (Hnn Hn) |]. exact (Hd G Hn).
Qed.

Lemma RT_array_empty t n : RT e d (Datatypes.S n) (VArray t []).
Proof.
  exists nullAV. split; [| split; [reflexivity | split; [discriminate | reflexivity]]].
  cbn [encode tryMarshaler valueElem OmitEmpty tag0 andb kindOf].
  apply encodeSlice_no_elems. reflexivity.
Qed.

(** *** Enough fuel *)

Lemma Forall_bound {A} (Q : nat -> A -> Prop) l :
  Forall (fun x => exists n0, forall n, (n0 <= n)%nat -> Q n x) l ->
  exists N, forall n, (N <= n)%nat -> Forall (Q n) l.
Proof.
  induction 1 as [| x l [n0 Hx] _ [N IH]].
  - exists O. intros; constructor.
  - exists (Nat.max n0 N). intros n Hn. constructor; [apply Hx | apply IH]; lia.
Qed.

Lemma isByteSlice_inv t : isByteSlice t = true -> t = TSlice (TUint KUint8).
Proof.
  destruct t as [| | | | | | t' | | | | | | | |]; try discriminate.
  destruct t' as [| | k | | | | | | | | | | | |]; try discriminate.
  destruct k; try discriminate. reflexivity.
Qed.

Lemma lossless_round_trips_any v :
  lossless e v -> exists n0, forall n, (n0 <= n)%nat -> RTany e d n v.
Proof.
  induction v using value_nested_ind; cbn [lossless]; intros Hl; try contradiction.
  - exists 1%nat. intros [| n] Hn; [lia | apply RTany_bool].
  - exists 1%nat. intros [| n] Hn; [lia | apply RTany_int; assumption].
  - exists 1%nat. intros [| n] Hn; [lia | apply RTany_uint; tauto].
  - exists 1%nat. intros [| n] Hn; [lia |].
    apply RTany_of_RT; [intros G; exact G | apply RT_float32; tauto].
  - exists 1%nat. intros [| n] Hn; [lia | apply RTany_float64; assumption].
  - exists 1%nat. intros [| n] Hn; [lia | apply RTany_string].
  - (* nil slice *)
    exists 1%nat. intros [| n] Hn; [lia |]. apply RTany_of_RT; [intros G; exact G |].
    exists nullAV. split; [| split; [reflexivity | split; [discriminate | reflexivity]]].
    cbn [encode tryMarshaler valueElem OmitEmpty tag0 andb kindOf]. apply encodeSlice_no_elems. reflexivity.
  - (* slice *)
    destruct Hl as (-> & Hne & Hall). apply All_Forall in Hall.
    assert (Hb : Forall (fun x => exists n0, forall n, (n0 <= n)%nat -> typeOf x = e0 /\ RT e d n x) arr).
    { rewrite Forall_forall in *. intros x Hx. destruct (Hall x Hx) as (Ht & Hlx & _).
      destruct (H x Hx Hlx) as [n0 Hn0]. exists n0. intros n Hn.
      split; [assumption | apply RT_of_RTany; auto]. }
    destruct (Forall_bound _ _ Hb) as [N HN].
    exists (Datatypes.S (Datatypes.S N)). intros [| [| n]] Hn; try lia.
    destruct (isByteSlice (TSlice e0)) eqn:Hbs.
    + apply isByteSlice_inv in Hbs. injection Hbs as ->.
      apply RT_slice_bytes. cbn [lossless]. rewrite All_Forall. auto.
    + destruct (isByteSlice e0) eqn:Hbb.
      * apply isByteSlice_inv in Hbb. subst e0.
        apply RT_slice_byteSlices. cbn [lossless]. rewrite All_Forall. auto.
      * apply RT_slice_list; try assumption.
        -- destruct arr; [contradiction | discriminate].
        -- apply HN. lia.
  - (* empty array *)
    subst l. exists 1%nat. intros [| n] Hn; [lia |].
    apply RTany_of_RT; [intros G; exact G | apply RT_array_empty].
  - (* nil map *)
    exists 1%nat. intros [| n] Hn; [lia |]. apply RTany_of_RT; [intros G; exact G |].
    exists nullAV. split; [reflexivity |]. split; [reflexivity |].
    split; [discriminate | reflexivity].
  - (* map *)
    destruct Hl as (-> & Hne & Hnd & Hall). apply All_Forall in Hall.
    assert (Hb : Forall (fun kv : mapkey * value =>
                           exists n0, forall n, (n0 <= n)%nat ->
                             goodKey kv /\ typeOf (snd kv) = e0 /\ RT e d n (snd kv)) es).
    { rewrite Forall_forall in *. intros kv Hkv. destruct (Hall kv Hkv) as (Hk & Ht & Hlx).
      destruct (H kv Hkv Hlx) as [n0 Hn0]. exists n0. intros n Hn.
      split; [exact Hk | split; [exact Ht | apply RT_of_RTany; auto]]. }
    destruct (Forall_bound _ _ Hb) as [N HN].
    exists (Datatypes.S N). intros [| n] Hn; [lia |].
    apply RT_map; [exact Hne | exact Hnd | apply HN; lia].
  - (* record *)
    destruct Hl as (Hnd & Hall). apply All_Forall in Hall.
    assert (Hb : Forall (fun fv : field * value =>
                           exists n0, forall n, (n0 <= n)%nat ->
                             exists oav, fieldRT e d n fv oav) fs).
    { rewrite Forall_forall in *. intros [f v] Hfv.
      destruct (Hall _ Hfv) as (Hname & Hcase & Hz). cbn [fst snd] in *.
      assert (Hrt : exists n0, forall n, (n0 <= n)%nat ->
                      RTf e d n (withoutOmitEmpty (ftag f)) v).
      { destruct Hcase as [(Ht & Hlx) | [(Ht & Hs) | [(Ht & Hs) | [(Ht & Hs)
                             | (Ht & Hbb & Hlx)]]]]; rewrite Ht.
        - destruct (H _ Hfv Hlx) as [n0 Hn0]. exists n0. intros n Hn.
          apply RT_RTf, RT_of_RTany. auto.
        - exists 1%nat. intros [| n] Hn; [lia |]. apply RTf_asString. exact Hs.
        - exists 2%nat. intros [| [| n]] Hn; try lia. apply RTf_numberSlice. exact Hs.
        - exists 2%nat. intros [| [| n]] Hn; try lia. apply RTf_stringSlice. exact Hs.
        - destruct (H _ Hfv Hlx) as [n0 Hn0]. exists n0. intros n Hn.
          apply RTf_binSet; [exact Hbb | exact Hlx | apply RT_of_RTany; auto]. }
      destruct Hrt as [n0 Hn0]. exists n0. intros n Hn.
      apply fieldRT_of_RTf; auto. }
    destruct (Forall_bound _ _ Hb) as [N HN].
    exists (Datatypes.S N). intros [| n] Hn; [lia |].
    apply RTany_of_RT; [intros G; exact G |].
    apply RT_struct; [exact Hnd | apply HN; lia].
  - (* nil pointer *)
    exists 1%nat. intros [| n] Hn; [lia |].
    apply RTany_of_RT; [intros G; exact G | apply RT_ptr_nil].
  - (* pointer *)
    destruct Hl as (Ht & Hn & Hlx). destruct (IHv Hlx) as [n0 Hn0].
    exists n0. intros n Hle. apply RTany_of_RT; [intros G; exact G |].
    apply RT_ptr; auto. apply RT_of_RTany. auto.
  - (* nil interface *)
    exists 1%nat. intros [| n] Hn; [lia |].
    apply RTany_of_RT; [intros G; exact G | apply RT_iface_nil].
  - (* interface *)
    destruct Hl as (G & Hn & Hlx). destruct (IHv Hlx) as [n0 Hn0].
    exists n0. intros n Hle. apply RTany_of_RT; [intros G'; exact G' |].
    apply RT_iface; auto.
Qed.

Lemma lossless_round_trips v :
  lossless e v -> exists n0, forall n, (n0 <= n)%nat -> RT e d n v.
Proof.
  intros Hl. destruct (lossless_round_trips_any v Hl) as [n0 H].
  exists n0. intros n Hn. apply RT_of_RTany. auto.
Qed.

(** *** Spare capacity *)

Lemma typeOf_Clip v : typeOf (Clip v) = typeOf v.
Proof.
  induction v using value_nested_ind; cbn [Clip typeOf]; try reflexivity.
  - rewrite List.length_map. reflexivity.
  - f_equal. rewrite List.map_map. cbn [fst snd].
    induction H as [| fv fs Hfv _ IH]; cbn [map]; [reflexivity |].
    rewrite Hfv, IH. reflexivity.
Qed.

Lemma valueElem_Clip v : valueElem (Clip v) = option_map Clip (valueElem v).
Proof. induction v using value_nested_ind; cbn [Clip valueElem option_map]; auto. Qed.

Lemma kindOf_Clip v : kindOf (Clip v) = kindOf v.
Proof. destruct v as [| | | | | | | | | | | | ? [?|] | [?|] | | |]; reflexivity. Qed.

Lemma emptyValue_Clip x : emptyValue (Some (Clip x)) = emptyValue (Some x).
Proof.
  destruct x as [| | | | | | | | | | | | ? [?|] | [?|] | | |]; cbn [Clip emptyValue];
    rewrite ?List.length_map; reflexivity.
Qed.

Lemma elemsOf_Clip v : elemsOf (Clip v) = map Clip (elemsOf v).
Proof.
  destruct v as [| | | | | | | | | | | | ? [?|] | [?|] | | |]; cbn [Clip elemsOf map];
    try reflexivity.
  rewrite List.firstn_firstn, Nat.min_id, List.firstn_map. reflexivity.
Qed.

Lemma byteOf_Clip x : byteOf (Clip x) = byteOf x.
Proof. destruct x as [| | | | | | | | | | | | ? [?|] | [?|] | | |]; reflexivity. Qed.

Section Loops.
Variable enc : value -> tag -> outcome AttributeValue.
Hypothesis Henc : forall x t, enc (Clip x) t = enc x t.

Lemma encodeStructFields_Clip : forall fs acc,
  encodeStructFields enc (map (fun fv => (fst fv, Clip (snd fv))) fs) acc
  = encodeStructFields enc fs acc.
Proof.
  induction fs as [| [f x] fs IH]; intros acc; cbn [map encodeStructFields fst snd];
    [reflexivity |].
  rewrite Henc. destruct (String.eqb (Name f) ""); [reflexivity |].
  destruct (keepOrOmitEmpty _ _) as [[elem |] | | |]; cbn [bind]; try reflexivity; apply IH.
Qed.

Lemma encodeMapEntries_Clip t : forall es acc,
  encodeMapEntries enc t (map (fun kv => (fst kv, Clip (snd kv))) es) acc
  = encodeMapEntries enc t es acc.
Proof.
  induction es as [| [k x] es IH]; intros acc; cbn [map encodeMapEntries fst snd];
    [reflexivity |].
  rewrite Henc. destruct (String.eqb (Sprint k) ""); [reflexivity |].
  destruct (keepOrOmitEmpty _ _) as [[elem |] | | |]; cbn [bind]; try reflexivity; apply IH.
Qed.

Lemma encodeListLoop_Clip t elemFn : forall xs c av,
  encodeListLoop enc t elemFn (map Clip xs) c av = encodeListLoop enc t elemFn xs c av.
Proof.
  induction xs as [| x xs IH]; intros c av; cbn [map encodeListLoop]; [reflexivity |].
  rewrite Henc.
  destruct (keepOrOmitEmpty _ _) as [[elem |] | | |]; cbn [bind]; try reflexivity;
    [| apply IH].
  destruct (elemFn av elem); cbn [bind]; try reflexivity. apply IH.
Qed.

Lemma encodeSlice_Clip av v t : encodeSlice enc av (Clip v) t = encodeSlice enc av v t.
Proof.
  unfold encodeSlice, encodeList. rewrite typeOf_Clip, elemsOf_Clip, !encodeListLoop_Clip.
  rewrite List.map_map. rewrite (List.map_ext _ _ byteOf_Clip). reflexivity.
Qed.

End Loops.

Lemma encode_Clip : forall n av v t, encode n e av (Clip v) t = encode n e av v t.
Proof.
  induction n as [| n IH]; intros av v t; [reflexivity |].
  cbn [encode]. rewrite valueElem_Clip.
  destruct (valueElem v) as [x |]; cbn [option_map tryMarshaler]; [| reflexivity].
  rewrite emptyValue_Clip, kindOf_Clip.
  destruct (OmitEmpty t && emptyValue (Some x)); [reflexivity |].
  assert (Hs : encodeScalar e av (Clip x) t = encodeScalar e av x t)
    by (destruct x as [| | | | | | | | | | | | ? [?|] | [?|] | | |]; try reflexivity;
        match goal with
        | |- encodeScalar _ _ (Clip ?X) _ = _ => pose proof (typeOf_Clip X) as Ht
        end;
        cbn [Clip] in *; unfold encodeScalar, encodeNumber; cbn [tryMarshaler bind];
        rewrite Ht; reflexivity).
  destruct (kindOf x) eqn:Ek; try exact Hs; try reflexivity.
  all: try (apply encodeSlice_Clip; intros; apply IH).
  - destruct x; try discriminate Ek; [reflexivity |].
    cbn [Clip]. unfold encodeMap. rewrite encodeMapEntries_Clip by (intros; apply IH).
    reflexivity.
  - destruct x; try discriminate Ek. cbn [Clip]. unfold encodeStruct.
    rewrite encodeStructFields_Clip by (intros; apply IH). reflexivity.
Qed.

Lemma exactNumber_Clip x : exactNumber x -> Clip x = x.
Proof. destruct x; cbn [exactNumber]; try contradiction; reflexivity. Qed.

Lemma map_id_Forall {A} (f : A -> A) l : Forall (fun x => f x = x) l -> map f l = l.
Proof. induction 1 as [| x l Hx _ IH]; cbn [map]; [| rewrite Hx, IH]; reflexivity. Qed.

(** A lossless value has no spare capacity. *)
Lemma Clip_lossless v : lossless e v -> Clip v = v.
Proof.
  induction v using value_nested_ind; cbn [lossless Clip]; intros Hl; try reflexivity;
    try contradiction.
  - destruct Hl as (-> & _ & Hall). apply All_Forall in Hall.
    rewrite map_id_Forall, firstn_all; [reflexivity |].
    rewrite Forall_forall in *. intros x Hx. apply H; [exact Hx |].
    destruct (Hall x Hx) as (_ & Hlx & _). exact Hlx.
  - subst l. reflexivity.
  - destruct Hl as (_ & _ & _ & Hall). apply All_Forall in Hall.
    rewrite map_id_Forall; [reflexivity |].
    rewrite Forall_forall in *. intros [key x] Hx. cbn [fst snd].
    destruct (Hall _ Hx) as (_ & _ & Hlx).
    pose proof (H _ Hx Hlx) as Hc. cbn [snd] in Hc. rewrite Hc. reflexivity.
  - destruct Hl as (_ & Hall). apply All_Forall in Hall.
    rewrite map_id_Forall; [reflexivity |].
    rewrite Forall_forall in *. intros [f x] Hx. cbn [fst snd].
    destruct (Hall _ Hx) as (_ & Hcase & _). cbn [fst snd] in Hcase.
    assert (Hc : Clip x = x); [| rewrite Hc; reflexivity].
    destruct Hcase as [(_ & Hlx) | [(_ & Hs) | [(_ & Hs) | [(_ & Hs) | (_ & _ & Hlx)]]]].
    + exact (H _ Hx Hlx).
    + apply exactNumber_Clip. exact Hs.
    + destruct x; cbn [numberSlice] in Hs; try contradiction; [reflexivity |].
      destruct Hs as (_ & -> & _ & Hs). apply All_Forall in Hs. cbn [Clip].
      rewrite map_id_Forall, firstn_all; [reflexivity |].
      eapply Forall_impl; [| exact Hs]. intros y (_ & Hy). apply exactNumber_Clip. exact Hy.
    + destruct x; cbn [stringSlice] in Hs; try contradiction; [reflexivity |].
      destruct Hs as (_ & -> & _ & Hs). apply All_Forall in Hs. cbn [Clip].
      rewrite map_id_Forall, firstn_all; [reflexivity |].
      eapply Forall_impl; [| exact Hs]. intros y (Hy & _).
      destruct y; try discriminate Hy. reflexivity.
    + exact (H _ Hx Hlx).
  - destruct Hl as (_ & _ & Hlx). rewrite (IHv Hlx). reflexivity.
  - destruct Hl as (_ & _ & Hlx). rewrite (IHv Hlx). reflexivity.
Qed.

(** C1 (as amended).  For every value [v] that is lossless once its spare
    capacity is cut off (see [lossless] and [Clip]) and enough fuel, [Encode]
    succeeds and [Decode] of its result into a zero target of the type of
    [v] leaves [Clip v] in the target: [v] itself, slices coming back with
    their capacity cut to their length.  A lossless [v] has no spare capacity
    and comes back as it is. *)
Theorem C1_lossless_values_round_trip v :
  lossless e (Clip v) ->
  (exists n0, forall n, (n0 <= n)%nat ->
     exists av, Encode n e v = Ok av
                /\ Decode n d (Some av) (VPtr (typeOf v) (Some (Zero (typeOf v))))
                   = Ok (VPtr (typeOf v) (Some (Clip v))))
  /\ (lossless e v -> Clip v = v).
Proof.
  intros Hl. split; [| apply Clip_lossless].
  destruct (lossless_round_trips (Clip v) Hl) as [n0 Hn0].
  exists n0. intros n Hn. destruct (Hn0 n Hn) as (av & He & _ & _ & Hd).
  rewrite encode_Clip, typeOf_Clip in *.
  exists av. split; [exact He |].
  destruct n as [| n]; [discriminate He |].
  unfold Decode. rewrite decode_through_pointer, Hd. reflexivity.
Qed.

End RoundTrip.

(** ** The claims on any-type targets, chains of pointers and slices of
    byte slices *)

Section TargetsAndByteSlices.
Context {FO : FloatOps}.

Lemma indirect_interface o dn :
  holdsPointer o = false -> indirect (VIface o) true dn = Ok ([], VIface o, true).
Proof.
  intros H. rewrite indirect_loop. destruct o as [x |]; [| reflexivity].
  destruct x; try reflexivity. destruct p; [discriminate H | reflexivity].
Qed.

Lemma decodeSwitch_number dec av s v cs fieldTag :
  wireNumber av s -> decodeSwitch dec av v cs fieldTag = decodeNumber (Some s) v cs.
Proof.
  intros (HN & _ & HB & HBOOL & HBS & HL & HM). unfold decodeSwitch.
  rewrite HB, HBOOL, HBS, HL, HM, HN. reflexivity.
Qed.

(** Decoding into an interface that does not hold a non-nil pointer *)
Lemma decode_number_interface n d av s o fieldTag :
  wireNumber av s -> holdsPointer o = false ->
  decode (Datatypes.S n) d (Some av) (VIface o) true fieldTag
  = (i <- decodeNumberToInterface s ;; Ok (VIface (Some i))).
Proof.
  intros Hav Ho. cbn [decode isNullAV].
  destruct Hav as (HN & HNULL & Hrest). rewrite HNULL. cbn [isSome].
  rewrite (indirect_interface _ _ Ho). cbn [bind].
  rewrite (decodeSwitch_number _ _ s) by (repeat split; tauto).
  unfold decodeNumber. cbn [kindOf deref bind setv].
  destruct (decodeNumberToInterface s); reflexivity.
Qed.

(** Through a non-nil pointer held by an interface the decoder reaches the
    pointee. *)
Lemma decode_interface_pointer n d av t y fieldTag :
  isNullAV (Some av) = false ->
  decode (Datatypes.S n) d (Some av) (VIface (Some (VPtr t (Some y)))) true fieldTag
  = (y' <- decode (Datatypes.S n) d (Some av) y true fieldTag ;;
     Ok (VIface (Some (VPtr t (Some y'))))).
Proof.
  intros Hnull. cbn [decode]. rewrite Hnull, !indirect_loop.
  cbn [indirectLoop negb orb kindOfV andb]. rewrite Bool.andb_false_r.
  destruct (indirectLoop y true false) as [[[fs x] cs] | | |]; cbn [bind]; try reflexivity.
  destruct (decodeSwitch _ _ x cs fieldTag); reflexivity.
Qed.

(** C3 (as amended).  A wire number decoded into a settable any-type target
    that does not hold a non-nil pointer is tried as a signed 64-bit integer,
    then as an unsigned 64-bit integer, then as a float, and the first parse
    that succeeds fixes the native type stored in the target; when all three
    fail the call returns the error of the float parse.  Through [Decode]
    "123" gives the int 123, "18446744073709551615" a uint, and "123.5" the
    float64 that [ParseFloat] reads; so do the numerals that [FormatInt] and
    [FormatUint] print. *)
Theorem C3_number_into_any_type_target : forall fuel d o fieldTag,
  holdsPointer o = false ->
  (forall av s, wireNumber av s ->
     (forall i, ParseInt s = inl i ->
        decode (Datatypes.S fuel) d (Some av) (VIface o) true fieldTag
        = Ok (VIface (Some (VInt KInt i))))
     /\ (forall k u, ParseInt s = inr k -> ParseUint s = inl u ->
        decode (Datatypes.S fuel) d (Some av) (VIface o) true fieldTag
        = Ok (VIface (Some (VUint KUint u))))
     /\ (forall k k' f, ParseInt s = inr k -> ParseUint s = inr k' -> ParseFloat s = inl f ->
        decode (Datatypes.S fuel) d (Some av) (VIface o) true fieldTag
        = Ok (VIface (Some (VFloat64 f))))
     /\ (forall k k' k'', ParseInt s = inr k -> ParseUint s = inr k' ->
        ParseFloat s = inr k'' ->
        decode (Datatypes.S fuel) d (Some av) (VIface o) true fieldTag
        = Err (NumError "ParseFloat" k'')))
  /\ Decode (Datatypes.S fuel) d (Some (setN emptyAV (Some "123")))
            (VPtr TInterface (Some (VIface o)))
     = Ok (VPtr TInterface (Some (VIface (Some (VInt KInt 123)))))
  /\ Decode (Datatypes.S fuel) d (Some (setN emptyAV (Some "18446744073709551615")))
            (VPtr TInterface (Some (VIface o)))
     = Ok (VPtr TInterface (Some (VIface (Some (VUint KUint 18446744073709551615)))))
  /\ (forall f, ParseFloat "123.5" = inl f ->
      Decode (Datatypes.S fuel) d (Some (setN emptyAV (Some "123.5")))
             (VPtr TInterface (Some (VIface o)))
      = Ok (VPtr TInterface (Some (VIface (Some (VFloat64 f))))))
  /\ (forall i, - 2 ^ 63 <= i < 2 ^ 63 ->
      decode (Datatypes.S fuel) d (Some (setN emptyAV (Some (FormatInt i)))) (VIface o)
             true fieldTag
      = Ok (VIface (Some (VInt KInt i))))
  /\ (forall u, 2 ^ 63 <= u <= maxUint64 ->
      decode (Datatypes.S fuel) d (Some (setN emptyAV (Some (FormatUint u)))) (VIface o)
             true fieldTag
      = Ok (VIface (Some (VUint KUint u)))).
Proof.
  intros fuel d o fieldTag Ho.
  assert (Hw : forall s, wireNumber (setN emptyAV (Some s)) s)
    by (intros s; repeat split).
  assert (HD : forall s,
    Decode (Datatypes.S fuel) d (Some (setN emptyAV (Some s)))
           (VPtr TInterface (Some (VIface o)))
    = (i <- decodeNumberToInterface s ;; Ok (VPtr TInterface (Some (VIface (Some i)))))).
  { intros s. unfold Decode. rewrite decode_through_pointer.
    rewrite (decode_number_interface _ _ _ s _ _ (Hw s) Ho).
    destruct (decodeNumberToInterface s); reflexivity. }
  split; [| split; [| split; [| split; [| split]]]].
  - intros av s Hav. rewrite (decode_number_interface _ _ _ s _ _ Hav Ho).
    unfold decodeNumberToInterface. repeat split.
    + intros i H. rewrite H. reflexivity.
    + intros k u H1 H2. rewrite H1, H2. reflexivity.
    + intros k k' f H1 H2 H3. rewrite H1, H2, H3. reflexivity.
    + intros k k' k'' H1 H2 H3. rewrite H1, H2, H3. reflexivity.
  - rewrite HD. reflexivity.
  - rewrite HD. reflexivity.
  - intros f H. rewrite HD. unfold decodeNumberToInterface.
    change (ParseInt "123.5") with (@inr Z NumErrKind ErrSyntax).
    change (ParseUint "123.5") with (@inr Z NumErrKind ErrSyntax).
    cbv iota. rewrite H. reflexivity.
  - intros i Hi. rewrite (decode_number_interface _ _ _ _ _ _ (Hw _) Ho).
    unfold decodeNumberToInterface. rewrite ParseInt_FormatInt by assumption. reflexivity.
  - intros u Hu. rewrite (decode_number_interface _ _ _ _ _ _ (Hw _) Ho).
    unfold decodeNumberToInterface. rewrite ParseInt_FormatUint_range by assumption.
    rewrite ParseUint_FormatUint by lia. reflexivity.
Qed.

(** ** Null through a chain of pointers *)

Lemma chain_isPtr ts t p : isPtrKind (kindOf (plug (map FPtr ts) (VPtr t p))) = true.
Proof. destruct ts; reflexivity. Qed.

(** A settable pointer to a pointer is walked through when decoding null. *)
Lemma decode_null_through_pointer n d av t z fieldTag :
  isNullAV av = true -> isPtrKind (kindOf z) = true ->
  decode (Datatypes.S n) d av (VPtr t (Some z)) true fieldTag
  = (y <- decode (Datatypes.S n) d av z true fieldTag ;; Ok (VPtr t (Some y))).
Proof.
  intros Hnull Hz. cbn [decode]. rewrite Hnull, !indirect_loop.
  cbn [indirectLoop kindOfV]. rewrite Hz. cbn [negb andb].
  destruct (indirectLoop z true true) as [[[fs x] cs] | | |]; cbn [bind]; try reflexivity.
  destruct (decodeNull x cs); reflexivity.
Qed.

Lemma decode_null_chain n d av fieldTag t p : forall ts,
  isNullAV av = true -> isPtrKind (kindOfV p) = false ->
  decode (Datatypes.S n) d av (plug (map FPtr ts) (VPtr t p)) true fieldTag
  = Ok (plug (map FPtr ts) (VPtr t None)).
Proof.
  intros ts Hnull Hp. induction ts as [| t1 ts IH].
  - cbn [map plug decode]. rewrite Hnull, indirect_loop.
    cbn [indirectLoop]. rewrite Hp. reflexivity.
  - cbn [map plug]. rewrite decode_null_through_pointer by (assumption || apply chain_isPtr).
    rewrite IH. reflexivity.
Qed.

(** C7 (as amended).  Decoding wire null into a settable chain of non-nil
    pointers that ends in a value that is not a pointer sets the innermost
    pointer to nil and leaves every pointer above it as it is, also when the
    chain is reached through the pointer handed to [Decode]; a chain that
    ends in a nil pointer is left as it is. *)
Theorem C7_null_resets_innermost_pointer : forall fuel d av ts t x fieldTag,
  isNullAV av = true ->
  isPtrKind (kindOf x) = false ->
  decode (Datatypes.S fuel) d av (plug (map FPtr ts) (VPtr t (Some x))) true fieldTag
    = Ok (plug (map FPtr ts) (VPtr t None))
  /\ (forall t0,
      Decode (Datatypes.S fuel) d av (VPtr t0 (Some (plug (map FPtr ts) (VPtr t (Some x)))))
      = Ok (VPtr t0 (Some (plug (map FPtr ts) (VPtr t None)))))
  /\ decode (Datatypes.S fuel) d av (plug (map FPtr ts) (VPtr t None)) true fieldTag
    = Ok (plug (map FPtr ts) (VPtr t None)).
Proof.
  intros fuel d av ts t x fieldTag Hnull Hx.
  split; [| split].
  - apply decode_null_chain; assumption.
  - intros t0. unfold Decode. rewrite decode_through_pointer.
    rewrite decode_null_chain by assumption. reflexivity.
  - apply decode_null_chain; [assumption | reflexivity].
Qed.

(** ** Slices of byte slices *)

(** A []byte element under the tag [encodeList] passes down: null when it
    has no bytes, its bytes otherwise. *)
Lemma encode_byteSlice_elem n e x oe :
  isByteSlice (typeOf x) = true ->
  encode (Datatypes.S n) e emptyAV x (mkTag oe false false false false false)
  = Ok (if isEmptyElem x then nullAV else setB emptyAV (Some (bytesOf x))).
Proof.
  intros Hx. pose proof (isByteSlice_inv _ Hx) as Ht.
  unfold isEmptyElem, bytesOf.
  destruct x; try discriminate Ht; cbn [typeOf] in Ht; injection Ht as ->.
  - cbn [encode valueElem tryMarshaler OmitEmpty emptyValue kindOf elemsOf List.length Nat.eqb].
    destruct oe; [reflexivity |]. cbn [andb]. unfold encodeSlice. reflexivity.
  - cbn [encode valueElem tryMarshaler OmitEmpty emptyValue kindOf elemsOf].
    destruct (oe && Nat.eqb len 0) eqn:E.
    + apply andb_prop in E. destruct E as [_ E]. apply Nat.eqb_eq in E. subst len.
      reflexivity.
    + unfold encodeSlice. cbn [typeOf isByteSlice elemsOf]. rewrite List.length_map.
      destruct (Nat.eqb (List.length (firstn len arr)) 0); reflexivity.
Qed.

Lemma keptElems_byteSlice_elems n e fieldTag : forall elems,
  Forall (fun x => isByteSlice (typeOf x) = true) elems ->
  keptElems (encode (Datatypes.S n) e emptyAV) fieldTag elems
  = Ok (map (fun x => if isEmptyElem x then nullAV else setB emptyAV (Some (bytesOf x)))
            (filter (fun x => negb (isEmptyElem x && OmitEmptyElem fieldTag)) elems)).
Proof.
  induction 1 as [| x rest Hx _ IH]; [reflexivity |].
  cbn [keptElems filter]. rewrite (encode_byteSlice_elem _ _ _ _ Hx), IH.
  destruct (isEmptyElem x) eqn:E; destruct (OmitEmptyElem fieldTag);
    cbn [keepOrOmitEmpty nullAV setB emptyAV dynamodb.NULL isSome andb negb bind map];
    rewrite ?E; reflexivity.
Qed.

Lemma byteSliceSlice_shape v :
  isByteSliceSlice (typeOf v) = true ->
  valueElem v = Some v /\ kindOf v = reflect.Slice
  /\ (emptyValue (Some v) = true -> elemsOf v = []).
Proof.
  intros Hv. destruct v; try discriminate Hv; repeat split; try reflexivity.
  cbn [emptyValue elemsOf]. intros H. apply Nat.eqb_eq in H. subst len. reflexivity.
Qed.

(** C10 (as amended).  A value of type [][]byte goes through the binary-set
    branch whatever the field options, so a successful encoding is null or
    a non-empty binary set and never a list.  With byte slices as elements:
    the result is the binary set of the non-empty elements in input order,
    null when there is none, provided that no element is empty or that
    [omitemptyelem] is set; an empty element without [omitemptyelem] makes
    the encoder fail with the set-element error. *)
Theorem C10_byte_slices_force_binary_set : forall fuel e v fieldTag,
  isByteSliceSlice (typeOf v) = true ->
  (forall r, encode fuel e emptyAV v fieldTag = Ok r ->
     dynamodb.L r = None
     /\ (r = nullAV \/ exists bs, bs <> [] /\ r = setBS emptyAV (Some bs)))
  /\ (Forall (fun x => isByteSlice (typeOf x) = true) (elemsOf v) ->
      (OmitEmptyElem fieldTag = true \/ Forall (fun x => isEmptyElem x = false) (elemsOf v) ->
         encode (Datatypes.S (Datatypes.S fuel)) e emptyAV v fieldTag
         = Ok (match filter (fun x => negb (isEmptyElem x)) (elemsOf v) with
               | [] => nullAV
               | kept => setBS emptyAV (Some (map bytesOf kept))
               end))
      /\ (OmitEmptyElem fieldTag = false ->
          Exists (fun x => isEmptyElem x = true) (elemsOf v) ->
          encode (Datatypes.S (Datatypes.S fuel)) e emptyAV v fieldTag
          = Err (InvalidMarshalError binSetMsg))).
Proof.
  intros fuel e v fieldTag Hv.
  pose proof (byteSliceSlice_not_byteSlice _ Hv) as Hnb.
  destruct (byteSliceSlice_shape v Hv) as (Hself & Hkind & Hempty).
  split.
  - intros r. destruct fuel as [| n]; [discriminate |].
    cbn [encode]. rewrite Hself. cbn [tryMarshaler].
    destruct (OmitEmpty fieldTag && emptyValue (Some v));
      [intros [= <-]; split; [reflexivity | left; reflexivity] |].
    rewrite Hkind. intros H. apply encodeSlice_shape in H.
    destruct H as [-> | [(Hc & _) | [(_ & _ & bs & Hbs & ->) | [(_ & Hc & _)
                  | [(_ & Hc & _) | (_ & Hc & _)]]]]].
    + split; [reflexivity | left; reflexivity].
    + congruence.
    + split; [reflexivity | right; exists bs; split; [assumption | reflexivity]].
    + rewrite Hv, Bool.orb_true_r in Hc. discriminate.
    + rewrite Hv, Bool.orb_true_r in Hc. discriminate.
    + rewrite Hv, Bool.orb_true_r in Hc. discriminate.
  - intros Hel.
    pose proof (keptElems_byteSlice_elems fuel e fieldTag _ Hel) as Hks.
    assert (Hbody : encode (Datatypes.S (Datatypes.S fuel)) e emptyAV v fieldTag
                    = if OmitEmpty fieldTag && emptyValue (Some v) then Ok nullAV
                      else encodeSlice (encode (Datatypes.S fuel) e emptyAV) emptyAV v fieldTag).
    { cbn [encode]. rewrite Hself. cbn [tryMarshaler]. rewrite Hkind. reflexivity. }
    assert (Hslice : encodeSlice (encode (Datatypes.S fuel) e emptyAV) emptyAV v fieldTag
                     = (r <- appendAll elemFnBS
                         (map (fun x => if isEmptyElem x then nullAV
                                        else setB emptyAV (Some (bytesOf x)))
                              (filter (fun x => negb (isEmptyElem x && OmitEmptyElem fieldTag))
                                      (elemsOf v)))
                         O (setBS emptyAV (Some [])) ;;
                        if Nat.eqb (fst r) 0 then Ok nullAV else Ok (snd r))).
    { unfold encodeSlice, encodeList. rewrite Hnb, Hv, Bool.orb_true_r.
      rewrite (encodeListLoop_kept _ fieldTag _ _ _ _ _ Hks). reflexivity. }
    split.
    + intros Hcase.
      assert (Hf : filter (fun x => negb (isEmptyElem x && OmitEmptyElem fieldTag)) (elemsOf v)
                   = filter (fun x => negb (isEmptyElem x)) (elemsOf v)).
      { destruct Hcase as [Ho | Hne].
        - rewrite Ho. apply List.filter_ext. intros x. rewrite Bool.andb_true_r. reflexivity.
        - apply List.filter_ext_in. intros x Hx. rewrite List.Forall_forall in Hne.
          rewrite (Hne x Hx). reflexivity. }
      rewrite Hbody.
      destruct (OmitEmpty fieldTag && emptyValue (Some v)) eqn:Eo.
      * apply andb_prop in Eo. destruct Eo as [_ Eo]. rewrite (Hempty Eo). reflexivity.
      * rewrite Hslice, Hf.
        set (kept := filter (fun x => negb (isEmptyElem x)) (elemsOf v)).
        assert (Hm : map dynamodb.B
                       (map (fun x => if isEmptyElem x then nullAV
                                      else setB emptyAV (Some (bytesOf x))) kept)
                     = map Some (map bytesOf kept)).
        { rewrite !List.map_map. apply List.map_ext_in. intros x Hx.
          apply List.filter_In in Hx. destruct Hx as [_ Hx].
          apply Bool.negb_true_iff in Hx. rewrite Hx. reflexivity. }
        pose proof (appendAll_ok dynamodb.BS setBS dynamodb.B binSetMsg
                      (fun _ _ => eq_refl) (fun _ _ _ => eq_refl) setBS_get
                      _ _ O (setBS emptyAV (Some [])) [] eq_refl Hm) as H.
        change (appendAll elemFnBS
                  (map (fun x => if isEmptyElem x then nullAV
                                 else setB emptyAV (Some (bytesOf x))) kept)
                  0 (setBS emptyAV (Some []))
                = Ok ((0 + List.length
                             (map (fun x => if isEmptyElem x then nullAV
                                            else setB emptyAV (Some (bytesOf x))) kept))%nat,
                      setBS emptyAV (Some (map bytesOf kept)))) in H.
        rewrite H. cbn [bind fst snd Nat.add]. rewrite List.length_map.
        destruct kept; reflexivity.
    + intros Ho Hex. rewrite Hbody.
      assert (Hne : elemsOf v <> []) by (intros E; rewrite E in Hex; inversion Hex).
      destruct (OmitEmpty fieldTag && emptyValue (Some v)) eqn:Eo.
      * apply andb_prop in Eo. destruct Eo as [_ Eo]. elim Hne. exact (Hempty Eo).
      * rewrite Hslice, Ho.
        assert (Hf : filter (fun x => negb (isEmptyElem x && false)) (elemsOf v) = elemsOf v).
        { apply List.forallb_filter_id. apply List.forallb_forall. intros x _.
          rewrite Bool.andb_false_r. reflexivity. }
        rewrite Hf.
        pose proof (appendAll_err dynamodb.BS setBS dynamodb.B binSetMsg
                      (map (fun x => if isEmptyElem x then nullAV
                                     else setB emptyAV (Some (bytesOf x))) (elemsOf v))
                      O (setBS emptyAV (Some []))) as H.
        change (Exists (fun k => dynamodb.B k = None)
                  (map (fun x => if isEmptyElem x then nullAV
                                 else setB emptyAV (Some (bytesOf x))) (elemsOf v)) ->
                appendAll elemFnBS
                  (map (fun x => if isEmptyElem x then nullAV
                                 else setB emptyAV (Some (bytesOf x))) (elemsOf v))
                  0 (setBS emptyAV (Some []))
                = Err (InvalidMarshalError binSetMsg)) in H.
        rewrite H; [reflexivity |].
        apply List.Exists_exists in Hex. destruct Hex as (x & Hin & Hx).
        apply List.Exists_exists. exists nullAV. split; [| reflexivity].
        apply List.in_map_iff. exists x. rewrite Hx. split; [reflexivity | exact Hin].
Qed.

End TargetsAndByteSlices.

(** * Further properties of the encoder and the decoder

    What the code does beyond the claims above: the entry points, the
    branches of [encode] by kind, field- and element-level omission, the
    decoders of binaries, sets, lists, maps and records, and the walk through
    pointers. *)

Section FurtherProperties.
Context {FO : FloatOps}.

(** ** Pointers and interfaces on the way in *)

Lemma valueElem_resolved v : forall x,
  valueElem v = Some x ->
  valueElem x = Some x /\ isPtrKind (kindOf x) = false /\ kindOf x <> reflect.Interface.
Proof.
  induction v using value_nested_ind; intros x Hx; cbn [valueElem] in Hx;
    try discriminate Hx; try (apply IHv; exact Hx);
    injection Hx as <-; repeat split; discriminate.
Qed.

Lemma encode_resolved fuel e av v fieldTag x :
  valueElem v = Some x -> encode fuel e av v fieldTag = encode fuel e av x fieldTag.
Proof.
  intros Hx. destruct fuel as [| n]; [reflexivity |].
  cbn [encode]. rewrite Hx, (proj1 (valueElem_resolved v x Hx)). reflexivity.
Qed.

(** X1. [encode] works on what [valueElem] resolves: encoding a value
    behind non-nil pointers and interfaces is encoding the value at the end
    of the chain, which is never itself a pointer or an interface, and a
    chain that ends in nil encodes as null whatever the tag. *)
Theorem encode_sees_through_indirections : forall fuel e av v fieldTag,
  (forall x, valueElem v = Some x ->
     encode fuel e av v fieldTag = encode fuel e av x fieldTag
     /\ isPtrKind (kindOf x) = false /\ kindOf x <> reflect.Interface)
  /\ (valueElem v = None -> encode (Datatypes.S fuel) e av v fieldTag = Ok nullAV)
  /\ (forall t, encode fuel e av (VPtr t (Some v)) fieldTag = encode fuel e av v fieldTag)
  /\ encode fuel e av (VIface (Some v)) fieldTag = encode fuel e av v fieldTag.
Proof.
  intros fuel e av v fieldTag. split; [| split; [| split]].
  - intros x Hx. split; [apply encode_resolved; exact Hx |].
    apply (valueElem_resolved v x Hx).
  - intros Hn. cbn [encode]. rewrite Hn. rewrite Bool.andb_false_r. reflexivity.
  - intros t. destruct fuel; reflexivity.
  - destruct fuel; reflexivity.
Qed.

(** ** Records field by field *)

Lemma encodeStructFields_app enc : forall fs1 fs2 acc,
  encodeStructFields enc (fs1 ++ fs2) acc
  = (m <- encodeStructFields enc fs1 acc ;; encodeStructFields enc fs2 m).
Proof.
  induction fs1 as [| [f x] fs1 IH]; intros fs2 acc; [reflexivity |].
  cbn [List.app encodeStructFields].
  destruct (String.eqb (Name f) ""); [reflexivity |].
  destruct (keepOrOmitEmpty _ _) as [[elem |] | | |]; cbn [bind]; try reflexivity; apply IH.
Qed.

Lemma encodeStructFields_skip enc f x fs acc :
  Name f <> "" -> keepOrOmitEmpty (OmitEmpty (ftag f)) (enc x (ftag f)) = Ok None ->
  encodeStructFields enc ((f, x) :: fs) acc = encodeStructFields enc fs acc.
Proof.
  intros Hn Hk. cbn [encodeStructFields].
  rewrite (proj2 (String.eqb_neq _ _) Hn), Hk. reflexivity.
Qed.

Lemma Encode_record n e fs :
  Encode (Datatypes.S n) e (VStruct fs) = encodeStruct (encode n e emptyAV) emptyAV fs.
Proof. unfold Encode. apply encode_record. Qed.

(** X2. A record field with the [omitempty] option whose value is empty
    leaves no entry: the record encodes as it does without the field. *)
Theorem omitempty_field_leaves_no_entry : forall n e fs1 f x fs2,
  Name f <> "" -> OmitEmpty (ftag f) = true -> emptyValue (valueElem x) = true ->
  Encode (Datatypes.S (Datatypes.S n)) e (VStruct (fs1 ++ (f, x) :: fs2))
  = Encode (Datatypes.S (Datatypes.S n)) e (VStruct (fs1 ++ fs2)).
Proof.
  intros n e fs1 f x fs2 Hn Ho He. rewrite !Encode_record. unfold encodeStruct.
  rewrite !encodeStructFields_app.
  destruct (encodeStructFields _ fs1 []) as [m | | |]; cbn [bind]; try reflexivity.
  rewrite encodeStructFields_skip; [reflexivity | exact Hn |].
  rewrite (encode_omitted _ _ _ _ Ho He), Ho. reflexivity.
Qed.

(** X3. A [uintptr] is reported as unsupported by [Encode], and as a record
    field it is left out, whatever its tag and value: the record encodes as
    it does without the field. *)
Theorem uintptr_field_is_omitted : forall n e fs1 f z fs2,
  Name f <> "" ->
  Encode (Datatypes.S (Datatypes.S n)) e (VStruct (fs1 ++ (f, VUint KUintptr z) :: fs2))
  = Encode (Datatypes.S (Datatypes.S n)) e (VStruct (fs1 ++ fs2))
  /\ Encode (Datatypes.S n) e (VUint KUintptr z)
     = Err (unsupportedMarshalTypeError (TUint KUintptr)).
Proof.
  intros n e fs1 f z fs2 Hn. split; [| reflexivity].
  rewrite !Encode_record. unfold encodeStruct. rewrite !encodeStructFields_app.
  destruct (encodeStructFields _ fs1 []) as [m | | |]; cbn [bind]; try reflexivity.
  rewrite encodeStructFields_skip; [reflexivity | exact Hn |].
  cbn [encode valueElem tryMarshaler emptyValue kindOf].
  destruct (OmitEmpty (ftag f)) eqn:Ho; cbn [andb].
  - destruct (z =? 0); reflexivity.
  - reflexivity.
Qed.

(** X4. The first field whose encoding fails with an error other than
    "unsupported type" makes the whole record fail with that error. *)
Theorem field_error_aborts_record : forall n e fs1 f x fs2 m err,
  encodeStructFields (encode (Datatypes.S n) e emptyAV) fs1 [] = Ok m ->
  Name f <> "" ->
  encode (Datatypes.S n) e emptyAV x (ftag f) = Err err ->
  (forall t, err <> unsupportedMarshalTypeError t) ->
  Encode (Datatypes.S (Datatypes.S n)) e (VStruct (fs1 ++ (f, x) :: fs2)) = Err err.
Proof.
  intros n e fs1 f x fs2 m err H1 Hn He Hu. rewrite Encode_record. unfold encodeStruct.
  rewrite encodeStructFields_app, H1. cbn [bind encodeStructFields].
  rewrite (proj2 (String.eqb_neq _ _) Hn), He.
  destruct err; try reflexivity. exfalso. exact (Hu _ eq_refl).
Qed.


(** ** Empty names *)

Lemma encodeStructFields_empty_name enc : forall fs acc,
  Exists (fun fv : field * value => Name (fst fv) = "") fs ->
  forall m, encodeStructFields enc fs acc <> Ok m.
Proof.
  induction fs as [| [f x] fs IH]; intros acc Hex m; [inversion Hex |].
  cbn [encodeStructFields].
  destruct (String.eqb (Name f) "") eqn:Hn; [discriminate |].
  apply Exists_cons in Hex. destruct Hex as [Hh | Ht].
  - cbn [fst] in Hh. apply String.eqb_neq in Hn. contradiction.
  - destruct (keepOrOmitEmpty _ _) as [[elem |] | | |]; cbn [bind]; try discriminate;
      apply IH; exact Ht.
Qed.

Lemma encodeMapEntries_empty_name enc fieldTag : forall es acc,
  Exists (fun kv : mapkey * value => Sprint (fst kv) = "") es ->
  forall m, encodeMapEntries enc fieldTag es acc <> Ok m.
Proof.
  induction es as [| [k x] es IH]; intros acc Hex m; [inversion Hex |].
  cbn [encodeMapEntries].
  destruct (String.eqb (Sprint k) "") eqn:Hn; [discriminate |].
  apply Exists_cons in Hex. destruct Hex as [Hh | Ht].
  - cbn [fst] in Hh. apply String.eqb_neq in Hn. contradiction.
  - destruct (keepOrOmitEmpty _ _) as [[elem |] | | |]; cbn [bind]; try discriminate;
      apply IH; exact Ht.
Qed.

(** X5. A record with a field of empty name, and a map with a key that
    prints as the empty string, never encode successfully. *)
Theorem empty_name_never_encodes : forall fuel e,
  (forall fs, Exists (fun fv : field * value => Name (fst fv) = "") fs ->
     isOk (Encode fuel e (VStruct fs)) = false)
  /\ (forall k t es, Exists (fun kv : mapkey * value => Sprint (fst kv) = "") es ->
     isOk (Encode fuel e (VMap k t es)) = false).
Proof.
  intros fuel e. split.
  - intros fs Hex. destruct fuel as [| n]; [reflexivity |].
    rewrite Encode_record. unfold encodeStruct.
    pose proof (encodeStructFields_empty_name (encode n e emptyAV) fs [] Hex) as Hne.
    destruct (encodeStructFields _ fs []) as [m | | |]; cbn [bind]; try reflexivity.
    exfalso. exact (Hne m eq_refl).
  - intros k t es Hex. destruct fuel as [| n]; [reflexivity |].
    unfold Encode. cbn [encode valueElem tryMarshaler tag0 OmitEmpty andb kindOf].
    unfold encodeMap.
    pose proof (encodeMapEntries_empty_name (encode n e emptyAV) tag0 es [] Hex) as Hne.
    destruct (encodeMapEntries _ _ es []) as [m | | |]; cbn [bind]; try reflexivity.
    exfalso. exact (Hne m eq_refl).
Qed.

(** ** Binary values *)

(** X6. [decodeBinary] into a settable []byte: the result is a []byte of
    the length of the wire binary holding exactly its bytes; when the
    target is not nil and its capacity suffices the backing array is reused,
    keeping its length and the cells past the bytes written. *)
Theorem decodeBinary_into_byte_slice : forall b v,
  isByteSlice (typeOf v) = true ->
  exists e arr,
    decodeBinary b v true = Ok (VSlice e arr (List.length b))
    /\ TSlice e = typeOf v
    /\ firstn (List.length b) arr = bytesValue b
    /\ (List.length b <= capOf v -> sliceIsNil v = false ->
        List.length arr = capOf v
        /\ skipn (List.length b) arr = skipn (List.length b) (match v with VSlice _ a _ => a | _ => [] end))%nat.
Proof.
  intros b v Hb.
  assert (Hlen : List.length (bytesValue b) = List.length b)
    by (unfold bytesValue; apply List.length_map).
  assert (Hall : firstn (List.length b) (bytesValue b) = bytesValue b)
    by (rewrite <- Hlen; apply List.firstn_all).
  pose proof (isByteSlice_inv _ Hb) as Ht.
  destruct v; try discriminate Ht; cbn [typeOf] in Ht; injection Ht as ->.
  - (* nil slice *)
    eexists _, _. split; [reflexivity |]. split; [reflexivity |]. split; [exact Hall |].
    intros _ Hnil. discriminate Hnil.
  - unfold decodeBinary. cbn [kindOf typeOf isByteSlice].
    destruct (Nat.ltb (List.length arr) (List.length b)) eqn:Hlt.
    + eexists _, _. split; [reflexivity |]. split; [reflexivity |]. split; [exact Hall |].
      intros Hle _. apply Nat.ltb_lt in Hlt. cbn [capOf] in Hle. lia.
    + apply Nat.ltb_ge in Hlt.
      assert (Hcap : List.length (bytesValue b ++ skipn (List.length b) arr)%list
                     = List.length arr).
      { rewrite List.length_app, List.length_skipn, Hlen. lia. }
      assert (Hfst : firstn (List.length b) (bytesValue b ++ skipn (List.length b) arr)%list
                     = bytesValue b).
      { rewrite List.firstn_app, Hlen, Nat.sub_diag, Hall. cbn [firstn]. apply List.app_nil_r. }
      assert (Hskp : skipn (List.length b) (bytesValue b ++ skipn (List.length b) arr)%list
                     = skipn (List.length b) arr).
      { rewrite List.skipn_app, Hlen, Nat.sub_diag. rewrite <- Hlen at 1.
        rewrite List.skipn_all. reflexivity. }
      destruct (Nat.eqb len (List.length b)) eqn:Hl; cbn [negb setv].
      * apply Nat.eqb_eq in Hl. subst len.
        eexists _, _. split; [reflexivity |]. split; [reflexivity |]. split; [exact Hfst |].
        intros _ _. split; [exact Hcap | exact Hskp].
      * eexists _, _. split; [reflexivity |]. split; [reflexivity |]. split; [exact Hfst |].
        intros _ _. split; [exact Hcap | exact Hskp].
Qed.

(** X7. [decodeBinary] into a settable byte array copies as many bytes as
    fit: the array keeps its length, starts with the wire bytes (cut to the
    array's length) and keeps its cells past them. *)
Theorem decodeBinary_into_byte_array : forall b l,
  exists l',
    decodeBinary b (VArray (TUint KUint8) l) true = Ok (VArray (TUint KUint8) l')
    /\ List.length l' = List.length l
    /\ firstn (List.length b) l' = firstn (List.length l) (bytesValue b)
    /\ skipn (List.length b) l' = skipn (List.length b) l.
Proof.
  intros b l.
  assert (Hlen : List.length (bytesValue b) = List.length b)
    by (unfold bytesValue; apply List.length_map).
  eexists. split; [reflexivity |].
  assert (Hf : List.length (firstn (List.length l) (bytesValue b))
               = Nat.min (List.length l) (List.length b))
    by (rewrite List.length_firstn, Hlen; reflexivity).
  split; [| split].
  - rewrite List.length_app, Hf, List.length_skipn. lia.
  - rewrite List.firstn_app, Hf.
    destruct (Nat.le_ge_cases (List.length b) (List.length l)) as [Hle | Hge].
    + replace (List.length b - Nat.min (List.length l) (List.length b))%nat with O by lia.
      cbn [firstn]. rewrite List.app_nil_r, List.firstn_firstn.
      rewrite Nat.min_l by exact Hle.
      rewrite <- Hlen at 1. rewrite List.firstn_all.
      symmetry. apply List.firstn_all2. lia.
    + rewrite (List.skipn_all2 l) by exact Hge. rewrite List.firstn_nil, List.app_nil_r.
      rewrite List.firstn_firstn. f_equal. lia.
  - rewrite List.skipn_app, Hf.
    destruct (Nat.le_ge_cases (List.length b) (List.length l)) as [Hle | Hge].
    + rewrite List.firstn_all2 by lia.
      rewrite <- Hlen at 1. rewrite List.skipn_all. cbn [List.app].
      replace (List.length b - Nat.min (List.length l) (List.length b))%nat with O by lia.
      reflexivity.
    + rewrite (List.skipn_all2 l) by exact Hge. rewrite List.skipn_nil, List.app_nil_r.
      apply List.skipn_all2. rewrite List.length_firstn. lia.
Qed.

(** ** Slices filled in place *)

Lemma updateNth_length {A} (x : A) : forall l i, List.length (updateNth l i x) = List.length l.
Proof.
  induction l as [| y l IH]; intros [| i]; cbn [updateNth List.length]; try reflexivity.
  rewrite IH. reflexivity.
Qed.

Lemma updateNth_other {A} (x : A) : forall l i j,
  i <> j -> nth_error (updateNth l i x) j = nth_error l j.
Proof.
  induction l as [| y l IH]; intros [| i] [| j] Hij; cbn [updateNth nth_error];
    try reflexivity; try contradiction.
  apply IH. congruence.
Qed.

(** The loop over a slice whose capacity covers the iterations: the backing
    array keeps its length, the length ends at the last index written, and
    the cells outside the written range are untouched. *)
Lemma sliceLoop_shape decElem : forall todo i e arr len v',
  (i + todo <= List.length arr)%nat ->
  sliceLoop decElem todo i (VSlice e arr len) true = Ok v' ->
  exists arr',
    v' = VSlice e arr' (match todo with O => len | _ => i + todo end)%nat
    /\ List.length arr' = List.length arr
    /\ forall j, (j < i \/ i + todo <= j)%nat -> nth_error arr' j = nth_error arr j.
Proof.
  induction todo as [| todo IH]; intros i e arr len v' Hle H.
  - cbn [sliceLoop] in H. injection H as <-. exists arr. repeat split; reflexivity.
  - cbn [sliceLoop SetLen] in H.
    replace (Nat.leb (i + 1) (List.length arr)) with true in H
      by (symmetry; apply Nat.leb_le; lia).
    cbn [setv bind] in H.
    destruct (Index (VSlice e arr (i + 1)) i) as [x | | |]; cbn [bind] in H; try discriminate H.
    destruct (decElem i x) as [x' | | |]; cbn [bind] in H; try discriminate H.
    cbn [setIndex] in H. apply IH in H; [| rewrite updateNth_length; lia].
    destruct H as (arr' & -> & Hlen & Hout). exists arr'. split; [| split].
    + f_equal. destruct todo; lia.
    + rewrite Hlen. apply updateNth_length.
    + intros j Hj. rewrite Hout by lia. apply updateNth_other. lia.
Qed.

Lemma makeRoom_slice v n :
  kindOf v = reflect.Slice ->
  exists e arr len,
    makeRoom v true n = Ok (VSlice e arr len)
    /\ typeOf v = TSlice e
    /\ List.length arr = (if sliceIsNil v || Nat.ltb (capOf v) n then n else capOf v)
    /\ (sliceIsNil v || Nat.ltb (capOf v) n = false -> v = VSlice e arr len).
Proof.
  intros Hk. destruct v; try discriminate Hk; unfold makeRoom.
  - cbn [sliceIsNil orb setv typeOf MakeSlice elemType]. eexists _, _, _.
    split; [reflexivity |]. split; [reflexivity |]. split; [apply List.repeat_length |].
    discriminate.
  - cbn [sliceIsNil orb capOf]. destruct (Nat.ltb (List.length arr) n) eqn:Hlt.
    + cbn [setv typeOf MakeSlice elemType]. eexists _, _, _.
      split; [reflexivity |]. split; [reflexivity |]. split; [apply List.repeat_length |].
      discriminate.
    + eexists _, _, _. split; [reflexivity |]. split; [reflexivity |].
      split; reflexivity.
Qed.

(** What the [case reflect.Slice] of the four container decoders leaves. *)
Lemma slice_case_shape decElem n v v' :
  kindOf v = reflect.Slice -> n <> O ->
  (v1 <- makeRoom v true n ;; sliceLoop decElem (Nat.min (capOf v1) n) O v1 true) = Ok v' ->
  exists e arr,
    v' = VSlice e arr n /\ typeOf v = TSlice e
    /\ List.length arr = (if sliceIsNil v || Nat.ltb (capOf v) n then n else capOf v)
    /\ (sliceIsNil v || Nat.ltb (capOf v) n = false ->
        forall j, (n <= j)%nat ->
          nth_error arr j = nth_error (match v with VSlice _ a _ => a | _ => [] end) j).
Proof.
  intros Hk Hn H.
  destruct (makeRoom_slice v n Hk) as (e & arr & len & Hm & Ht & Hcap & Hsame).
  rewrite Hm in H. cbn [bind capOf] in H.
  assert (Hge : (n <= List.length arr)%nat).
  { rewrite Hcap. destruct (sliceIsNil v || Nat.ltb (capOf v) n) eqn:E; [lia |].
    apply Bool.orb_false_elim in E. destruct E as [_ E]. apply Nat.ltb_ge in E. exact E. }
  rewrite Nat.min_r in H by exact Hge.
  apply sliceLoop_shape in H; [| lia].
  destruct H as (arr' & -> & Hlen & Hout).
  exists e, arr'. split; [| split; [exact Ht | split]].
  - destruct n; [contradiction | reflexivity].
  - rewrite Hlen. exact Hcap.
  - intros E j Hj. rewrite (Hsame E). apply Hout. lia.
Qed.

(** X8. When one of the four container decoders succeeds on a settable
    slice target with a non-empty wire container, [resliced] holds: the
    result has the length of the wire container and the type of the target,
    with a fresh backing array of exactly that length if the target was nil
    or too small, and the old capacity and tail otherwise. *)
Theorem container_into_slice_sets_length : forall dec v v',
  kindOf v = reflect.Slice ->
  (forall avList, avList <> [] -> decodeList dec avList v true = Ok v' ->
     resliced v (List.length avList) v')
  /\ (forall bs, bs <> [] -> decodeBinarySet bs v true = Ok v' ->
     resliced v (List.length bs) v')
  /\ (forall ns, ns <> [] -> decodeNumberSet ns v true = Ok v' ->
     resliced v (List.length ns) v')
  /\ (forall ss, ss <> [] -> decodeStringSet ss v true = Ok v' ->
     resliced v (List.length ss) v').
Proof.
  intros dec v v' Hk.
  assert (Hnz : forall A (l : list A), l <> [] -> List.length l <> O)
    by (intros A [| a l] H; [contradiction | discriminate]).
  split; [| split; [| split]].
  - intros avList Hne H. unfold decodeList in H. rewrite Hk in H.
    exact (slice_case_shape _ _ _ _ Hk (Hnz _ _ Hne) H).
  - intros bs Hne H. unfold decodeBinarySet in H. rewrite Hk in H.
    exact (slice_case_shape _ _ _ _ Hk (Hnz _ _ Hne) H).
  - intros ns Hne H. unfold decodeNumberSet in H. rewrite Hk in H.
    exact (slice_case_shape _ _ _ _ Hk (Hnz _ _ Hne) H).
  - intros ss Hne H. unfold decodeStringSet in H. rewrite Hk in H.
    exact (slice_case_shape _ _ _ _ Hk (Hnz _ _ Hne) H).
Qed.

(** ** Maps and records as targets *)

Lemma mapkeyEqb_sym a b : mapkeyEqb a b = mapkeyEqb b a.
Proof.
  destruct a, b; cbn [mapkeyEqb]; try reflexivity.
  - apply String.eqb_sym.
  - apply Z.eqb_sym.
  - apply Z.eqb_sym.
  - destruct b0, b; reflexivity.
Qed.

Lemma mapkeyEqb_trans a b c :
  mapkeyEqb a b = true -> mapkeyEqb b c = true -> mapkeyEqb a c = true.
Proof.
  destruct a, b, c; cbn [mapkeyEqb]; try discriminate.
  - intros H1 H2. apply String.eqb_eq in H1, H2. apply String.eqb_eq. congruence.
  - intros H1 H2. apply Z.eqb_eq in H1, H2. apply Z.eqb_eq. congruence.
  - intros H1 H2. apply Z.eqb_eq in H1, H2. apply Z.eqb_eq. congruence.
  - destruct b0, b, b1; intros; try discriminate; reflexivity.
Qed.

(** [MapIndex] after [SetMapIndex]: the key written reads the new element,
    every other key reads what it read before. *)
Lemma MapIndex_SetMapIndex key elem key' : forall m,
  MapIndex (SetMapIndex m key elem) key'
  = if mapkeyEqb key' key then Some elem else MapIndex m key'.
Proof.
  induction m as [| [k x] m IH]; cbn [SetMapIndex MapIndex].
  - reflexivity.
  - destruct (mapkeyEqb key k) eqn:Hk; cbn [MapIndex].
    + destruct (mapkeyEqb key' key) eqn:Hk'; [reflexivity |].
      destruct (mapkeyEqb key' k) eqn:Hk''; [| reflexivity].
      rewrite mapkeyEqb_sym in Hk.
      rewrite (mapkeyEqb_trans _ _ _ Hk'' Hk) in Hk'. discriminate Hk'.
    + rewrite IH. destruct (mapkeyEqb key' k) eqn:Hk''; [| reflexivity].
      destruct (mapkeyEqb key' key) eqn:Hk'; [| reflexivity].
      rewrite mapkeyEqb_sym in Hk'.
      rewrite (mapkeyEqb_trans _ _ _ Hk' Hk'') in Hk. discriminate Hk.
Qed.

Lemma decodeMapEntries_lookup dec e : forall avMap m m',
  decodeMapEntries dec e avMap m = Ok m' ->
  (forall key, (forall k av, In (k, av) avMap -> mapkeyEqb key (KeyString k) = false) ->
     MapIndex m' key = MapIndex m key)
  /\ (forall k av, In (k, av) avMap -> MapIndex m' (KeyString k) <> None).
Proof.
  induction avMap as [| [k av] rest IH]; intros m m' H; cbn [decodeMapEntries] in H.
  - injection H as <-. split; [reflexivity |]. intros k av [].
  - destruct (dec av (Zero e) true tag0) as [elem | | |]; cbn [bind] in H; try discriminate H.
    apply IH in H. destruct H as [Hkeep Hset]. split.
    + intros key Hfresh. rewrite Hkeep by (intros; eapply Hfresh; right; eassumption).
      rewrite MapIndex_SetMapIndex, (Hfresh k av) by (left; reflexivity). reflexivity.
    + intros k' av' [Heq | Hin]; [| eapply Hset; eassumption].
      injection Heq as <- <-.
      destruct (List.in_dec String.string_dec k (map fst rest)) as [Hi | Hni].
      * apply List.in_map_iff in Hi. destruct Hi as ([k2 av2] & Hk2 & Hin2).
        cbn [fst] in Hk2. subst k2. eapply Hset; eassumption.
      * rewrite Hkeep.
        { rewrite MapIndex_SetMapIndex.
          replace (mapkeyEqb (KeyString k) (KeyString k)) with true
            by (symmetry; apply String.eqb_refl).
          discriminate. }
        intros k2 av2 Hin2. cbn [mapkeyEqb]. apply String.eqb_neq. intros ->.
        apply Hni. apply List.in_map_iff. exists (k2, av2). split; [reflexivity | exact Hin2].
Qed.

(** X9. [decodeMap] into a map: a key type that is not of kind string is a
    type error; on success the result is a map of the same type in which
    every wire key is present and every key the wire map does not name
    reads what it read before. *)
Theorem decodeMap_into_map_merges : forall dec avMap k e m cs,
  (kindOfType k <> reflect.String ->
     decodeMap dec avMap (VMap k e m) cs = Err (UnmarshalTypeError "map string key" k))
  /\ (forall v', decodeMap dec avMap (VMap k e m) cs = Ok v' ->
      kindOfType k = reflect.String
      /\ exists m', v' = VMap k e m'
         /\ (forall key,
               (forall name av, In (name, av) avMap -> mapkeyEqb key (KeyString name) = false) ->
               MapIndex m' key = MapIndex m key)
         /\ (forall name av, In (name, av) avMap -> MapIndex m' (KeyString name) <> None)).
Proof.
  intros dec avMap k e m cs. cbn [decodeMap]. split.
  - intros Hk. destruct (kindOfType k); try reflexivity. contradiction.
  - intros v' H. destruct (kindOfType k); try discriminate H.
    split; [reflexivity |].
    destruct (decodeMapEntries dec e avMap m) as [m' | | |] eqn:E; cbn [bind] in H;
      try discriminate H.
    injection H as <-. exists m'. split; [reflexivity |].
    exact (decodeMapEntries_lookup dec e avMap m m' E).
Qed.

Lemma decodeStructFields_unknown dec : forall avMap fields cs,
  Forall (fun kv : string * option AttributeValue => fieldByName fields (fst kv) = None) avMap ->
  decodeStructFields dec avMap fields cs = Ok fields.
Proof.
  induction avMap as [| [k av] rest IH]; intros fields cs Hall; [reflexivity |].
  cbn [decodeStructFields]. inversion Hall as [| ? ? Hh Ht]; subst.
  cbn [fst] in Hh. rewrite Hh. apply IH. exact Ht.
Qed.

(** X10. Wire keys that match no field of the record are ignored: a wire
    map made of such keys only leaves the record as it was. *)
Theorem unknown_record_keys_are_ignored : forall n d avMap t fields,
  Forall (fun kv : string * option AttributeValue => fieldByName fields (fst kv) = None) avMap ->
  Decode (Datatypes.S n) d (Some (setM emptyAV (Some avMap))) (VPtr t (Some (VStruct fields)))
  = Ok (VPtr t (Some (VStruct fields))).
Proof.
  intros n d avMap t fields Hall. unfold Decode.
  rewrite decode_through_pointer. cbn [decode isNullAV setM emptyAV dynamodb.NULL isSome].
  rewrite indirect_loop. cbn [indirectLoop bind].
  unfold decodeSwitch. cbn [setM emptyAV dynamodb.B dynamodb.BOOL dynamodb.BS dynamodb.L
    dynamodb.M olen orNil Nat.eqb negb List.length].
  destruct avMap as [| kv avMap]; [reflexivity |].
  cbn [List.length Nat.eqb negb decodeMap].
  rewrite (decodeStructFields_unknown _ _ _ _ Hall). reflexivity.
Qed.

(** ** The variant a value is encoded as *)

Lemma encode_shape fuel e v fieldTag r :
  encode fuel e emptyAV v fieldTag = Ok r ->
  r = nullAV
  \/ exists x, valueElem v = Some x /\
       match kindOf x with
       | reflect.Bool => exists b, r = setBOOL emptyAV (Some b)
       | reflect.String => exists s, r = setS emptyAV (Some s)
       | reflect.Struct | reflect.Map => exists m, m <> [] /\ r = setM emptyAV (Some m)
       | reflect.Slice | reflect.Array =>
           (exists b, b <> [] /\ r = setB emptyAV (Some b))
           \/ (exists bs, bs <> [] /\ r = setBS emptyAV (Some bs))
           \/ (exists ns, ns <> [] /\ r = setNS emptyAV (Some ns))
           \/ (exists ss, ss <> [] /\ r = setSS emptyAV (Some ss))
           \/ (exists l, l <> [] /\ r = setL emptyAV (Some l))
       | reflect.Chan | reflect.Func | reflect.UnsafePointer => r = emptyAV
       | _ => exists s, r = if AsString fieldTag then setS emptyAV (Some s)
                            else setN emptyAV (Some s)
       end.
Proof.
  destruct fuel as [| n]; [discriminate |]. cbn [encode tryMarshaler].
  destruct (valueElem v) as [x |] eqn:Hv;
    [| destruct (OmitEmpty fieldTag && emptyValue None); intros [= <-]; left; reflexivity].
  cbn [tryMarshaler].
  destruct (OmitEmpty fieldTag && emptyValue (Some x)); [intros [= <-]; left; reflexivity |].
  assert (Hm : forall (o : outcome (list (string * option AttributeValue))),
    (m <- o ;; if Nat.eqb (List.length m) 0 then Ok nullAV else Ok (setM emptyAV (Some m))) = Ok r ->
    r = nullAV \/ exists m, m <> [] /\ r = setM emptyAV (Some m)).
  { intros [m | | |]; cbn [bind]; try discriminate.
    destruct m as [| kv m]; cbn [List.length Nat.eqb]; intros [= <-];
      [left; reflexivity | right; exists (kv :: m); split; [discriminate | reflexivity]]. }
  assert (Hs : encodeSlice (encode n e emptyAV) emptyAV x fieldTag = Ok r ->
    r = nullAV
    \/ (exists b, b <> [] /\ r = setB emptyAV (Some b))
       \/ (exists bs, bs <> [] /\ r = setBS emptyAV (Some bs))
       \/ (exists ns, ns <> [] /\ r = setNS emptyAV (Some ns))
       \/ (exists ss, ss <> [] /\ r = setSS emptyAV (Some ss))
       \/ (exists l, l <> [] /\ r = setL emptyAV (Some l))).
  { intros H. apply encodeSlice_shape in H.
    destruct H as [H | [H | [H | [H | [H | H]]]]]; [left; exact H | right ..].
    - left. tauto.
    - right; left. tauto.
    - right; right; left. tauto.
    - right; right; right; left. tauto.
    - right; right; right; right. tauto. }
  destruct x as [b | k z | k z | f | f | s | t | t arr len | t l | kt t | kt t es | fs
                 | t p | o | | |]; cbn [kindOf]; intros H.
  - injection H as <-. right. eexists. split; [reflexivity |]. eexists. reflexivity.
  - right. eexists. split; [reflexivity |]. eexists.
    cbn in H; revert H; destruct (AsString fieldTag); cbn; intros [= <-]; reflexivity.
  - destruct k; try discriminate H; right; (eexists; split; [reflexivity |]);
      eexists; cbn in H; revert H; destruct (AsString fieldTag); cbn; intros [= <-]; reflexivity.
  - right. eexists. split; [reflexivity |]. eexists.
    cbn in H; revert H; destruct (AsString fieldTag); cbn; intros [= <-]; reflexivity.
  - right. eexists. split; [reflexivity |]. eexists.
    cbn in H; revert H; destruct (AsString fieldTag); cbn; intros [= <-]; reflexivity.
  - cbn [encodeScalar encodeString tryMarshaler] in H.
    destruct (Nat.eqb (String.length s) 0 && NullEmptyString e); injection H as <-;
      [left; reflexivity |].
    right. eexists. split; [reflexivity |]. eexists. reflexivity.
  - destruct (Hs H) as [-> | H']; [left; reflexivity |].
    right. eexists. split; [reflexivity | exact H'].
  - destruct (Hs H) as [-> | H']; [left; reflexivity |].
    right. eexists. split; [reflexivity | exact H'].
  - destruct (Hs H) as [-> | H']; [left; reflexivity |].
    right. eexists. split; [reflexivity | exact H'].
  - destruct (Hm _ H) as [-> | H']; [left; reflexivity |].
    right. eexists. split; [reflexivity | exact H'].
  - destruct (Hm _ H) as [-> | H']; [left; reflexivity |].
    right. eexists. split; [reflexivity | exact H'].
  - destruct (Hm _ H) as [-> | H']; [left; reflexivity |].
    right. eexists. split; [reflexivity | exact H'].
  - discriminate H.
  - discriminate H.
  - injection H as <-. right. eexists. split; reflexivity.
  - injection H as <-. right. eexists. split; reflexivity.
  - injection H as <-. right. eexists. split; reflexivity.
Qed.

(** X11. A successful encoding into a fresh wire value sets at most one
    variant field, and which one follows the kind of the resolved value:
    none at all only for chan, func and unsafe pointer, [BOOL] only for
    booleans, [M] only for records and maps, and [B], [BS], [L], [NS] and
    [SS] only for slices and arrays. *)
Theorem encode_sets_one_variant_by_kind : forall fuel e v fieldTag r,
  encode fuel e emptyAV v fieldTag = Ok r ->
  (populated r <= 1)%nat
  /\ (populated r = O ->
      kindOfV (valueElem v) = reflect.Chan \/ kindOfV (valueElem v) = reflect.Func
      \/ kindOfV (valueElem v) = reflect.UnsafePointer)
  /\ (isSome (dynamodb.BOOL r) = true -> kindOfV (valueElem v) = reflect.Bool)
  /\ (isSome (dynamodb.M r) = true ->
      kindOfV (valueElem v) = reflect.Struct \/ kindOfV (valueElem v) = reflect.Map)
  /\ (isSome (dynamodb.B r) || isSome (dynamodb.BS r) || isSome (dynamodb.L r)
      || isSome (dynamodb.NS r) || isSome (dynamodb.SS r) = true ->
      kindOfV (valueElem v) = reflect.Slice \/ kindOfV (valueElem v) = reflect.Array).
Proof.
  intros fuel e v fieldTag r H. apply encode_shape in H.
  destruct H as [-> | (x & -> & H)].
  { cbn. repeat split; try discriminate; try lia. }
  cbn [kindOfV].
  destruct (kindOf x);
    repeat match goal with
           | H : _ \/ _ |- _ => destruct H
           | H : exists _, _ |- _ => destruct H
           | H : _ /\ _ |- _ => destruct H
           end;
    subst r; try destruct (AsString fieldTag);
    cbn; repeat split; intros; try discriminate; try lia; auto.
Qed.

(** X12. [MarshalMap] returns a non-empty map only without an error, for a
    record or a map, and then it is the [M] that [Marshal] returns;
    likewise [MarshalList], for a slice or an array and [L]. *)
Theorem entry_points_return_their_own_container : forall fuel v,
  (forall m err, MarshalMap fuel v = Ok (m, err) -> m <> [] ->
     err = None /\ Marshal fuel v = Ok (setM emptyAV (Some m))
     /\ (kindOfV (valueElem v) = reflect.Struct \/ kindOfV (valueElem v) = reflect.Map))
  /\ (forall l err, MarshalList fuel v = Ok (l, err) -> l <> [] ->
     err = None /\ Marshal fuel v = Ok (setL emptyAV (Some l))
     /\ (kindOfV (valueElem v) = reflect.Slice \/ kindOfV (valueElem v) = reflect.Array)).
Proof.
  intros fuel v. unfold MarshalMap, MarshalList, Marshal, Encode. split.
  - intros m err H Hne.
    destruct (encode fuel NewEncoder emptyAV v tag0) as [r | | |] eqn:E; try discriminate H;
      [| injection H as <- _; contradiction].
    destruct (dynamodb.M r) as [m' |] eqn:EM; injection H as <- <-; [| contradiction].
    apply encode_shape in E. destruct E as [-> | (x & -> & E)]; [discriminate EM |].
    cbn [kindOfV].
    destruct (kindOf x);
      repeat match goal with
             | H : _ \/ _ |- _ => destruct H
             | H : exists _, _ |- _ => destruct H
             | H : _ /\ _ |- _ => destruct H
             end;
      subst r; try discriminate EM; cbn in EM; try discriminate EM;
      injection EM as ->; auto.
  - intros l err H Hne.
    destruct (encode fuel NewEncoder emptyAV v tag0) as [r | | |] eqn:E; try discriminate H;
      [| injection H as <- _; contradiction].
    destruct (dynamodb.L r) as [l' |] eqn:EL; injection H as <- <-; [| contradiction].
    apply encode_shape in E. destruct E as [-> | (x & -> & E)]; [discriminate EL |].
    cbn [kindOfV].
    destruct (kindOf x);
      repeat match goal with
             | H : _ \/ _ |- _ => destruct H
             | H : exists _, _ |- _ => destruct H
             | H : _ /\ _ |- _ => destruct H
             end;
      subst r; try discriminate EL; cbn in EL; try discriminate EL;
      injection EL as ->; auto.
Qed.

(** ** Round trips through the entry points *)

Lemma Decode_into_zero n d av v :
  decode n d (Some av) (Zero (typeOf v)) true tag0 = Ok v ->
  Decode n d (Some av) (VPtr (typeOf v) (Some (Zero (typeOf v))))
  = Ok (VPtr (typeOf v) (Some v)).
Proof.
  intros H. destruct n as [| n]; [discriminate H |].
  unfold Decode. rewrite decode_through_pointer, H. reflexivity.
Qed.

(** X13. A lossless record or map goes through [MarshalMap] and back
    through [UnmarshalMap], into a pointer to the zero value of its type,
    unchanged. *)
Theorem MarshalMap_UnmarshalMap_round_trip : forall v,
  lossless NewEncoder v ->
  kindOf v = reflect.Struct \/ kindOf v = reflect.Map ->
  exists n0, forall n, (n0 <= n)%nat ->
    exists m,
      MarshalMap n v = Ok (m, None)
      /\ UnmarshalMap n (Some m) (VPtr (typeOf v) (Some (Zero (typeOf v))))
         = Ok (VPtr (typeOf v) (Some v)).
Proof.
  intros v Hl Hk.
  destruct (lossless_round_trips NewEncoder NewDecoder v Hl) as [n0 Hrt].
  exists (Datatypes.S n0). intros n Hn.
  destruct (Hrt n ltac:(lia)) as (av & Henc & Hnull & Hnon & Hdec).
  unfold MarshalMap, UnmarshalMap, Encode. rewrite Henc.
  destruct (nonNull NewEncoder v) eqn:Enn.
  - (* the encoding is a map *)
    specialize (Hnon eq_refl).
    pose proof (encode_shape _ _ _ _ _ Henc) as [-> | (x & Hx & Hs)]; [discriminate Hnon |].
    assert (x = v) as -> by (destruct v; destruct Hk as [Hk | Hk]; try discriminate Hk;
                               cbn in Hx; congruence).
    assert (exists m, av = setM emptyAV (Some m)) as [m ->].
    { destruct Hk as [Hk | Hk]; rewrite Hk in Hs; destruct Hs as (m & _ & ->); eauto. }
    exists m. split; [reflexivity |]. cbn [setM emptyAV]. apply Decode_into_zero. exact Hdec.
  - (* the empty record and the nil map *)
    rewrite (Hnull eq_refl). exists []. split; [reflexivity |].
    destruct n as [| n]; [lia |].
    destruct v; destruct Hk as [Hk | Hk]; try discriminate Hk; cbn [lossless] in Hl.
    + reflexivity.
    + destruct Hl as (_ & Hne & _). destruct entries; [contradiction | discriminate Enn].
    + pose proof (lossless_omitted_record NewEncoder fields Hl Enn) as Hz.
      assert (HZ : Zero (typeOf (VStruct fields)) = VStruct fields).
      { cbn [typeOf Zero]. rewrite List.map_map. exact (f_equal VStruct Hz). }
      unfold UnmarshalMap, Decode. rewrite decode_through_pointer, HZ.
      cbn [decode isNullAV setM emptyAV dynamodb.NULL isSome]. rewrite indirect_loop.
      cbn [indirectLoop kindOf bind]. reflexivity.
Qed.

(** X14. A lossless slice that is neither []byte nor [][]byte goes through
    [MarshalList] and back through [UnmarshalList], into a pointer to the
    zero value of its type, unchanged. *)
Theorem MarshalList_UnmarshalList_round_trip : forall v,
  lossless NewEncoder v ->
  kindOf v = reflect.Slice ->
  isByteSlice (typeOf v) = false -> isByteSliceSlice (typeOf v) = false ->
  exists n0, forall n, (n0 <= n)%nat ->
    exists l,
      MarshalList n v = Ok (l, None)
      /\ UnmarshalList n (Some l) (VPtr (typeOf v) (Some (Zero (typeOf v))))
         = Ok (VPtr (typeOf v) (Some v)).
Proof.
  intros v Hl Hk Hb Hbb.
  destruct (lossless_round_trips NewEncoder NewDecoder v Hl) as [n0 Hrt].
  exists (Datatypes.S n0). intros n Hn.
  destruct (Hrt n ltac:(lia)) as (av & Henc & Hnull & Hnon & Hdec).
  unfold MarshalList, UnmarshalList, Encode. rewrite Henc.
  destruct n as [| n]; [lia |].
  destruct v; try discriminate Hk.
  - (* nil slice *)
    rewrite (Hnull eq_refl). exists []. split; reflexivity.
  - cbn [lossless] in Hl. destruct Hl as (_ & Hlen & _).
    assert (Enn : nonNull NewEncoder (VSlice e arr len) = true)
      by (cbn [nonNull]; destruct len; [contradiction | reflexivity]).
    specialize (Hnon Enn).
    assert (exists l, av = setL emptyAV (Some l)) as [l ->].
    { cbn [encode valueElem tryMarshaler tag0 OmitEmpty andb kindOf] in Henc.
      apply encodeSlice_shape in Henc. rewrite Hb, Hbb in Henc. cbn [tag0 AsBinSet AsNumSet AsStrSet orb] in Henc.
      destruct Henc as [-> | [(E & _) | [(_ & E & _) | [(_ & _ & E & _) | [(_ & _ & _ & E & _) | H]]]]];
        try discriminate.
      destruct H as (_ & _ & _ & _ & l & _ & ->). eauto. }
    exists l. split; [reflexivity |]. cbn [setL emptyAV].
    apply (Decode_into_zero (Datatypes.S n) NewDecoder _ (VSlice e arr len)). exact Hdec.
Qed.

(** ** The [string] option *)

Lemma decode_scalar_target n d av v fieldTag :
  isNullAV (Some av) = false ->
  isPtrKind (kindOf v) = false -> kindOf v <> reflect.Interface ->
  decode (Datatypes.S n) d (Some av) v true fieldTag
  = decodeSwitch (decode n d) av v true fieldTag.
Proof.
  intros Hnull Hp Hi. cbn [decode]. rewrite Hnull, indirect_loop.
  rewrite (indirectLoop_nonptr _ _ _ Hp Hi). cbn [bind plug].
  destruct (decodeSwitch _ _ _ _ _); reflexivity.
Qed.

(** X15. Under the [string] option an integer in the range of its kind is
    encoded as the string [S] of its decimal digits and nothing else, and
    that string decodes back to the integer under the same option; without
    the option it is a type error for an integer target. *)
Theorem string_option_round_trips_integers : forall n e d k z old,
  OverflowInt k z = false ->
  encode (Datatypes.S n) e emptyAV (VInt k z) asStringTag
    = Ok (setS emptyAV (Some (FormatInt z)))
  /\ decode (Datatypes.S n) d (Some (setS emptyAV (Some (FormatInt z))))
            (VInt k old) true asStringTag
    = Ok (VInt k z)
  /\ decode (Datatypes.S n) d (Some (setS emptyAV (Some (FormatInt z))))
            (VInt k old) true tag0
    = Err (UnmarshalTypeError "string" (TInt k)).
Proof.
  intros n e d k z old H. split; [reflexivity |]. split.
  - rewrite decode_scalar_target; [| reflexivity | reflexivity | discriminate].
    unfold decodeSwitch, decodeString, decodeNumber.
    cbn [setS emptyAV dynamodb.B dynamodb.BOOL dynamodb.BS dynamodb.L dynamodb.M dynamodb.N
         dynamodb.NS dynamodb.S olen List.length Nat.eqb negb isSome asStringTag AsString
         kindOf deref bind].
    rewrite (ParseInt_FormatInt _ (int_range _ _ H)), H. reflexivity.
  - rewrite decode_scalar_target; [| reflexivity | reflexivity | discriminate].
    reflexivity.
Qed.

(** ** Sets decoded into an any-type target *)

Lemma mapOutcome_ok {A C} (f : A -> outcome C) (g : A -> C) : forall l,
  (forall a, In a l -> f a = Ok (g a)) -> mapOutcome f l = Ok (map g l).
Proof.
  induction l as [| a l IH]; intros H; [reflexivity |].
  cbn [mapOutcome map]. rewrite (H a) by (left; reflexivity). cbn [bind].
  rewrite IH by (intros; apply H; right; assumption). reflexivity.
Qed.

(** X16. Wire sets decoded into an any-type target that holds no pointer:
    a string set becomes a []string, a binary set a [][]byte, and a number
    set of signed 64-bit decimals a []interface{} of [int]s, each with the
    elements in wire order. *)
Theorem sets_into_any_type_target : forall n d o,
  isPtrKind (kindOfV o) = false ->
  (forall ss, ss <> [] ->
     decode (Datatypes.S n) d (Some (setSS emptyAV (Some (map Some ss)))) (VIface o) true tag0
     = Ok (VIface (Some (VSlice TString (map VString ss) (List.length ss)))))
  /\ (forall bs, bs <> [] ->
     decode (Datatypes.S n) d (Some (setBS emptyAV (Some bs))) (VIface o) true tag0
     = Ok (VIface (Some (VSlice (TSlice (TUint KUint8))
                                (map (fun b => VSlice (TUint KUint8) (bytesValue b) (List.length b)) bs)
                                (List.length bs)))))
  /\ (forall zs, zs <> [] -> Forall (fun z => - 2 ^ 63 <= z < 2 ^ 63) zs ->
     decode (Datatypes.S n) d
            (Some (setNS emptyAV (Some (map (fun z => Some (FormatInt z)) zs))))
            (VIface o) true tag0
     = Ok (VIface (Some (VSlice TInterface
                                (map (fun z => VIface (Some (VInt KInt z))) zs)
                                (List.length zs))))).
Proof.
  intros n d o Ho.
  assert (Hind : indirect (VIface o) true false = Ok ([], VIface o, true)).
  { rewrite indirect_loop. destruct o as [x |]; [| reflexivity].
    destruct x; try reflexivity. discriminate Ho. }
  split; [| split].
  - intros ss Hne. cbn [decode isNullAV setSS emptyAV dynamodb.NULL isSome]. rewrite Hind.
    cbn [bind]. unfold decodeSwitch.
    cbn [setSS emptyAV dynamodb.B dynamodb.BOOL dynamodb.BS dynamodb.L dynamodb.M dynamodb.N
         dynamodb.NS dynamodb.S dynamodb.SS olen orNil List.length Nat.eqb negb isSome].
    rewrite List.length_map.
    replace (Nat.eqb (List.length ss) 0) with false
      by (destruct ss; [contradiction | reflexivity]).
    cbn [negb]. unfold decodeStringSet. cbn [kindOf].
    rewrite (mapOutcome_ok _ (fun s => VString (match s with Some x => x | None => "" end)))
      by (intros a Ha; apply List.in_map_iff in Ha; destruct Ha as (x & <- & _); reflexivity).
    cbn [bind setv plug]. rewrite List.map_map, List.length_map. reflexivity.
  - intros bs Hne. cbn [decode isNullAV setBS emptyAV dynamodb.NULL isSome]. rewrite Hind.
    cbn [bind]. unfold decodeSwitch.
    cbn [setBS emptyAV dynamodb.B dynamodb.BOOL dynamodb.BS olen orNil List.length Nat.eqb
         negb isSome].
    replace (Nat.eqb (List.length bs) 0) with false
      by (destruct bs; [contradiction | reflexivity]).
    cbn [negb]. unfold decodeBinarySet. cbn [kindOf].
    rewrite (mapOutcome_ok _ (fun b => VSlice (TUint KUint8) (bytesValue b) (List.length b)))
      by reflexivity.
    reflexivity.
  - intros zs Hne Hr. cbn [decode isNullAV setNS emptyAV dynamodb.NULL isSome]. rewrite Hind.
    cbn [bind]. unfold decodeSwitch.
    cbn [setNS emptyAV dynamodb.B dynamodb.BOOL dynamodb.BS dynamodb.L dynamodb.M dynamodb.N
         dynamodb.NS olen orNil List.length Nat.eqb negb isSome].
    rewrite List.length_map.
    replace (Nat.eqb (List.length zs) 0) with false
      by (destruct zs; [contradiction | reflexivity]).
    cbn [negb]. unfold decodeNumberSet. cbn [kindOf].
    rewrite (mapOutcome_ok _ (fun s => VIface (Some (VInt KInt
               (match s with
                | Some x => match ParseInt x with inl i => i | inr _ => 0 end
                | None => 0
                end))))).
    + cbn [bind setv plug]. rewrite List.map_map, List.length_map. do 3 f_equal.
      f_equal. apply List.map_ext_in. intros z Hz.
      rewrite List.Forall_forall in Hr. rewrite (ParseInt_FormatInt _ (Hr z Hz)). reflexivity.
    + intros a Ha. apply List.in_map_iff in Ha. destruct Ha as (z & <- & Hz).
      rewrite List.Forall_forall in Hr.
      unfold decodeNumber. cbn [Zero kindOf deref bind]. unfold decodeNumberToInterface.
      rewrite (ParseInt_FormatInt _ (Hr z Hz)). reflexivity.
Qed.

(** ** Element-level omission in lists and in maps *)

(** X17. Element-level omission treats a zero integer differently in maps
    and in lists: a map entry holding it is always stored, whatever the
    tag, while under [omitemptyelem] a list skips it without calling
    [elemFn]; any other integer element is handed to [elemFn]. *)
Theorem omitemptyelem_drops_zeros_in_lists_only : forall n e fieldTag k z,
  (forall key rest acc, Sprint key <> "" ->
     encodeMapEntries (encode (Datatypes.S n) e emptyAV) fieldTag ((key, VInt k z) :: rest) acc
     = encodeMapEntries (encode (Datatypes.S n) e emptyAV) fieldTag rest
         (mapSet (Sprint key) (Some (setN emptyAV (Some (FormatInt z)))) acc))
  /\ (forall elemFn rest count av, OmitEmptyElem fieldTag = true -> z = 0 ->
     encodeListLoop (encode (Datatypes.S n) e emptyAV) fieldTag elemFn (VInt k z :: rest) count av
     = encodeListLoop (encode (Datatypes.S n) e emptyAV) fieldTag elemFn rest count av)
  /\ (forall elemFn rest count av, OmitEmptyElem fieldTag = false \/ z <> 0 ->
     encodeListLoop (encode (Datatypes.S n) e emptyAV) fieldTag elemFn (VInt k z :: rest) count av
     = (av' <- elemFn av (setN emptyAV (Some (FormatInt z))) ;;
        encodeListLoop (encode (Datatypes.S n) e emptyAV) fieldTag elemFn rest
                       (Datatypes.S count) av')).
Proof.
  intros n e fieldTag k z. split; [| split].
  - intros key rest acc Hk. cbn [encodeMapEntries].
    rewrite (proj2 (String.eqb_neq _ _) Hk). reflexivity.
  - intros elemFn rest count av Ho ->. cbn [encodeListLoop]. rewrite Ho. reflexivity.
  - intros elemFn rest count av Ho. cbn [encodeListLoop].
    cbn [encode valueElem tryMarshaler OmitEmpty emptyValue kindOf].
    destruct Ho as [-> | Hz].
    + reflexivity.
    + rewrite (proj2 (Z.eqb_neq _ _) Hz), Bool.andb_false_r. reflexivity.
Qed.

(** ** Null *)

(** X18. A nil wire value, or one whose [NULL] is set (to either boolean,
    whatever its other fields), sets a target that is neither a pointer nor
    an interface to the zero value of its type. *)
Theorem null_zeroes_the_target : forall n d av t x,
  isNullAV av = true ->
  isPtrKind (kindOf x) = false -> kindOf x <> reflect.Interface ->
  Decode (Datatypes.S n) d av (VPtr t (Some x)) = Ok (VPtr t (Some (Zero (typeOf x)))).
Proof.
  intros n d av t x Hnull Hp Hi. unfold Decode. rewrite decode_through_pointer.
  cbn [decode]. rewrite Hnull, indirect_loop, (indirectLoop_nonptr _ _ _ Hp Hi).
  reflexivity.
Qed.

(** ** Nil pointers in the target *)

(** X19. Decoding a non-null wire value into a settable nil pointer
    allocates the pointee: the result points to what decoding into the zero
    value of the pointee type gives. *)
Theorem nil_pointer_is_allocated : forall n d av t fieldTag,
  isNullAV (Some av) = false ->
  decode (Datatypes.S n) d (Some av) (VPtr t None) true fieldTag
  = (y <- decode (Datatypes.S n) d (Some av) (Zero t) true fieldTag ;; Ok (VPtr t (Some y))).
Proof.
  intros n d av t fieldTag Hnull.
  rewrite (decode_Zero d n av t fieldTag Hnull).
  change (VPtr t None) with (Zero (TPtr t)).
  rewrite (decode_Zero d n av (TPtr t) fieldTag Hnull).
  cbn [indirectNew]. destruct (indirectNew t) as [fs x]. cbn [fst snd].
  destruct (decodeSwitch _ _ _ _ _); reflexivity.
Qed.

(** ** Record fields the wire map does not name *)

Lemma fieldByName_updateNth (fields : list (field * value)) i f fv fv' name :
  nth_error fields i = Some (f, fv) ->
  fieldByName (updateNth fields i (f, fv')) name = fieldByName fields name.
Proof.
  revert i. induction fields as [| [g gv] fields IH]; intros [| i] H;
    cbn [nth_error] in H; try discriminate H.
  - injection H as -> ->. reflexivity.
  - cbn [updateNth fieldByName]. rewrite (IH i H). reflexivity.
Qed.

Lemma decodeStructFields_keeps dec : forall avMap fields cs fields',
  decodeStructFields dec avMap fields cs = Ok fields' ->
  map fst fields' = map fst fields
  /\ forall i, (forall k av, In (k, av) avMap -> fieldByName fields k <> Some i) ->
       nth_error fields' i = nth_error fields i.
Proof.
  induction avMap as [| [k av] rest IH]; intros fields cs fields' H;
    cbn [decodeStructFields] in H.
  - injection H as <-. split; reflexivity.
  - destruct (fieldByName fields k) as [i0 |] eqn:Ef.
    + destruct (nth_error fields i0) as [[f fv] |] eqn:En.
      * destruct (dec av fv cs (ftag f)) as [fv' | | |]; cbn [bind] in H; try discriminate H.
        apply IH in H. destruct H as [Hn Hk]. split.
        { rewrite Hn. clear - En. revert i0 En.
          induction fields as [| [g gv] fields IHf]; intros [| i0] En;
            cbn [nth_error] in En; try discriminate En.
          - injection En as -> ->. reflexivity.
          - cbn [updateNth map fst]. rewrite (IHf i0 En). reflexivity. }
        intros i Hfresh. rewrite Hk.
        { apply updateNth_other. intros ->. apply (Hfresh k av); [left; reflexivity | exact Ef]. }
        intros k2 av2 Hin. rewrite (fieldByName_updateNth _ _ _ _ _ _ En).
        apply (Hfresh k2 av2). right. exact Hin.
      * apply IH in H. destruct H as [Hn Hk]. split; [exact Hn |].
        intros i Hfresh. apply Hk. intros k2 av2 Hin. apply (Hfresh k2 av2). right. exact Hin.
    + apply IH in H. destruct H as [Hn Hk]. split; [exact Hn |].
      intros i Hfresh. apply Hk. intros k2 av2 Hin. apply (Hfresh k2 av2). right. exact Hin.
Qed.

(** X20. [decodeMap] into a record keeps the fields' descriptors, and
    every field that no wire key resolves to keeps its value. *)
Theorem unnamed_fields_keep_their_values : forall dec avMap fields cs v',
  decodeMap dec avMap (VStruct fields) cs = Ok v' ->
  exists fields',
    v' = VStruct fields'
    /\ map fst fields' = map fst fields
    /\ forall i, (forall k av, In (k, av) avMap -> fieldByName fields k <> Some i) ->
         nth_error fields' i = nth_error fields i.
Proof.
  intros dec avMap fields cs v' H. cbn [decodeMap] in H.
  destruct (decodeStructFields dec avMap fields cs) as [fields' | | |] eqn:E;
    cbn [bind] in H; try discriminate H.
  injection H as <-. exists fields'. split; [reflexivity |].
  exact (decodeStructFields_keeps dec avMap fields cs fields' E).
Qed.

(** ** Nil elements in a wire set *)

(** X21. A nil element at the head of a wire number set or string set
    makes the decoder panic on the nil dereference, for an any-type target
    and for a nil slice of integers or strings. *)
Theorem nil_set_element_panics : forall rest o k,
  let msg := "invalid memory address or nil pointer dereference" in
  decodeNumberSet (None :: rest) (VIface o) true = Panic msg
  /\ decodeNumberSet (None :: rest) (VSliceNil (TInt k)) true = Panic msg
  /\ decodeStringSet (None :: rest) (VIface o) true = Panic msg
  /\ decodeStringSet (None :: rest) (VSliceNil TString) true = Panic msg.
Proof.
  intros rest o k msg. split; [reflexivity |]. split; [| split; [reflexivity |]].
  - unfold decodeNumberSet. cbn [kindOf List.length makeRoom sliceIsNil orb setv bind
      typeOf MakeSlice elemType repeat capOf Zero].
    rewrite List.repeat_length, Nat.min_id. cbn [sliceLoop SetLen List.length].
    destruct k; reflexivity.
  - unfold decodeStringSet. cbn [kindOf List.length makeRoom sliceIsNil orb setv bind
      typeOf MakeSlice elemType repeat capOf Zero].
    rewrite List.repeat_length, Nat.min_id. reflexivity.
Qed.

(** ** The type of the target *)

Fixpoint typeOf_Zero (t : rtype) : typeOf (Zero t) = t.
Proof.
  destruct t; cbn [Zero typeOf]; try reflexivity.
  - rewrite List.repeat_length. reflexivity.
  - f_equal. induction fs as [| [f ft] fs IH]; [reflexivity |].
    cbn [map fst snd]. f_equal; [f_equal; apply typeOf_Zero | exact IH].
Qed.

Lemma kindOf_typeOf v : kindOfType (typeOf v) = kindOf v.
Proof. destruct v; reflexivity. Qed.

Lemma indirectLoop_typeOf v cs dn fs x cs' :
  indirectLoop v cs dn = Ok (fs, x, cs') ->
  forall y, typeOf y = typeOf x -> typeOf (plug fs y) = typeOf v.
Proof.
  intros H y Hy.
  destruct v; cbn [indirectLoop] in H; try (injection H as <- <- _; exact Hy).
  - (* pointer *)
    destruct (negb (isPtrKind (kindOfV p)) && dn && cs);
      [injection H as <- <- _; exact Hy |].
    destruct p as [z |].
    + destruct (indirectLoop z true dn) as [[[fs0 x0] cs0] | | |]; cbn [bind] in H;
        try discriminate H.
      injection H as <- _ _. reflexivity.
    + destruct (setv cs (VPtr e None)); cbn [bind] in H; try discriminate H.
      destruct (indirectNew e) as [fs0 x0]. injection H as <- _ _. reflexivity.
  - (* interface *)
    destruct x0 as [x0 |]; [| injection H as <- <- _; exact Hy].
    destruct x0; try (injection H as <- <- _; exact Hy).
    destruct p as [z |]; [| injection H as <- <- _; exact Hy].
    destruct (negb dn || isPtrKind (kindOf z)); [| injection H as <- <- _; exact Hy].
    destruct (indirectLoop (VPtr e (Some z)) false dn) as [[[fs0 x1] cs0] | | |];
      cbn [bind] in H; try discriminate H.
    injection H as <- _ _. reflexivity.
Qed.

Lemma indirect_typeOf v cs dn fs x cs' :
  indirect v cs dn = Ok (fs, x, cs') ->
  forall y, typeOf y = typeOf x -> typeOf (plug fs y) = typeOf v.
Proof.
  unfold indirect.
  destruct (negb (isPtrKind (kindOf v)) && negb (String.eqb (typeName (typeOf v)) "") && cs)
    eqn:E; [| apply indirectLoop_typeOf].
  apply andb_prop in E. destruct E as [E _]. apply andb_prop in E. destruct E as [Ep En].
  assert (Hl : forall c, indirectLoop v c dn = Ok ([], v, c)).
  { intros c. destruct v; try reflexivity; try discriminate Ep; discriminate En. }
  cbn [indirectLoop]. rewrite Bool.andb_false_r, Hl. cbn [bind].
  intros H y Hy. injection H as <- <- _. exact Hy.
Qed.

Lemma sliceLoop_typeOf decElem : forall todo i v cs v',
  sliceLoop decElem todo i v cs = Ok v' -> typeOf v' = typeOf v.
Proof.
  induction todo as [| todo IH]; intros i v cs v' H; cbn [sliceLoop] in H.
  - injection H as <-. reflexivity.
  - destruct (SetLen v cs (i + 1)) as [v1 | | |] eqn:E; cbn [bind] in H; try discriminate H.
    destruct (Index v1 i) as [x | | |]; cbn [bind] in H; try discriminate H.
    destruct (decElem i x) as [x' | | |]; cbn [bind] in H; try discriminate H.
    apply IH in H. rewrite H.
    destruct v; cbn [SetLen] in E; try discriminate E.
    + destruct (Nat.eqb (i + 1) 0); [| discriminate E].
      destruct cs; [| discriminate E]. injection E as <-. reflexivity.
    + destruct (Nat.leb (i + 1) (List.length arr)); [| discriminate E].
      destruct cs; [| discriminate E]. injection E as <-. reflexivity.
Qed.

Lemma slice_case_typeOf decElem n v cs v' :
  kindOf v = reflect.Slice ->
  (v1 <- makeRoom v cs n ;; sliceLoop decElem (Nat.min (capOf v1) n) O v1 cs) = Ok v' ->
  typeOf v' = typeOf v.
Proof.
  intros Hk H. unfold makeRoom in H.
  destruct (sliceIsNil v || Nat.ltb (capOf v) n).
  - destruct cs; [| discriminate H]. cbn [setv bind] in H.
    apply sliceLoop_typeOf in H. rewrite H.
    destruct v; try discriminate Hk; reflexivity.
  - cbn [bind] in H. apply sliceLoop_typeOf in H. exact H.
Qed.

Lemma setv_typeOf cs x v' t : setv cs x = Ok v' -> typeOf x = t -> typeOf v' = t.
Proof. destruct cs; [| discriminate]. intros [= <-]. trivial. Qed.

Lemma decodeBinary_typeOf b v cs v' :
  decodeBinary b v cs = Ok v' -> typeOf v' = typeOf v.
Proof.
  unfold decodeBinary. intros H.
  assert (Hlen : List.length (bytesValue b) = List.length b)
    by (unfold bytesValue; apply List.length_map).
  destruct (kindOf v) eqn:Hk;
    try (destruct (isByteSlice (typeOf v)) eqn:Hb;
         [ apply isByteSlice_inv in Hb; destruct v; try discriminate Hb;
           cbn [typeOf] in Hb; injection Hb as ->;
           repeat match type of H with
                  | (if ?c then _ else _) = _ => destruct c
                  end;
           first [ injection H as <-; reflexivity
                 | apply (setv_typeOf _ _ _ _ H); reflexivity ]
         | destruct v; try discriminate H;
           match type of H with
           | match ?t with _ => _ end = _ => destruct t; try discriminate H
           end;
           match type of H with
           | match ?t with _ => _ end = _ => destruct t; try discriminate H
           end;
           apply (setv_typeOf _ _ _ _ H); cbn [typeOf]; f_equal;
           rewrite List.length_app, List.length_firstn, List.length_skipn, Hlen; lia ]).
  destruct v; try discriminate Hk. apply (setv_typeOf _ _ _ _ H). reflexivity.
Qed.

Lemma decodeNumber_typeOf s v cs v' :
  decodeNumber s v cs = Ok v' -> typeOf v' = typeOf v.
Proof.
  unfold decodeNumber. intros H.
  destruct v; cbn [kindOf] in H; try discriminate H;
    try (destruct k; try discriminate H);
    destruct (deref s) as [str | | |]; cbn [bind] in H; try discriminate H;
    repeat match type of H with
           | match ?t with _ => _ end = _ => destruct t; try discriminate H
           | (_ <- ?t ;; _) = _ => destruct t; cbn [bind] in H; try discriminate H
           end;
    first [ injection H as <-; reflexivity | apply (setv_typeOf _ _ _ _ H); reflexivity ].
Qed.

Lemma decodeString_typeOf s v cs fieldTag v' :
  decodeString s v cs fieldTag = Ok v' -> typeOf v' = typeOf v.
Proof.
  unfold decodeString. destruct (AsString fieldTag); [apply decodeNumber_typeOf |].
  intros H. destruct v; cbn [kindOf] in H; try discriminate H;
    destruct (deref s) as [str | | |]; cbn [bind] in H; try discriminate H;
    apply (setv_typeOf _ _ _ _ H); reflexivity.
Qed.

Section TypePreserved.
Variable dec : option AttributeValue -> value -> bool -> tag -> outcome value.
Hypothesis dec_typeOf : forall av v cs fieldTag v',
  dec av v cs fieldTag = Ok v' -> typeOf v' = typeOf v.

Lemma decodeStructFields_typeOf : forall avMap fields cs fields',
  decodeStructFields dec avMap fields cs = Ok fields' ->
  map (fun fv => (fst fv, typeOf (snd fv))) fields'
  = map (fun fv => (fst fv, typeOf (snd fv))) fields.
Proof.
  induction avMap as [| [k av] rest IH]; intros fields cs fields' H;
    cbn [decodeStructFields] in H.
  - injection H as <-. reflexivity.
  - destruct (fieldByName fields k) as [i |]; [| exact (IH _ _ _ H)].
    destruct (nth_error fields i) as [[f fv] |] eqn:En; [| exact (IH _ _ _ H)].
    destruct (dec av fv cs (ftag f)) as [fv' | | |] eqn:Ed; cbn [bind] in H;
      try discriminate H.
    apply IH in H. rewrite H. apply dec_typeOf in Ed. clear - En Ed. revert i En.
    induction fields as [| [g gv] fields IHf]; intros [| i] En;
      cbn [nth_error] in En; try discriminate En.
    + injection En as -> ->. cbn [updateNth map fst snd]. rewrite Ed. reflexivity.
    + cbn [updateNth map]. rewrite (IHf i En). reflexivity.
Qed.

Lemma decodeSwitch_typeOf av v cs fieldTag v' :
  decodeSwitch dec av v cs fieldTag = Ok v' -> typeOf v' = typeOf v.
Proof.
  unfold decodeSwitch. intros H.
  destruct (negb (Nat.eqb (olen (dynamodb.B av)) 0)); [exact (decodeBinary_typeOf _ _ _ _ H) |].
  destruct (dynamodb.BOOL av) as [b |].
  { unfold decodeBool in H. destruct v; cbn [kindOf] in H; try discriminate H;
      apply (setv_typeOf _ _ _ _ H); reflexivity. }
  destruct (negb (Nat.eqb (olen (dynamodb.BS av)) 0)).
  { unfold decodeBinarySet in H. destruct (kindOf v) eqn:Hk; try discriminate H.
    - exact (slice_case_typeOf _ _ _ _ _ Hk H).
    - exact (sliceLoop_typeOf _ _ _ _ _ _ H).
    - destruct (mapOutcome _ _); cbn [bind] in H; try discriminate H.
      destruct v; try discriminate Hk. apply (setv_typeOf _ _ _ _ H). reflexivity. }
  destruct (negb (Nat.eqb (olen (dynamodb.L av)) 0)).
  { unfold decodeList in H. destruct (kindOf v) eqn:Hk; try discriminate H.
    - exact (slice_case_typeOf _ _ _ _ _ Hk H).
    - exact (sliceLoop_typeOf _ _ _ _ _ _ H).
    - destruct (mapOutcome _ _); cbn [bind] in H; try discriminate H.
      destruct v; try discriminate Hk. apply (setv_typeOf _ _ _ _ H). reflexivity. }
  destruct (negb (Nat.eqb (olen (dynamodb.M av)) 0)).
  { destruct v; cbn [decodeMap] in H; try discriminate H.
    - destruct (kindOfType k); try discriminate H.
      destruct (setv cs _); cbn [bind] in H; try discriminate H.
      destruct (decodeMapEntries _ _ _ _); cbn [bind] in H; try discriminate H.
      injection H as <-. reflexivity.
    - destruct (kindOfType k); try discriminate H.
      destruct (decodeMapEntries _ _ _ _); cbn [bind] in H; try discriminate H.
      injection H as <-. reflexivity.
    - destruct (decodeStructFields dec _ fields cs) as [fields' | | |] eqn:E;
        cbn [bind] in H; try discriminate H.
      injection H as <-. cbn [typeOf]. f_equal. exact (decodeStructFields_typeOf _ _ _ _ E).
    - destruct (setv cs _); cbn [bind] in H; try discriminate H.
      destruct (decodeMapEntries _ _ _ _); cbn [bind] in H; try discriminate H.
      injection H as <-. reflexivity. }
  destruct (isSome (dynamodb.N av)); [exact (decodeNumber_typeOf _ _ _ _ H) |].
  destruct (negb (Nat.eqb (olen (dynamodb.NS av)) 0)).
  { unfold decodeNumberSet in H. destruct (kindOf v) eqn:Hk; try discriminate H.
    - exact (slice_case_typeOf _ _ _ _ _ Hk H).
    - exact (sliceLoop_typeOf _ _ _ _ _ _ H).
    - destruct (mapOutcome _ _); cbn [bind] in H; try discriminate H.
      destruct v; try discriminate Hk. apply (setv_typeOf _ _ _ _ H). reflexivity. }
  destruct (isSome (dynamodb.S av)); [exact (decodeString_typeOf _ _ _ _ _ H) |].
  destruct (negb (Nat.eqb (olen (dynamodb.SS av)) 0)).
  { unfold decodeStringSet in H. destruct (kindOf v) eqn:Hk; try discriminate H.
    - exact (slice_case_typeOf _ _ _ _ _ Hk H).
    - exact (sliceLoop_typeOf _ _ _ _ _ _ H).
    - destruct (mapOutcome _ _); cbn [bind] in H; try discriminate H.
      destruct v; try discriminate Hk. apply (setv_typeOf _ _ _ _ H). reflexivity. }
  injection H as <-. reflexivity.
Qed.

End TypePreserved.

(** X22. Whatever the wire value, a successful [decode] leaves in the
    target a value of the target's type. *)
Theorem decode_keeps_the_type_of_the_target : forall n d av v cs fieldTag v',
  decode n d av v cs fieldTag = Ok v' -> typeOf v' = typeOf v.
Proof.
  induction n as [| n IH]; intros d av v cs fieldTag v' H; [discriminate H |].
  cbn [decode] in H. destruct (isNullAV av).
  - destruct (indirect v cs true) as [[[fs x] cs'] | | |] eqn:Ei; cbn [bind] in H;
      try discriminate H.
    unfold decodeNull in H.
    destruct cs'; cbn [bind] in H; injection H as <-;
      apply (indirect_typeOf _ _ _ _ _ _ Ei); [apply typeOf_Zero | reflexivity].
  - destruct (indirect v cs false) as [[[fs x] cs'] | | |] eqn:Ei; cbn [bind] in H;
      try discriminate H.
    destruct (decodeSwitch _ _ x cs' fieldTag) as [x' | | |] eqn:Es; cbn [bind] in H;
      try discriminate H.
    injection H as <-. apply (indirect_typeOf _ _ _ _ _ _ Ei).
    apply (decodeSwitch_typeOf (decode n d) (IH d) _ _ _ _ _ Es).
Qed.

(** ** Lists and maps decoded into an any-type target *)

(** X23. A wire list decoded into an any-type target that holds no pointer
    becomes a []interface{} of its elements, each decoded into a nil
    interface; a wire map becomes a map[string]interface{} that has exactly
    the wire keys, so nothing the target held before survives. *)
Theorem containers_into_any_type_target : forall n d o,
  isPtrKind (kindOfV o) = false ->
  (forall avList xs, avList <> [] ->
     Forall2 (fun av x => decode n d av (VIface None) true tag0 = Ok x) avList xs ->
     decode (Datatypes.S n) d (Some (setL emptyAV (Some avList))) (VIface o) true tag0
     = Ok (VIface (Some (VSlice TInterface xs (List.length avList)))))
  /\ (forall avMap v', avMap <> [] ->
     decode (Datatypes.S n) d (Some (setM emptyAV (Some avMap))) (VIface o) true tag0 = Ok v' ->
     exists m,
       v' = VIface (Some (VMap TString TInterface m))
       /\ (forall name av, In (name, av) avMap -> MapIndex m (KeyString name) <> None)
       /\ (forall key,
             (forall name av, In (name, av) avMap -> mapkeyEqb key (KeyString name) = false) ->
             MapIndex m key = None)).
Proof.
  intros n d o Ho.
  assert (Hind : indirect (VIface o) true false = Ok ([], VIface o, true)).
  { rewrite indirect_loop. destruct o as [x |]; [| reflexivity].
    destruct x; try reflexivity. discriminate Ho. }
  split.
  - intros avList xs Hne Hall.
    cbn [decode isNullAV setL emptyAV dynamodb.NULL isSome]. rewrite Hind.
    cbn [bind]. unfold decodeSwitch.
    cbn [setL emptyAV dynamodb.B dynamodb.BOOL dynamodb.BS dynamodb.L olen orNil
         List.length Nat.eqb negb isSome].
    replace (Nat.eqb (List.length avList) 0) with false
      by (destruct avList; [contradiction | reflexivity]).
    cbn [negb]. unfold decodeList. cbn [kindOf Zero].
    rewrite (mapOutcome_Forall2 _ _ _ Hall). reflexivity.
  - intros avMap v' Hne H.
    cbn [decode isNullAV setM emptyAV dynamodb.NULL isSome] in H. rewrite Hind in H.
    cbn [bind] in H. unfold decodeSwitch in H.
    cbn [setM emptyAV dynamodb.B dynamodb.BOOL dynamodb.BS dynamodb.L dynamodb.M olen orNil
         List.length Nat.eqb negb isSome] in H.
    replace (Nat.eqb (List.length avMap) 0) with false in H
      by (destruct avMap; [contradiction | reflexivity]).
    cbn [negb decodeMap setv bind] in H.
    destruct (decodeMapEntries (decode n d) TInterface avMap []) as [m | | |] eqn:E;
      cbn [bind plug] in H; try discriminate H.
    injection H as <-. exists m. split; [reflexivity |].
    destruct (decodeMapEntries_lookup _ _ _ _ _ E) as [Hkeep Hset].
    split; [exact Hset |]. intros key Hfresh. rewrite (Hkeep key Hfresh). reflexivity.
Qed.

(** ** Byte arrays *)

Lemma encodeListLoop_bytes n e : forall zs count l0,
  encodeListLoop (encode (Datatypes.S n) e emptyAV) tag0 elemFnL (bytesValue zs) count
                 (setL emptyAV (Some l0))
  = Ok ((count + List.length zs)%nat,
        setL emptyAV
             (Some (l0 ++ map (fun z => Some (setN emptyAV (Some (FormatUint z)))) zs)%list)).
Proof.
  induction zs as [| z zs IH]; intros count l0.
  - cbn [bytesValue map encodeListLoop List.length]. rewrite Nat.add_0_r, List.app_nil_r.
    reflexivity.
  - cbn [bytesValue map encodeListLoop]. fold (bytesValue zs).
    change (encode (Datatypes.S n) e emptyAV (VUint KUint8 z)
              (mkTag (OmitEmptyElem tag0) false false false false false))
      with (Ok (setN emptyAV (Some (FormatUint z)))).
    cbn [keepOrOmitEmpty setN emptyAV dynamodb.NULL isSome andb bind elemFnL setL dynamodb.L
         orNil].
    change (setL (setL emptyAV (Some l0)) ?x) with (setL emptyAV x).
    rewrite IH. cbn [List.length]. rewrite <- List.app_assoc. cbn [List.app].
    f_equal. f_equal. lia.
Qed.

(** X24. A non-empty byte array is not encoded as a binary: it becomes the
    list of its bytes as numbers. *)
Theorem byte_array_encodes_as_list : forall n e zs,
  zs <> [] ->
  Encode (Datatypes.S (Datatypes.S n)) e (VArray (TUint KUint8) (bytesValue zs))
  = Ok (setL emptyAV (Some (map (fun z => Some (setN emptyAV (Some (FormatUint z)))) zs))).
Proof.
  intros n e zs Hne. unfold Encode.
  change (encode (Datatypes.S (Datatypes.S n)) e emptyAV (VArray (TUint KUint8) (bytesValue zs)) tag0)
    with (encodeSlice (encode (Datatypes.S n) e emptyAV) emptyAV
            (VArray (TUint KUint8) (bytesValue zs)) tag0).
  unfold encodeSlice, encodeList.
  cbn [typeOf isByteSlice isByteSliceSlice AsBinSet AsNumSet AsStrSet orb elemsOf].
  change (mkTag false false false false false false) with tag0.
  change (setL emptyAV (Some [])) with (setL emptyAV (Some (@nil (option AttributeValue)))).
  rewrite encodeListLoop_bytes. cbn [bind fst snd List.app Nat.add].
  destruct zs; [contradiction | reflexivity].
Qed.

End FurtherProperties.

(** ** The claims at concrete inputs

    The inputs below are closed values; where a float64 is needed it is one
    of [Binary64]. *)

Lemma C3_reads_a_float :
  Decode 1 NewDecoder (Some (setN emptyAV (Some "123.5")))
         (VPtr TInterface (Some (VIface None)))
  = Ok (VPtr TInterface
             (Some (VIface (Some (VFloat64 (F_finite false 247 (-1) : float64)))))).
Proof.
  exact (proj1 (proj2 (proj2 (proj2 (C3_number_into_any_type_target
                                       O NewDecoder None tag0 eq_refl))))
               (F_finite false 247 (-1)) eq_refl).
Defined.

Lemma C3_pointer_in_the_interface :
  Decode 1 NewDecoder (Some (setN emptyAV (Some "123")))
         (VPtr TInterface
               (Some (VIface (Some (VPtr (TInt KInt8) (Some (VInt KInt8 0)))))))
    = Ok (VPtr TInterface
               (Some (VIface (Some (VPtr (TInt KInt8) (Some (VInt KInt8 123)))))))
  /\ Decode 1 NewDecoder (Some (setN emptyAV (Some "123")))
         (VPtr TInterface
               (Some (VIface (Some (VPtr TString (Some (VString "x")))))))
    = Err (UnmarshalTypeError "number" TString).
Proof. split; reflexivity. Qed.

Lemma C4_empty_differs_from_null :
  Decode 1 NewDecoder (Some emptyAV) (VPtr (TInt KInt) (Some (VInt KInt 7)))
    = Ok (VPtr (TInt KInt) (Some (VInt KInt 7)))
  /\ Decode 1 NewDecoder (Some nullAV) (VPtr (TInt KInt) (Some (VInt KInt 7)))
    = Ok (VPtr (TInt KInt) (Some (VInt KInt 0))).
Proof. split; reflexivity. Qed.

Lemma C4_empty_keeps_the_int :
  decode 1 NewDecoder (Some emptyAV) (VInt KInt 7) true tag0 = Ok (VInt KInt 7).
Proof.
  refine (proj1 (proj2 (C4_all_empty_assigns_nothing
                          O NewDecoder emptyAV (VInt KInt 7) true tag0 eq_refl)) eq_refl _).
  discriminate.
Defined.

Lemma C7_outer_pointer_stays :
  Decode 1 NewDecoder (Some nullAV)
         (VPtr (TPtr (TPtr TString))
               (Some (VPtr (TPtr TString) (Some (VPtr TString (Some (VString "x")))))))
  = Ok (VPtr (TPtr (TPtr TString))
             (Some (VPtr (TPtr TString) (Some (VPtr TString None))))).
Proof. reflexivity. Qed.

Lemma C7_string_pointer_reset :
  decode 1 NewDecoder (Some nullAV)
         (VPtr (TPtr TString) (Some (VPtr TString (Some (VString "x"))))) true tag0
  = Ok (VPtr (TPtr TString) (Some (VPtr TString None))).
Proof.
  exact (proj1 (C7_null_resets_innermost_pointer
                  O NewDecoder (Some nullAV) [TPtr TString] TString (VString "x") tag0
                  eq_refl eq_refl)).
Defined.

Lemma C9_omitted_element_is_not_checked :
  encode 1 NewEncoder emptyAV (VSlice (TUint KUint8) [] 0)
         (mkTag true false false false false false)
    = Ok nullAV
  /\ Encode 3 NewEncoder
       (VStruct [(mkField "A" (mkTag false true false true false false),
                  VSlice (TSlice (TUint KUint8))
                         [VSlice (TUint KUint8) [VUint KUint8 1; VUint KUint8 2] 2;
                          VSlice (TUint KUint8) [] 0] 2)])
    = Ok (setM emptyAV (Some [("A", Some (setBS emptyAV (Some [[1; 2]])))]))
  /\ Encode 2 NewEncoder
       (VStruct [(mkField "A" (mkTag false false false true false false),
                  VSlice (TUint KUint8) [VUint KUint8 1; VUint KUint8 2] 2)])
    = Ok (setM emptyAV (Some [("A", Some (setB emptyAV (Some [1; 2])))])).
Proof. repeat split; reflexivity. Qed.

Lemma C9_two_binaries_in_order :
  encodeSlice (encode 2 NewEncoder emptyAV) emptyAV
    (VSlice (TSlice (TUint KUint8))
            [VSlice (TUint KUint8) [VUint KUint8 1; VUint KUint8 2] 2;
             VSlice (TUint KUint8) [VUint KUint8 3] 1] 2)
    (mkTag false false false true false false)
  = Ok (setBS emptyAV (Some [[1; 2]; [3]])).
Proof.
  exact (proj1 (proj1 (proj2 (C9_kept_set_elements_checked_in_order
                                (encode 2 NewEncoder emptyAV) emptyAV
                                (VSlice (TSlice (TUint KUint8))
                                        [VSlice (TUint KUint8)
                                                [VUint KUint8 1; VUint KUint8 2] 2;
                                         VSlice (TUint KUint8) [VUint KUint8 3] 1] 2)
                                (mkTag false false false true false false))
                             eq_refl
                             [setB emptyAV (Some [1; 2]); setB emptyAV (Some [3])]
                             eq_refl) eq_refl) [[1; 2]; [3]] eq_refl).
Defined.

Lemma C10_untagged_byte_slices :
  Encode 2 NewEncoder
    (VSlice (TSlice (TUint KUint8))
            [VSlice (TUint KUint8) [VUint KUint8 1; VUint KUint8 2] 2;
             VSlice (TUint KUint8) [VUint KUint8 3] 1] 2)
  = Ok (setBS emptyAV (Some [[1; 2]; [3]])).
Proof.
  refine (proj1 (proj2 (C10_byte_slices_force_binary_set
                          O NewEncoder
                          (VSlice (TSlice (TUint KUint8))
                                  [VSlice (TUint KUint8) [VUint KUint8 1; VUint KUint8 2] 2;
                                   VSlice (TUint KUint8) [VUint KUint8 3] 1] 2)
                          tag0 eq_refl) _) (or_intror _));
    repeat constructor.
Defined.

Lemma C10_empty_inputs_give_no_set :
  Encode 2 NewEncoder (VSliceNil (TSlice (TUint KUint8))) = Ok nullAV
  /\ Encode 2 NewEncoder (VSlice (TSlice (TUint KUint8)) [] 0) = Ok nullAV
  /\ Encode 2 NewEncoder
       (VSlice (TSlice (TUint KUint8))
               [VSlice (TUint KUint8) [VUint KUint8 1] 1; VSlice (TUint KUint8) [] 0] 2)
     = Err (InvalidMarshalError binSetMsg).
Proof. repeat split; reflexivity. Qed.

Lemma C1_omitted_elements_are_lost :
  Encode 3 NewEncoder
    (VStruct [(mkField "A" (mkTag false true false false false false),
               VSlice (TInt KInt) [VInt KInt 0; VInt KInt 1] 2)])
    = Ok (setM emptyAV
            (Some [("A", Some (setL emptyAV (Some [Some (setN emptyAV (Some "1"))])))]))
  /\ Decode 3 NewDecoder
       (Some (setM emptyAV
                (Some [("A", Some (setL emptyAV (Some [Some (setN emptyAV (Some "1"))])))])))
       (VPtr (TStruct [(mkField "A" (mkTag false true false false false false),
                        TSlice (TInt KInt))])
             (Some (VStruct [(mkField "A" (mkTag false true false false false false),
                              VSliceNil (TInt KInt))])))
    = Ok (VPtr (TStruct [(mkField "A" (mkTag false true false false false false),
                          TSlice (TInt KInt))])
               (Some (VStruct [(mkField "A" (mkTag false true false false false false),
                                VSlice (TInt KInt) [VInt KInt 1] 1)])))
  /\ Encode 2 NewEncoder (VSlice (TInt KInt) [] 0) = Ok nullAV
  /\ Decode 2 NewDecoder (Some nullAV)
       (VPtr (TSlice (TInt KInt)) (Some (VSliceNil (TInt KInt))))
    = Ok (VPtr (TSlice (TInt KInt)) (Some (VSliceNil (TInt KInt)))).
Proof. repeat split; reflexivity. Qed.

(** Picking the shape of each field of a record *)
Ltac shape :=
  repeat split; try reflexivity; try discriminate; try (intros _; reflexivity);
  try (repeat constructor; cbn [In]; intuition discriminate).
Ltac pickShape :=
  first [ left; split; [reflexivity | solve [shape]]
        | split; [reflexivity | solve [shape]]
        | right; pickShape ].

Lemma C1_record_round_trips :
  exists n0, forall n, (n0 <= n)%nat ->
    exists av,
      Encode n NewEncoder
        (VStruct [(mkField "Name" tag0, VString "a");
                  (mkField "Age" tag0, VPtr (TInt KInt) (Some (VInt KInt 5)));
                  (mkField "Price" tag0, VFloat64 (F_finite false 247 (-1)));
                  (mkField "Count" asStringTag, VUint KUint16 7);
                  (mkField "Note" omitEmptyTag, VString "");
                  (mkField "Tags" strSetTag, VSlice TString [VString "x"; VString "y"; VString "z"] 2);
                  (mkField "Blobs" binSetTag, VSlice (TSlice (TUint KUint8))
                          [VSlice (TUint KUint8) [VUint KUint8 1; VUint KUint8 2] 2] 1);
                  (mkField "Any" tag0, VIface (Some (VInt KInt 7)));
                  (mkField "M" tag0, VMap TString TBool [(KeyString "k", VBool true)])])
      = Ok av
      /\ Decode n NewDecoder (Some av)
           (VPtr (TStruct [(mkField "Name" tag0, TString);
                           (mkField "Age" tag0, TPtr (TInt KInt));
                           (mkField "Price" tag0, TFloat64);
                           (mkField "Count" asStringTag, TUint KUint16);
                           (mkField "Note" omitEmptyTag, TString);
                           (mkField "Tags" strSetTag, TSlice TString);
                           (mkField "Blobs" binSetTag, TSlice (TSlice (TUint KUint8)));
                           (mkField "Any" tag0, TInterface);
                           (mkField "M" tag0, TMap TString TBool)])
                 (Some (VStruct [(mkField "Name" tag0, VString "");
                                 (mkField "Age" tag0, VPtr (TInt KInt) None);
                                 (mkField "Price" tag0, VFloat64 (F_zero false));
                                 (mkField "Count" asStringTag, VUint KUint16 0);
                                 (mkField "Note" omitEmptyTag, VString "");
                                 (mkField "Tags" strSetTag, VSliceNil TString);
                                 (mkField "Blobs" binSetTag, VSliceNil (TSlice (TUint KUint8)));
                                 (mkField "Any" tag0, VIface None);
                                 (mkField "M" tag0, VMapNil TString TBool)])))
      = Ok (VPtr (TStruct [(mkField "Name" tag0, TString);
                           (mkField "Age" tag0, TPtr (TInt KInt));
                           (mkField "Price" tag0, TFloat64);
                           (mkField "Count" asStringTag, TUint KUint16);
                           (mkField "Note" omitEmptyTag, TString);
                           (mkField "Tags" strSetTag, TSlice TString);
                           (mkField "Blobs" binSetTag, TSlice (TSlice (TUint KUint8)));
                           (mkField "Any" tag0, TInterface);
                           (mkField "M" tag0, TMap TString TBool)])
                 (Some (VStruct [(mkField "Name" tag0, VString "a");
                                 (mkField "Age" tag0, VPtr (TInt KInt) (Some (VInt KInt 5)));
                                 (mkField "Price" tag0, VFloat64 (F_finite false 247 (-1)));
                                 (mkField "Count" asStringTag, VUint KUint16 7);
                                 (mkField "Note" omitEmptyTag, VString "");
                                 (mkField "Tags" strSetTag, VSlice TString [VString "x"; VString "y"] 2);
                                 (mkField "Blobs" binSetTag, VSlice (TSlice (TUint KUint8))
                          [VSlice (TUint KUint8) [VUint KUint8 1; VUint KUint8 2] 2] 1);
                                 (mkField "Any" tag0, VIface (Some (VInt KInt 7)));
                                 (mkField "M" tag0, VMap TString TBool [(KeyString "k", VBool true)])]))).
Proof.
  refine (proj1 (C1_lossless_values_round_trip NewEncoder NewDecoder
            (VStruct [(mkField "Name" tag0, VString "a");
                  (mkField "Age" tag0, VPtr (TInt KInt) (Some (VInt KInt 5)));
                  (mkField "Price" tag0, VFloat64 (F_finite false 247 (-1)));
                  (mkField "Count" asStringTag, VUint KUint16 7);
                  (mkField "Note" omitEmptyTag, VString "");
                  (mkField "Tags" strSetTag, VSlice TString [VString "x"; VString "y"; VString "z"] 2);
                  (mkField "Blobs" binSetTag, VSlice (TSlice (TUint KUint8))
                          [VSlice (TUint KUint8) [VUint KUint8 1; VUint KUint8 2] 2] 1);
                  (mkField "Any" tag0, VIface (Some (VInt KInt 7)));
                  (mkField "M" tag0, VMap TString TBool [(KeyString "k", VBool true)])])
            _)).
  cbn [Clip lossless All map firstn fst snd Name ftag numberSlice stringSlice exactNumber
       generic typeOf nonNull List.length Sprint isByteSlice].
  split; [repeat constructor; cbn [In]; intuition discriminate |].
  repeat match goal with
         | |- (_ <> _ /\ _ /\ _) /\ _ => split; [split; [discriminate | split] |]
         end;
    try (intros H; discriminate H); try exact I; try (intros _ _; reflexivity);
    pickShape.
Defined.

(** ** The further properties at concrete inputs *)

Lemma X1_pointer_to_interface :
  encode 1 NewEncoder emptyAV (VPtr TInterface (Some (VIface (Some (VBool true))))) tag0
  = encode 1 NewEncoder emptyAV (VBool true) tag0.
Proof.
  exact (proj1 (proj1 (encode_sees_through_indirections
                         1 NewEncoder emptyAV
                         (VPtr TInterface (Some (VIface (Some (VBool true))))) tag0)
                      (VBool true) eq_refl)).
Defined.

Lemma X2_empty_string_field :
  Encode 2 NewEncoder
    (VStruct [(mkField "A" tag0, VBool true);
              (mkField "B" omitEmptyTag, VString "");
              (mkField "C" tag0, VInt KInt 1)])
  = Encode 2 NewEncoder
      (VStruct [(mkField "A" tag0, VBool true); (mkField "C" tag0, VInt KInt 1)]).
Proof.
  exact (omitempty_field_leaves_no_entry
           O NewEncoder [(mkField "A" tag0, VBool true)]
           (mkField "B" omitEmptyTag) (VString "") [(mkField "C" tag0, VInt KInt 1)]
           ltac:(discriminate) eq_refl eq_refl).
Defined.

Lemma X3_uintptr_field :
  Encode 2 NewEncoder
    (VStruct [(mkField "A" tag0, VBool true); (mkField "P" tag0, VUint KUintptr 5)])
  = Encode 2 NewEncoder (VStruct [(mkField "A" tag0, VBool true)])
  /\ Encode 1 NewEncoder (VUint KUintptr 5)
     = Err (unsupportedMarshalTypeError (TUint KUintptr)).
Proof.
  exact (uintptr_field_is_omitted
           O NewEncoder [(mkField "A" tag0, VBool true)] (mkField "P" tag0) 5 []
           ltac:(discriminate)).
Defined.

Lemma X4_empty_key_inside_a_field :
  Encode 3 NewEncoder
    (VStruct [(mkField "A" tag0, VBool true);
              (mkField "B" tag0, VMap TString TBool [(KeyString "", VBool true)]);
              (mkField "C" tag0, VInt KInt 1)])
  = Err (InvalidMarshalError "map key cannot be empty").
Proof.
  exact (field_error_aborts_record
           1 NewEncoder [(mkField "A" tag0, VBool true)] (mkField "B" tag0)
           (VMap TString TBool [(KeyString "", VBool true)])
           [(mkField "C" tag0, VInt KInt 1)]
           [("A", Some (setBOOL emptyAV (Some true)))]
           (InvalidMarshalError "map key cannot be empty")
           eq_refl ltac:(discriminate) eq_refl ltac:(discriminate)).
Defined.

Lemma X5_nameless_field :
  isOk (Encode 2 NewEncoder
          (VStruct [(mkField "A" tag0, VBool true); (mkField "" tag0, VBool false)]))
  = false.
Proof.
  refine (proj1 (empty_name_never_encodes 2 NewEncoder)
                [(mkField "A" tag0, VBool true); (mkField "" tag0, VBool false)] _).
  apply Exists_cons_tl. apply Exists_cons_hd. reflexivity.
Defined.

Lemma X6_reused_backing_array :
  exists e arr,
    decodeBinary [1; 2]
      (VSlice (TUint KUint8) [VUint KUint8 7; VUint KUint8 8; VUint KUint8 9] 3) true
    = Ok (VSlice e arr 2)
    /\ TSlice e = TSlice (TUint KUint8)
    /\ firstn 2 arr = [VUint KUint8 1; VUint KUint8 2]
    /\ (2 <= 3 -> false = false ->
        List.length arr = 3%nat /\ skipn 2 arr = [VUint KUint8 9])%nat.
Proof.
  exact (decodeBinary_into_byte_slice
           [1; 2] (VSlice (TUint KUint8) [VUint KUint8 7; VUint KUint8 8; VUint KUint8 9] 3)
           eq_refl).
Defined.

Lemma X8_string_set_into_a_longer_slice :
  resliced (VSlice TString [VString "x"; VString "y"; VString "z"] 1) 2
           (VSlice TString [VString "a"; VString "b"; VString "z"] 2).
Proof.
  exact (proj2 (proj2 (proj2 (container_into_slice_sets_length
                                (decode O NewDecoder)
                                (VSlice TString [VString "x"; VString "y"; VString "z"] 1)
                                (VSlice TString [VString "a"; VString "b"; VString "z"] 2)
                                eq_refl)))
               [Some "a"; Some "b"] ltac:(discriminate) eq_refl).
Defined.

Lemma X9_entry_added_to_a_map :
  kindOfType TString = reflect.String
  /\ exists m',
       VMap TString TBool [(KeyString "a", VBool false); (KeyString "b", VBool true)]
       = VMap TString TBool m'
       /\ (forall key,
             (forall name av, In (name, av) [("b", Some (setBOOL emptyAV (Some true)))] ->
                mapkeyEqb key (KeyString name) = false) ->
             MapIndex m' key = MapIndex [(KeyString "a", VBool false)] key)
       /\ (forall name av, In (name, av) [("b", Some (setBOOL emptyAV (Some true)))] ->
             MapIndex m' (KeyString name) <> None).
Proof.
  exact (proj2 (decodeMap_into_map_merges
                  (decode 1 NewDecoder) [("b", Some (setBOOL emptyAV (Some true)))]
                  TString TBool [(KeyString "a", VBool false)] true)
               (VMap TString TBool [(KeyString "a", VBool false); (KeyString "b", VBool true)])
               eq_refl).
Defined.

Lemma X10_unknown_key :
  Decode 2 NewDecoder
    (Some (setM emptyAV (Some [("zzz", Some (setBOOL emptyAV (Some true)))])))
    (VPtr (TStruct [(mkField "A" tag0, TInt KInt)])
          (Some (VStruct [(mkField "A" tag0, VInt KInt 3)])))
  = Ok (VPtr (TStruct [(mkField "A" tag0, TInt KInt)])
             (Some (VStruct [(mkField "A" tag0, VInt KInt 3)]))).
Proof.
  refine (unknown_record_keys_are_ignored
            1 NewDecoder [("zzz", Some (setBOOL emptyAV (Some true)))]
            (TStruct [(mkField "A" tag0, TInt KInt)]) [(mkField "A" tag0, VInt KInt 3)] _).
  repeat constructor.
Defined.

Lemma X11_a_number_sets_one_field :
  (populated (setN emptyAV (Some "5")) <= 1)%nat.
Proof.
  exact (proj1 (encode_sets_one_variant_by_kind
                  1 NewEncoder (VInt KInt 5) tag0 (setN emptyAV (Some "5")) eq_refl)).
Defined.

Lemma X12_list_of_a_slice :
  @None error = None
  /\ Marshal 2 (VSlice TBool [VBool true] 1)
     = Ok (setL emptyAV (Some [Some (setBOOL emptyAV (Some true))]))
  /\ (kindOfV (valueElem (VSlice TBool [VBool true] 1)) = reflect.Slice
      \/ kindOfV (valueElem (VSlice TBool [VBool true] 1)) = reflect.Array).
Proof.
  exact (proj2 (entry_points_return_their_own_container 2 (VSlice TBool [VBool true] 1))
               [Some (setBOOL emptyAV (Some true))] None eq_refl ltac:(discriminate)).
Defined.

Lemma X13_record_through_the_map_entry_points :
  exists n0, forall n, (n0 <= n)%nat ->
    exists m,
      MarshalMap n (VStruct [(mkField "Name" tag0, VString "a");
                             (mkField "Age" tag0, VInt KInt 5)])
      = Ok (m, None)
      /\ UnmarshalMap n (Some m)
           (VPtr (TStruct [(mkField "Name" tag0, TString); (mkField "Age" tag0, TInt KInt)])
                 (Some (VStruct [(mkField "Name" tag0, VString "");
                                 (mkField "Age" tag0, VInt KInt 0)])))
         = Ok (VPtr (TStruct [(mkField "Name" tag0, TString);
                              (mkField "Age" tag0, TInt KInt)])
                    (Some (VStruct [(mkField "Name" tag0, VString "a");
                                    (mkField "Age" tag0, VInt KInt 5)]))).
Proof.
  refine (MarshalMap_UnmarshalMap_round_trip
            (VStruct [(mkField "Name" tag0, VString "a"); (mkField "Age" tag0, VInt KInt 5)])
            _ (or_introl eq_refl)).
  cbn [lossless All map fst snd Name ftag].
  repeat split; try discriminate;
    try (repeat constructor; cbn [In]; intuition discriminate);
    left; split; reflexivity.
Defined.

Lemma X14_slice_through_the_list_entry_points :
  exists n0, forall n, (n0 <= n)%nat ->
    exists l,
      MarshalList n (VSlice (TInt KInt) [VInt KInt 1; VInt KInt 2] 2) = Ok (l, None)
      /\ UnmarshalList n (Some l) (VPtr (TSlice (TInt KInt)) (Some (VSliceNil (TInt KInt))))
         = Ok (VPtr (TSlice (TInt KInt))
                    (Some (VSlice (TInt KInt) [VInt KInt 1; VInt KInt 2] 2))).
Proof.
  refine (MarshalList_UnmarshalList_round_trip
            (VSlice (TInt KInt) [VInt KInt 1; VInt KInt 2] 2) _ eq_refl eq_refl eq_refl).
  cbn [lossless All typeOf isByteSlice].
  repeat split; try reflexivity; discriminate.
Defined.

Lemma X15_int8_as_string :
  encode 1 NewEncoder emptyAV (VInt KInt8 (-5)) asStringTag
    = Ok (setS emptyAV (Some (FormatInt (-5))))
  /\ decode 1 NewDecoder (Some (setS emptyAV (Some (FormatInt (-5)))))
            (VInt KInt8 0) true asStringTag
    = Ok (VInt KInt8 (-5))
  /\ decode 1 NewDecoder (Some (setS emptyAV (Some (FormatInt (-5)))))
            (VInt KInt8 0) true tag0
    = Err (UnmarshalTypeError "string" (TInt KInt8)).
Proof.
  exact (string_option_round_trips_integers O NewEncoder NewDecoder KInt8 (-5) 0 eq_refl).
Defined.

Lemma X16_string_set_into_nil_interface :
  decode 1 NewDecoder (Some (setSS emptyAV (Some [Some "a"; Some "b"]))) (VIface None)
         true tag0
  = Ok (VIface (Some (VSlice TString [VString "a"; VString "b"] 2))).
Proof.
  exact (proj1 (sets_into_any_type_target O NewDecoder None eq_refl)
               ["a"; "b"] ltac:(discriminate)).
Defined.

Lemma X17_zero_in_a_map :
  encodeMapEntries (encode 1 NewEncoder emptyAV) omitEmptyElemTag
                   [(KeyString "k", VInt KInt 0)] []
  = encodeMapEntries (encode 1 NewEncoder emptyAV) omitEmptyElemTag []
      (mapSet "k" (Some (setN emptyAV (Some (FormatInt 0)))) []).
Proof.
  exact (proj1 (omitemptyelem_drops_zeros_in_lists_only
                  O NewEncoder omitEmptyElemTag KInt 0)
               (KeyString "k") [] [] ltac:(discriminate)).
Defined.

Lemma X18_null_false_beside_a_boolean :
  Decode 1 NewDecoder
    (Some (mkAV None (Some true) None None None None None (Some false) None None))
    (VPtr TBool (Some (VBool true)))
  = Ok (VPtr TBool (Some (VBool false))).
Proof.
  exact (null_zeroes_the_target
           O NewDecoder
           (Some (mkAV None (Some true) None None None None None (Some false) None None))
           TBool (VBool true) eq_refl eq_refl ltac:(discriminate)).
Defined.

Lemma X19_number_into_nil_pointer :
  decode 1 NewDecoder (Some (setN emptyAV (Some "5"))) (VPtr (TInt KInt) None) true tag0
  = Ok (VPtr (TInt KInt) (Some (VInt KInt 5))).
Proof.
  exact (eq_trans (nil_pointer_is_allocated
                     O NewDecoder (setN emptyAV (Some "5")) (TInt KInt) tag0 eq_refl)
                  eq_refl).
Defined.

Lemma X20_one_field_named :
  exists fields',
    VStruct [(mkField "A" tag0, VInt KInt 7); (mkField "B" tag0, VString "keep")]
    = VStruct fields'
    /\ map fst fields'
       = map fst [(mkField "A" tag0, VInt KInt 0); (mkField "B" tag0, VString "keep")]
    /\ forall i,
         (forall k av, In (k, av) [("A", Some (setN emptyAV (Some "7")))] ->
            fieldByName [(mkField "A" tag0, VInt KInt 0); (mkField "B" tag0, VString "keep")] k
            <> Some i) ->
         nth_error fields' i
         = nth_error [(mkField "A" tag0, VInt KInt 0); (mkField "B" tag0, VString "keep")] i.
Proof.
  exact (unnamed_fields_keep_their_values
           (decode 1 NewDecoder) [("A", Some (setN emptyAV (Some "7")))]
           [(mkField "A" tag0, VInt KInt 0); (mkField "B" tag0, VString "keep")] true
           (VStruct [(mkField "A" tag0, VInt KInt 7); (mkField "B" tag0, VString "keep")])
           eq_refl).
Defined.

Lemma X22_number_into_interface :
  typeOf (VIface (Some (VInt KInt 7))) = typeOf (VIface None).
Proof.
  exact (decode_keeps_the_type_of_the_target
           1 NewDecoder (Some (setN emptyAV (Some "7"))) (VIface None) true tag0
           (VIface (Some (VInt KInt 7))) eq_refl).
Defined.

Lemma X23_list_into_nil_interface :
  decode 2 NewDecoder (Some (setL emptyAV (Some [Some (setBOOL emptyAV (Some true))])))
         (VIface None) true tag0
  = Ok (VIface (Some (VSlice TInterface [VIface (Some (VBool true))] 1))).
Proof.
  refine (proj1 (containers_into_any_type_target 1 NewDecoder None eq_refl)
                [Some (setBOOL emptyAV (Some true))] [VIface (Some (VBool true))] _ _).
  - discriminate.
  - repeat constructor.
Defined.

Lemma X24_two_byte_array :
  Encode 2 NewEncoder (VArray (TUint KUint8) [VUint KUint8 1; VUint KUint8 2])
  = Ok (setL emptyAV (Some [Some (setN emptyAV (Some (FormatUint 1)));
                            Some (setN emptyAV (Some (FormatUint 2)))])).
Proof.
  exact (byte_array_encodes_as_list O NewEncoder [1; 2] ltac:(discriminate)).
Defined.
